(** * Clawlett: the swap-execution core, embedded and verified

    The repository ships three swap scripts:

    - [ClawWallet]: [claw-wallet/scripts/swap.js], the first Aerodrome
      script (router calls, slippage given as a percentage);
    - [Clawlett]: the reworked Aerodrome script of
      [clawlett/scripts/swap.js] (basis-point slippage, quote payload
      checks, approval modes);
    - [Cow]: the CoW Protocol script of [clawlett/scripts/swap.js]
      (off-chain order, on-chain presignature, status polling).

    JavaScript values are modelled as the scripts use them: a [BigInt] is
    a [Z], a [Number] is an IEEE 754 binary64 value ([spec_float] with
    [prec = 53] and [emax = 1024]), a string is a [string], an object
    used as a table is an association list in source order.

    A script is a function from the outside world (provider, quote
    service, auction service, clock, configuration) to a run: the list
    of the events it causes, in order, and the way it ends (a value, an
    uncaught exception, or [process.exit]).  Thrown errors are told
    apart by their message, as in the scripts.  Console output is kept
    where a property speaks about it; the formatting of amounts is left
    out.  The polling loop runs on fuel that is shown to suffice. *)

From Stdlib Require Import ZArith List String Ascii Bool Lia.
From Stdlib Require Import SpecFloat.
Import ListNotations.

Local Open Scope string_scope.
Local Open Scope Z_scope.
Local Open Scope list_scope.

(** ** JavaScript numbers *)

Module JsNumber.

Definition prec : Z := 53.
Definition emax : Z := 1024.

(** A [Number]; the values a script can hold satisfy [valid]. *)
Definition Number : Type := spec_float.

Definition valid (x : Number) : bool := valid_binary prec emax x.

Definition mul : Number -> Number -> Number := SFmul prec emax.
Definition sub : Number -> Number -> Number := SFsub prec emax.
Definition ltb : Number -> Number -> bool := SFltb.
Definition leb : Number -> Number -> bool := SFleb.

(** [Number(z)] for an integer literal or an integral result. *)
Definition of_Z (z : Z) : Number := binary_normalize prec emax z 0 false.

(** [Number.isFinite] *)
Definition isFinite (x : Number) : bool :=
  match x with
  | S754_zero _ | S754_finite _ _ _ => true
  | S754_infinity _ | S754_nan => false
  end.

(** The signed mantissa of a finite number. *)
Definition mantissa (s : bool) (m : positive) : Z :=
  if s then Zneg m else Zpos m.

(** The integer nearest to a finite number, ties towards +infinity:
    [floor (x + 1/2)], computed exactly on the mantissa. *)
Definition nearest_int (x : Number) : Z :=
  match x with
  | S754_finite s m (Zneg n) =>
      (2 * mantissa s m + 2 ^ Zpos n) / 2 ^ (Zpos n + 1)
  | S754_finite s m e => mantissa s m * 2 ^ e
  | _ => 0
  end.

(** [Math.round]: NaN and the infinities are returned unchanged. *)
Definition Math_round (x : Number) : Number :=
  if isFinite x then of_Z (nearest_int x) else x.

(** The integer a finite integral number denotes, if it is one. *)
Definition to_integer (x : Number) : option Z :=
  match x with
  | S754_zero _ => Some 0
  | S754_finite s m (Zneg n) =>
      if (Zpos m mod 2 ^ Zpos n =? 0)
      then Some (mantissa s m / 2 ^ Zpos n) else None
  | S754_finite s m e => Some (mantissa s m * 2 ^ e)
  | S754_infinity _ | S754_nan => None
  end.

(** Literals of the scripts. *)
Definition n0 : Number := S754_zero false.
Definition n0_5 : Number := S754_finite false 4503599627370496 (-53).
Definition n0_05 : Number := S754_finite false 7205759403792794 (-57).
Definition n1 : Number := of_Z 1.
Definition n100 : Number := of_Z 100.
Definition n10000 : Number := of_Z 10000.

End JsNumber.

(** ** JavaScript strings (the ASCII part the scripts rely on) *)

Module JsString.

Definition upper_ascii (c : ascii) : ascii :=
  let n := nat_of_ascii c in
  if ((97 <=? n) && (n <=? 122))%nat then ascii_of_nat (n - 32) else c.

Definition lower_ascii (c : ascii) : ascii :=
  let n := nat_of_ascii c in
  if ((65 <=? n) && (n <=? 90))%nat then ascii_of_nat (n + 32) else c.

Fixpoint map_string (f : ascii -> ascii) (s : string) : string :=
  match s with
  | EmptyString => EmptyString
  | String c r => String (f c) (map_string f r)
  end.

Definition toUpperCase : string -> string := map_string upper_ascii.
Definition toLowerCase : string -> string := map_string lower_ascii.

(** [s.startsWith(p)] *)
Definition startsWith (s p : string) : bool := String.prefix p s.

Definition is_space (c : ascii) : bool :=
  let n := nat_of_ascii c in
  ((n =? 32) || ((9 <=? n) && (n <=? 13)))%nat.

Fixpoint trimStart (s : string) : string :=
  match s with
  | String c r => if is_space c then trimStart r else s
  | EmptyString => EmptyString
  end.

Fixpoint rev_string (acc s : string) : string :=
  match s with
  | EmptyString => acc
  | String c r => rev_string (String c acc) r
  end.

Definition trimEnd (s : string) : string :=
  rev_string EmptyString (trimStart (rev_string EmptyString s)).

(** [s.trim()] *)
Definition trim (s : string) : string := trimEnd (trimStart s).

(** [s.replace(/^\$/, '')] *)
Definition strip_sigil (s : string) : string :=
  match s with
  | String "$" r => r
  | _ => s
  end.

(** [s.slice(n)] for [0 <= n] *)
Fixpoint slice_from (n : nat) (s : string) : string :=
  match n, s with
  | O, _ => s
  | S k, String _ r => slice_from k r
  | S _, EmptyString => EmptyString
  end.

(** [a || b] on strings: the empty string is falsy, so is a missing one. *)
Definition or_else (a : option string) (b : string) : string :=
  match a with
  | Some EmptyString | None => b
  | Some x => x
  end.

(** [!s] for a string that may be [null]. *)
Definition falsy (a : option string) : bool :=
  match a with
  | Some EmptyString | None => true
  | Some _ => false
  end.

End JsString.

(** An object literal read as a table, in source order. *)
Fixpoint lookup {V : Type} (k : string) (t : list (string * V)) : option V :=
  match t with
  | [] => None
  | (k', v) :: r => if String.eqb k k' then Some v else lookup k r
  end.

(** ** Errors, outcomes and effects *)

(** The message of a thrown [Error]; the scripts tell failures apart by
    message only. *)
Inductive Message : Type :=
| MInvalidSlippage                     (* 'Invalid slippage' *)
| MSlippageRange                       (* 'Slippage must be between 0 and 0.5' *)
| MQuoteMissing                        (* 'Quote is missing' *)
| MHexData (label : string)            (* '<label> must be valid hex data' *)
| MUnsafeErc20Value (ethValue : Z)     (* 'Unsafe quote: ERC20-in swap returned non-zero ETH value' *)
| MUnsafeEthValue (ethValue amountIn : Z) (* 'Unsafe quote: ETH value exceeds amountIn' *)
| MInvalidRecipient                    (* 'Invalid Safe recipient address' *)
| MProtectedUnmapped (sym : string)    (* 'SECURITY: ... protected ... no verified ...' *)
| MTokenNotFound (sym : string)        (* 'Token ... not found in verified list' *)
| MRequiredArgs                        (* '--from, --to, and --amount are required' *)
| MConfigNotFound                      (* 'Config not found: ...' *)
| MWrongChain (got : Z)                (* 'Wrong chain: got ..., expected ...' *)
| MMissingBytecode (name : string)     (* 'Missing contract bytecode at ...' *)
| MInsufficientBalance                 (* 'Insufficient balance. Have ...' *)
| MQuoteFailed                         (* data.error || 'Quote failed' *)
| MAgentKeyMissing                     (* 'Agent private key not found' *)
| MSimulationFailed                    (* the simulation's revert reason *)
| MSwapFailed                          (* 'Swap transaction failed' *)
| MCowQuoteFailed                      (* 'CoW quote failed: ...' *)
| MCowOrderFailed                      (* 'CoW order submission failed: ...' *)
| MUnknownKind (kind : string)         (* 'Unknown order kind: ...' *)
| MUnknownBalance (balance : string).  (* 'Unknown balance type: ...' *)

Inductive JsError : Type :=
| Error (m : Message)
| RangeError          (* BigInt of a non-integral Number, BigInt division by zero *)
| TypeError           (* a property read on undefined *)
| LibraryError        (* thrown inside ethers: bad address, bad amount, bad ABI value *)
| RpcFailure          (* a provider call or a transaction that rejects *)
| NetworkFailure.     (* a fetch that rejects *)

(** A pure computation that may throw. *)
Inductive Result (A : Type) : Type :=
| Ok (a : A)
| Raise (e : JsError).
Arguments Ok {A} a.
Arguments Raise {A} e.

Definition rbind {A B : Type} (r : Result A) (k : A -> Result B) : Result B :=
  match r with
  | Ok a => k a
  | Raise e => Raise e
  end.

Declare Scope result_scope.
Delimit Scope result_scope with result.
Notation "x <~ r ;; k" := (rbind r (fun x => k))
  (at level 61, r at next level, right associativity) : result_scope.

Module BigInt.
(** [a / b]: truncates towards zero, throws a RangeError on [b = 0n]. *)
Definition div (a b : Z) : Result Z :=
  if b =? 0 then Raise RangeError else Ok (Z.quot a b).

(** [BigInt(x)] for a Number [x]: a RangeError unless [x] is an integer. *)
Definition of_Number (x : JsNumber.Number) : Result Z :=
  match JsNumber.to_integer x with
  | Some z => Ok z
  | None => Raise RangeError
  end.

(** [a || b] on a BigInt that may be absent: [0n] is falsy. *)
Definition or_else (a : option Z) (b : Z) : Z :=
  match a with
  | Some 0 | None => b
  | Some v => v
  end.
End BigInt.

(** [ethers.MaxUint256] *)
Definition MaxUint256 : Z := 2 ^ 256 - 1.

(** ** On-chain calls and the order documents *)

(** One hop of an Aerodrome route: (from, to, stable, factory). *)
Definition Route : Type := list (string * string * bool * string).

(** The order document POSTed to the CoW API. *)
Record CowOrder : Type := {
  o_sellToken : string;
  o_buyToken : string;
  o_receiver : string;
  o_sellAmount : Z;            (* decimal string in the document *)
  o_buyAmount : Z;             (* decimal string in the document *)
  o_validTo : Z;
  o_appData : string;
  o_feeAmount : string;
  o_kind : string;
  o_partiallyFillable : bool;
  o_sellTokenBalance : string;
  o_buyTokenBalance : string;
  o_signingScheme : string;
  o_signature : string;
  o_from : string;
}.

(** The struct handed to [cowPreSign]. *)
Record OrderStruct : Type := {
  s_sellToken : string;
  s_buyToken : string;
  s_receiver : string;
  s_sellAmount : Z;
  s_buyAmount : Z;
  s_validTo : Z;
  s_appData : string;
  s_feeAmount : Z;
  s_kind : string;             (* bytes32 *)
  s_partiallyFillable : bool;
  s_sellTokenBalance : string; (* bytes32 *)
  s_buyTokenBalance : string;  (* bytes32 *)
}.

(** Call data built with [encodeFunctionData], kept symbolic. *)
Inductive CallData : Type :=
| ApproveForRouter (token : string) (amount : Z)
| SwapExactETHForTokens (amountOutMin : Z) (routes : Route) (to : string) (deadline : Z)
| SwapExactTokensForETH (amountIn amountOutMin : Z) (routes : Route) (to : string) (deadline : Z)
| SwapExactTokensForTokens (amountIn amountOutMin : Z) (routes : Route) (to : string) (deadline : Z)
| WrapETH (amount : Z)
| CowPreSign (order : OrderStruct) (orderUid : string)
| RawCalldata (hex : string).

(** The arguments of [roles.execTransactionWithRole]. *)
Record RoleTx : Type := {
  tx_to : string;
  tx_value : Z;
  tx_data : CallData;
  tx_operation : Z;            (* 0 call, 1 delegatecall *)
  tx_roleKey : string;
  tx_shouldRevert : bool;
}.

(** Console lines a property speaks about; amounts are printed through
    [formatAmount], which is left out. *)
Inductive LogLine : Type :=
| LInfo (what : string)
| LWarning (text : string)
| LSummary (pay receive minReceive : Z)
| LQuoteOnly
| LPollStatus (status : string)
| LError (e : JsError)
| LFailure (what : string).

(** What a run does to the outside world, in order. *)
Inductive Event : Type :=
| Console (l : LogLine)
| RpcRead (method : string) (target : string)
| QuoteRequest (tokenIn tokenOut : string) (amountIn : Z)
| AppDataPut (hash : string)
| OrderPost (o : CowOrder)
| OrderStatusGet (orderUid : string)
| Timer (ms : Z)
| Simulate (t : RoleTx)
| Transact (t : RoleTx).

(** The calls that change state on chain or at the auction service. *)
Definition state_changing (e : Event) : bool :=
  match e with
  | Transact _ | OrderPost _ | AppDataPut _ => true
  | _ => false
  end.

Definition is_quote_request (e : Event) : bool :=
  match e with
  | QuoteRequest _ _ _ => true
  | _ => false
  end.

Definition is_status_query (e : Event) : bool :=
  match e with
  | OrderStatusGet _ => true
  | _ => false
  end.

(** How a run ends: a value, an uncaught exception, or [process.exit]. *)
Inductive Outcome (A : Type) : Type :=
| Return (a : A)
| Throw (e : JsError)
| Exit (code : Z).
Arguments Return {A} a.
Arguments Throw {A} e.
Arguments Exit {A} code.

(** A run: the events so far and the outcome. *)
Definition Run (A : Type) : Type := list Event * Outcome A.

Definition ret {A : Type} (a : A) : Run A := ([], Return a).

Definition bind {A B : Type} (m : Run A) (k : A -> Run B) : Run B :=
  match m with
  | (t, Return a) => let (t', o) := k a in (t ++ t', o)
  | (t, Throw e) => (t, Throw e)
  | (t, Exit c) => (t, Exit c)
  end.

Definition emit (e : Event) : Run unit := ([e], Return tt).
Definition log (l : LogLine) : Run unit := emit (Console l).
Definition throw {A : Type} (e : JsError) : Run A := ([], Throw e).
Definition exit {A : Type} (code : Z) : Run A := ([], Exit code).

(** [try { m } catch (error) { h error }] *)
Definition try_catch {A : Type} (m : Run A) (h : JsError -> Run A) : Run A :=
  match m with
  | (t, Throw e) => let (t', o) := h e in (t ++ t', o)
  | _ => m
  end.

Definition lift {A : Type} (r : Result A) : Run A :=
  match r with
  | Ok a => ret a
  | Raise e => throw e
  end.

(** An awaited call that may reject. *)
Definition await {A : Type} (ev : Event) (reply : option A) (e : JsError) : Run A :=
  match reply with
  | Some a => ([ev], Return a)
  | None => ([ev], Throw e)
  end.

Declare Scope run_scope.
Delimit Scope run_scope with run.
Notation "x <- m ;; k" := (bind m (fun x => k))
  (at level 61, m at next level, right associativity) : run_scope.
Notation "m ;; k" := (bind m (fun _ => k))
  (at level 61, right associativity) : run_scope.

(** The events [evs], then the run [r]. *)
Definition after {A : Type} (evs : list Event) (r : Run A) : Run A :=
  (evs ++ fst r, snd r).

Definition trace {A : Type} (r : Run A) : list Event := fst r.
Definition outcome {A : Type} (r : Run A) : Outcome A := snd r.

(** [main().catch(error => { console.error(...); process.exit(1) })] *)
Definition top_level (m : Run unit) : Run unit :=
  match try_catch m (fun e => bind (log (LError e)) (fun _ => exit 1)) with
  | (t, Return _) => (t, Exit 0)
  | r => r
  end.

(** ** The outside world *)

(** The JSON-RPC provider; [None] is a call that rejects. *)
Record Provider : Type := {
  chainId : Z;
  getCode : string -> option string;
  getBalance : string -> option Z;
  erc20_symbol : string -> option string;
  erc20_decimals : string -> option Z;
  erc20_balanceOf : string -> string -> option Z;
  erc20_allowance : string -> string -> string -> option Z;
}.

(** The parts of ethers the scripts call. *)
Record Ethers : Type := {
  getAddress : string -> option string;          (* checksum form, or throws *)
  parseUnits : string -> Z -> option Z;          (* amount, decimals *)
}.

(** [wallet.json] *)
Record Config : Type := {
  safe : string;
  roles : string;
  roleKey : string;
  zodiacHelpers : option string;                 (* config.contracts?.ZodiacHelpers *)
}.

(** A mined transaction's receipt status; [None]: sending or waiting rejects. *)
Definition Chain : Type := RoleTx -> option Z.

Definition send (chain : Chain) (t : RoleTx) : Run Z :=
  await (Transact t) (chain t) RpcFailure.

(** The reply of the quote service's [POST /quote], after [response.json()]. *)
Record QuoteReply : Type := {
  http_ok : bool;
  r_status : Z;
  r_error : option string;
  r_quote : option Z;          (* [None]: [BigInt(data.quote)] throws *)
  r_minAmountOut : option Z;   (* a zero or an absent field is falsy *)
  r_calldata : option string;  (* [None]: not a string *)
  r_path : Route;
  r_isMultiHop : bool;
}.

Record World : Type := {
  w_ethers : Ethers;
  w_provider : Provider;
  w_config : option Config;                      (* [None]: loadConfig throws *)
  w_quote_api : string -> string -> Z -> option QuoteReply;
  w_agent_key : bool;                            (* agent.pk exists *)
  w_chain : Chain;
  w_simulation : RoleTx -> bool;                 (* the static call goes through *)
  w_now : Z;                                     (* Date.now() *)
}.

Definition nl : string := String (ascii_of_nat 10) EmptyString.

Definition of_option {A : Type} (o : option A) (e : JsError) : Result A :=
  match o with
  | Some a => Ok a
  | None => Raise e
  end.

(** ** [claw-wallet/scripts/swap.js] *)

Module ClawWallet.
Import JsString.
Local Open Scope run_scope.

Definition VERIFIED_TOKENS : list (string * string) :=
  [ ("ETH", "0x4200000000000000000000000000000000000006");
    ("WETH", "0x4200000000000000000000000000000000000006");
    ("USDC", "0x833589fCD6eDb6E08f4c7C32D4f71b54bdA02913");
    ("USDT", "0xfde4C96c8593536E31F229EA8f37b2ADa2699bb2");
    ("DAI", "0x50c5725949A6F0c72E6C4a641F24049A917DB0Cb");
    ("USDS", "0x820C137fa70C8691f0e44Dc420a5e53c168921Dc");
    ("AERO", "0x940181a94A35A4569E4529A3CDfB74e38FD98631");
    ("cbBTC", "0xcbB7C0000aB88B473b1f5aFd9ef808440eed33Bf");
    ("VIRTUAL", "0x0b3e328455c4059EEb9e3f84b5543F74E24e7E1b");
    ("DEGEN", "0x4ed4E862860beD51a9570b96d89aF5E1B0Efefed");
    ("BRETT", "0x532f27101965dd16442E59d40670FaF5eBB142E4");
    ("TOSHI", "0xAC1Bd2486aAf3B5C0fc3Fd868558b082a531B2B4");
    ("WELL", "0xA88594D404727625A9437C3f886C7643872296AE");
    ("BID", "0xa1832f7f4e534ae557f9b5ab76de54b1873e498b") ].

Definition TOKEN_ALIASES : list (string * string) :=
  [ ("ETHEREUM", "ETH"); ("ETHER", "ETH"); ("USD COIN", "USDC"); ("TETHER", "USDT") ].

Definition PROTECTED_SYMBOLS : list string :=
  [ "ETH"; "WETH"; "USDC"; "USDT"; "DAI"; "USDS"; "AERO"; "cbBTC" ].

Definition AeroRouter : string := "0xcF77a3Ba9A5CA399B7c97c74d54e5b1Beb874E43".
Definition ApprovalHelper : string := "0x55881791383A2ab8Fb6F98267419e83e074fd076".
Definition WETH : string := "0x4200000000000000000000000000000000000006".

Record TokenDescriptor : Type := {
  address : string;
  symbol : string;
  decimals : Z;
  verified : bool;
  warning : option string;   (* [None]: the field is not set *)
}.

Record Quote : Type := {
  amountOut : Z;
  route : Route;
  isMultiHop : bool;
}.

Record Args : Type := {
  from : option string;
  to : option string;
  amount : option string;
  slippage : JsNumber.Number;   (* a percentage; 1 unless --slippage is given *)
  execute : bool;
}.

(** [PROTECTED_SYMBOLS.includes(s)] *)
Definition protected (s : string) : bool := existsb (String.eqb s) PROTECTED_SYMBOLS.

(** The warning text; the template's double quotes are written as
    single quotes and its leading emoji is left out. *)
Definition warning_text (symbol address : string) : string :=
  ("WARNING: Token has symbol '" ++ symbol ++ "' but is NOT the verified "
     ++ symbol ++ "." ++ nl
     ++ "Verified address: "
     ++ match lookup (toUpperCase symbol) VERIFIED_TOKENS with
        | Some a => a
        | None => "undefined"
        end ++ nl
     ++ "You provided: " ++ address ++ nl
     ++ "This could be a SCAM TOKEN.")%string.

Section Scripts.
Variable w : World.

(** [Promise.all([tokenContract.symbol(), tokenContract.decimals()])]:
    both calls are issued, one rejection rejects the pair. *)
Definition read_metadata (addr : string) : Run (string * Z) :=
  ( [RpcRead "symbol" addr; RpcRead "decimals" addr],
    match erc20_symbol (w_provider w) addr, erc20_decimals (w_provider w) addr with
    | Some s, Some d => Return (s, d)
    | _, _ => Throw RpcFailure
    end ).

Definition resolveByAddress (address0 : string) : Run TokenDescriptor :=
  address <- lift (of_option (getAddress (w_ethers w) address0) LibraryError) ;;
  let verifiedEntry :=
    find (fun entry => String.eqb (toLowerCase (snd entry)) (toLowerCase address))
         VERIFIED_TOKENS in
  sd <- read_metadata address ;;
  let '(symbol, decimals) := sd in
  let is_verified := match verifiedEntry with Some _ => true | None => false end in
  ret {| address := address;
         symbol := symbol;
         decimals := decimals;
         verified := is_verified;
         warning :=
           if negb is_verified && protected (toUpperCase symbol)
           then Some (warning_text symbol address) else None |}.

Definition resolveToken (token0 : string) : Run TokenDescriptor :=
  let token := trim token0 in
  if startsWith token "0x" && (String.length token =? 42)%nat
  then resolveByAddress token
  else
    let symbol := strip_sigil (toUpperCase token) in
    let aliasedSymbol := or_else (lookup symbol TOKEN_ALIASES) symbol in
    match lookup aliasedSymbol VERIFIED_TOKENS with
    | Some (String _ _ as address) =>
        sd <- read_metadata address ;;
        let '(onChainSymbol, decimals) := sd in
        ret {| address := address;
               symbol := onChainSymbol;
               decimals := decimals;
               verified := true;
               warning := None |}
    | _ =>
        if protected aliasedSymbol
        then throw (Error (MProtectedUnmapped symbol))
        else throw (Error (MTokenNotFound symbol))
    end.

Definition getQuote (tokenIn tokenOut : TokenDescriptor) (amountIn : Z) : Run Quote :=
  data <- await (QuoteRequest (address tokenIn) (address tokenOut) amountIn)
                (w_quote_api w (address tokenIn) (address tokenOut) amountIn)
                NetworkFailure ;;
  if negb (http_ok data) || negb (falsy (r_error data))
  then throw (Error MQuoteFailed)
  else
    q <- lift (of_option (r_quote data) LibraryError) ;;
    ret {| amountOut := q; route := r_path data; isMultiHop := r_isMultiHop data |}.

(** [quote.amountOut * BigInt(100 - args.slippage) / 100n] *)
Definition minAmountOut_of (amountOut : Z) (slippage : JsNumber.Number) : Result Z :=
  rbind (BigInt.of_Number (JsNumber.sub JsNumber.n100 slippage))
        (fun keep => BigInt.div (amountOut * keep) 100).

(** [tokenIn.address.toLowerCase() === CONTRACTS.WETH.toLowerCase()] *)
Definition is_weth (t : TokenDescriptor) : bool :=
  String.eqb (toLowerCase (address t)) (toLowerCase WETH).

(** The 'Check balance' block of [main]. *)
Definition read_balance (safeAddress : string) (tokenIn : TokenDescriptor) : Run Z :=
  if is_weth tokenIn
  then await (RpcRead "getBalance" safeAddress)
             (getBalance (w_provider w) safeAddress) RpcFailure
  else await (RpcRead "balanceOf" (address tokenIn))
             (erc20_balanceOf (w_provider w) (address tokenIn) safeAddress) RpcFailure.

(** The 'Handle approval' block of [main]. *)
Definition handle_approval (cfg : Config) (tokenIn : TokenDescriptor) (amountIn : Z)
  : Run unit :=
  if is_weth tokenIn then ret tt
  else
    allowance <-
      try_catch
        (await (RpcRead "allowance" (address tokenIn))
               (erc20_allowance (w_provider w) (address tokenIn) (safe cfg) AeroRouter)
               RpcFailure)
        (fun _ => ret 0) ;;
    if allowance <? amountIn then
      log (LInfo "Approving token...") ;;
      _ <- send (w_chain w)
                {| tx_to := ApprovalHelper;
                   tx_value := 0;
                   tx_data := ApproveForRouter (address tokenIn) MaxUint256;
                   tx_operation := 1;
                   tx_roleKey := roleKey cfg;
                   tx_shouldRevert := true |} ;;
      log (LInfo "Approved!")
    else ret tt.

(** The 'Build swap tx' block of [main]. *)
Definition swap_data (cfg : Config) (tokenIn tokenOut : TokenDescriptor)
           (amountIn minAmountOut : Z) (quote : Quote) (deadline : Z) : CallData :=
  if is_weth tokenIn
  then SwapExactETHForTokens minAmountOut (route quote) (safe cfg) deadline
  else if is_weth tokenOut
  then SwapExactTokensForETH amountIn minAmountOut (route quote) (safe cfg) deadline
  else SwapExactTokensForTokens amountIn minAmountOut (route quote) (safe cfg) deadline.

(** [resolveToken] as [main] calls it: print, or report and exit. *)
Definition resolve_or_exit (reference : string) : Run TokenDescriptor :=
  try_catch
    (t <- resolveToken reference ;;
     log (LInfo (symbol t)) ;;
     match warning t with
     | Some (String _ _ as text) => log (LWarning text)
     | _ => ret tt
     end ;;
     ret t)
    (fun e => log (LError e) ;; exit 1).

(** Where [main] stands once the balance has been read. *)
Record Checked : Type := {
  c_cfg : Config;
  c_tokenIn : TokenDescriptor;
  c_tokenOut : TokenDescriptor;
  c_amountIn : Z;
  c_balance : Z;
}.

(** [main] up to and including the balance read. *)
Definition prepare (args : Args) : Run Checked :=
  if falsy (from args) || falsy (to args) || falsy (amount args)
  then log (LFailure "Error: --from, --to, and --amount are required") ;; exit 1
  else
    let from_ := or_else (from args) "" in
    let to_ := or_else (to args) "" in
    let amount_ := or_else (amount args) "" in
    match w_config w with
    | None => log (LError (Error MConfigNotFound)) ;; exit 1
    | Some cfg =>
        log (LInfo "Resolving tokens...") ;;
        tokenIn <- resolve_or_exit from_ ;;
        tokenOut <- resolve_or_exit to_ ;;
        amountIn <- lift (of_option (parseUnits (w_ethers w) amount_ (decimals tokenIn))
                                    LibraryError) ;;
        balance <- read_balance (safe cfg) tokenIn ;;
        ret {| c_cfg := cfg; c_tokenIn := tokenIn; c_tokenOut := tokenOut;
               c_amountIn := amountIn; c_balance := balance |}
    end.

(** [main] from the balance test on. *)
Definition proceed (args : Args) (c : Checked) : Run unit :=
  let cfg := c_cfg c in
  let tokenIn := c_tokenIn c in
  let tokenOut := c_tokenOut c in
  let amountIn := c_amountIn c in
  let safeAddress := safe cfg in
  if c_balance c <? amountIn
  then log (LFailure "Insufficient balance") ;; exit 1
  else
    log (LInfo "Getting quote...") ;;
    quote <- try_catch (getQuote tokenIn tokenOut amountIn)
                       (fun e => log (LError e) ;; exit 1) ;;
    minAmountOut <- lift (minAmountOut_of (amountOut quote) (slippage args)) ;;
    log (LSummary amountIn (amountOut quote) minAmountOut) ;;
    if negb (execute args)
    then log LQuoteOnly ;; exit 0
    else
      log (LInfo "Executing swap...") ;;
      if negb (w_agent_key w)
      then log (LFailure "Error: Agent private key not found") ;; exit 1
      else
        let deadline := w_now w / 1000 + 1200 in
        handle_approval cfg tokenIn amountIn ;;
        let swapData :=
          swap_data cfg tokenIn tokenOut amountIn minAmountOut quote deadline in
        status <- send (w_chain w)
                       {| tx_to := AeroRouter;
                          tx_value := if is_weth tokenIn then amountIn else 0;
                          tx_data := swapData;
                          tx_operation := 0;
                          tx_roleKey := roleKey cfg;
                          tx_shouldRevert := true |} ;;
        if status =? 1 then
          newBalance <-
            (if is_weth tokenOut
             then await (RpcRead "getBalance" safeAddress)
                        (getBalance (w_provider w) safeAddress) RpcFailure
             else await (RpcRead "balanceOf" (address tokenOut))
                        (erc20_balanceOf (w_provider w) (address tokenOut) safeAddress)
                        RpcFailure) ;;
          log (LInfo "SWAP COMPLETE")
        else log (LFailure "Transaction failed") ;; exit 1.

Definition main (args : Args) : Run unit :=
  c <- prepare args ;; proceed args c.

Definition run (args : Args) : Run unit := top_level (main args).
End Scripts.

(** *** The command line (lines 210-259) *)

Definition DEFAULT_RPC_URL : string := "https://mainnet.base.org".

(** The object [parseArgs] returns: the options [main] reads from it,
    and the two that select the configuration directory and the
    provider.  [None] is [null] or [undefined]. *)
Record CommandLine : Type := {
  cl_args : Args;
  cl_configDir : option string;
  cl_rpc : option string;
}.

Definition set_from (v : option string) (r : CommandLine) : CommandLine :=
  {| cl_args := {| from := v; to := to (cl_args r); amount := amount (cl_args r);
                   slippage := slippage (cl_args r); execute := execute (cl_args r) |};
     cl_configDir := cl_configDir r; cl_rpc := cl_rpc r |}.

Definition set_to (v : option string) (r : CommandLine) : CommandLine :=
  {| cl_args := {| from := from (cl_args r); to := v; amount := amount (cl_args r);
                   slippage := slippage (cl_args r); execute := execute (cl_args r) |};
     cl_configDir := cl_configDir r; cl_rpc := cl_rpc r |}.

Definition set_amount (v : option string) (r : CommandLine) : CommandLine :=
  {| cl_args := {| from := from (cl_args r); to := to (cl_args r); amount := v;
                   slippage := slippage (cl_args r); execute := execute (cl_args r) |};
     cl_configDir := cl_configDir r; cl_rpc := cl_rpc r |}.

Definition set_slippage (v : JsNumber.Number) (r : CommandLine) : CommandLine :=
  {| cl_args := {| from := from (cl_args r); to := to (cl_args r);
                   amount := amount (cl_args r);
                   slippage := v; execute := execute (cl_args r) |};
     cl_configDir := cl_configDir r; cl_rpc := cl_rpc r |}.

Definition set_execute (r : CommandLine) : CommandLine :=
  {| cl_args := {| from := from (cl_args r); to := to (cl_args r);
                   amount := amount (cl_args r);
                   slippage := slippage (cl_args r); execute := true |};
     cl_configDir := cl_configDir r; cl_rpc := cl_rpc r |}.

Definition set_configDir (v : option string) (r : CommandLine) : CommandLine :=
  {| cl_args := cl_args r; cl_configDir := v; cl_rpc := cl_rpc r |}.

Definition set_rpc (v : option string) (r : CommandLine) : CommandLine :=
  {| cl_args := cl_args r; cl_configDir := cl_configDir r; cl_rpc := v |}.

(** [case long: case short:] of the [switch]. *)
Definition is_option (a long short : string) : bool :=
  String.eqb a long || String.eqb a short.

(** [printHelp] (lines 261-281): one [console.log] of the usage text. *)
Definition usage : string :=
  String.concat nl
    [ "";
      "Usage: node swap.js --from <TOKEN> --to <TOKEN> --amount <AMOUNT> [--execute]";
      "";
      "Arguments:";
      "  --from, -f       Token to swap from (symbol or address)";
      "  --to, -t         Token to swap to (symbol or address)";
      "  --amount, -a     Amount to swap";
      "  --slippage       Slippage % (default: 1)";
      "  --execute, -x    Execute swap (default: quote only)";
      "  --config-dir, -c Config directory";
      ("  --rpc, -r        RPC URL (default: " ++ DEFAULT_RPC_URL ++ ")")%string;
      "";
      "Verified Tokens:";
      "  ETH, WETH, USDC, USDT, DAI, USDS, AERO, cbBTC, VIRTUAL, DEGEN, BRETT, TOSHI, WELL";
      "";
      "Examples:";
      "  node swap.js --from ETH --to USDC --amount 0.1";
      "  node swap.js --from USDC --to ETH --amount 100 --execute";
      "" ].

Definition printHelp : Run unit := log (LInfo usage).

Section CommandLine.
(** [parseFloat] on a string, and what the defaults are read from: the
    two environment variables and [path.join(__dirname, '..', 'config')]. *)
Variable parseFloat : string -> JsNumber.Number.
Variable env_WALLET_CONFIG_DIR : option string.
Variable env_BASE_RPC_URL : option string.
Variable default_config_dir : string.

Definition defaults : CommandLine :=
  {| cl_args := {| from := None; to := None; amount := None;
                   slippage := JsNumber.n1; execute := false |};
     cl_configDir := Some (or_else env_WALLET_CONFIG_DIR default_config_dir);
     cl_rpc := Some (or_else env_BASE_RPC_URL DEFAULT_RPC_URL) |}.

(** [parseFloat(args[++i])]: [undefined] gives NaN. *)
Definition parseFloat_at (v : option string) : JsNumber.Number :=
  match v with
  | Some s => parseFloat s
  | None => S754_nan
  end.

(** The [for] loop over [args], from position [i] on: [args] is what is
    left from [args[i]] on, [value] is [args[++i]] and [next] what is
    left once the value has been taken. *)
Fixpoint parse_from (args : list string) (result : CommandLine) {struct args}
  : Run CommandLine :=
  match args with
  | [] => ret result
  | a :: rest =>
      let value := hd_error rest in
      let next := match rest with [] => rest | _ :: r => r end in
      if is_option a "--from" "-f" then parse_from next (set_from value result)
      else if is_option a "--to" "-t" then parse_from next (set_to value result)
      else if is_option a "--amount" "-a" then parse_from next (set_amount value result)
      else if String.eqb a "--slippage"
      then parse_from next (set_slippage (parseFloat_at value) result)
      else if is_option a "--execute" "-x" then parse_from rest (set_execute result)
      else if is_option a "--config-dir" "-c"
      then parse_from next (set_configDir value result)
      else if is_option a "--rpc" "-r" then parse_from next (set_rpc value result)
      else if is_option a "--help" "-h" then printHelp ;; exit 0
      else parse_from rest result
  end.

(** [argv] is [process.argv.slice(2)]. *)
Definition parseArgs (argv : list string) : Run CommandLine :=
  parse_from argv defaults.

(** The world a command line selects: [world_of dir rpc] is what the
    script finds with the configuration directory [dir] and a provider
    for [rpc].  Without a directory, [path.join] throws inside
    [loadConfig]: as when the file is missing, [main] reports the error
    and exits with code 1. *)
Variable world_of : string -> option string -> World.

Definition world_at (cl : CommandLine) : World :=
  match cl_configDir cl with
  | Some dir => world_of dir (cl_rpc cl)
  | None =>
      let w := world_of "" (cl_rpc cl) in
      {| w_ethers := w_ethers w; w_provider := w_provider w; w_config := None;
         w_quote_api := w_quote_api w; w_agent_key := w_agent_key w;
         w_chain := w_chain w; w_simulation := w_simulation w; w_now := w_now w |}
  end.

(** The script as it is started: [main] begins with [parseArgs()]. *)
Definition script (argv : list string) : Run unit :=
  top_level (cl <- parseArgs argv ;; main (world_at cl) (cl_args cl)).
End CommandLine.
End ClawWallet.

(** ** The reworked Aerodrome script of [clawlett/scripts/swap.js]

    The file as it stands has lost lines: a declaration here, a guard or
    an argument there.  What a function needs and the file does not show
    is handled as follows.

    - The registry and the alias table run into each other (the rows of
      USDC and CBBTC and the head of the alias table are gone): both
      tables are parameters of the section; the rows that are left are
      [TOKEN_REGISTRY_rows] and [TOKEN_ALIASES_rows].
    - The guard of the last throw of [validateQuotePayload] is a
      parameter.
    - [canonical] in [resolveByAddress] and the re-throw of
      [simulateExecution] follow the specification and say so.
    - Lines that both sibling scripts have in the same place are read as
      there: [token = input.trim()], the [symbol()] read next to
      [decimals()], the test of [response.ok] and [data.error], the
      required-arguments guard, [parseUnits] for [amountIn], the
      comparison [balance < amountIn] in front of the insufficient-balance
      throw, the [quote] field of the validated payload, the token
      argument of [approveForRouter] (as in [revokeAllowance]) and the
      [args.simulate] test around the simulation. *)

Module Clawlett.
Import JsString.
Local Open Scope run_scope.

Definition CHAIN_ID : Z := 8453.
Definition NATIVE_ETH : string := "0x0000000000000000000000000000000000000000".

Record RegistryEntry : Type := {
  e_address : string;
  e_decimals : Z;
  e_native : bool;
  e_display : string;
}.

(** The rows of [TOKEN_REGISTRY] and of the alias table that are left. *)
Definition TOKEN_REGISTRY_rows : list (string * RegistryEntry) :=
  [ ("ETH", {| e_address := NATIVE_ETH; e_decimals := 18; e_native := true; e_display := "ETH" |});
    ("WETH", {| e_address := "0x4200000000000000000000000000000000000006"; e_decimals := 18; e_native := false; e_display := "WETH" |});
    ("USDT", {| e_address := "0xfde4C96c8593536E31F229EA8f37b2ADa2699bb2"; e_decimals := 6; e_native := false; e_display := "USDT" |});
    ("DAI", {| e_address := "0x50c5725949A6F0c72E6C4a641F24049A917DB0Cb"; e_decimals := 18; e_native := false; e_display := "DAI" |});
    ("USDS", {| e_address := "0x820C137fa70C8691f0e44Dc420a5e53c168921Dc"; e_decimals := 18; e_native := false; e_display := "USDS" |});
    ("AERO", {| e_address := "0x940181a94A35A4569E4529A3CDfB74e38FD98631"; e_decimals := 18; e_native := false; e_display := "AERO" |});
    ("VIRTUAL", {| e_address := "0x0b3e328455c4059EEb9e3f84b5543F74E24e7E1b"; e_decimals := 18; e_native := false; e_display := "VIRTUAL" |});
    ("DEGEN", {| e_address := "0x4ed4E862860beD51a9570b96d89aF5E1B0Efefed"; e_decimals := 18; e_native := false; e_display := "DEGEN" |});
    ("BRETT", {| e_address := "0x532f27101965dd16442E59d40670FaF5eBB142E4"; e_decimals := 18; e_native := false; e_display := "BRETT" |});
    ("TOSHI", {| e_address := "0xAC1Bd2486aAf3B5C0fc3Fd868558b082a531B2B4"; e_decimals := 18; e_native := false; e_display := "TOSHI" |});
    ("WELL", {| e_address := "0xA88594D404727625A9437C3f886C7643872296AE"; e_decimals := 18; e_native := false; e_display := "WELL" |});
    ("BID", {| e_address := "0xa1832f7f4e534ae557f9b5ab76de54b1873e498b"; e_decimals := 18; e_native := false; e_display := "BID" |}) ].

Definition TOKEN_ALIASES_rows : list (string * string) :=
  [ ("ETHEREUM", "ETH"); ("USD COIN", "USDC"); ("TETHER", "USDT");
    ("CBBTC", "CBBTC"); ("CBBTCTOKEN", "CBBTC") ].

Definition PROTECTED_SYMBOLS : list string :=
  [ "ETH"; "WETH"; "USDC"; "USDT"; "DAI"; "USDS"; "AERO"; "CBBTC"; "BID" ].

Definition AeroUniversalRouter : string := "0x6Df1c91424F79E40E33B1A48F0687B666bE71075".
Definition ZodiacHelpers : string := "0xc235D2475E4424F277B53D19724E2453a8686C54".

(** A field the object literal does not set is [None]. *)
Record TokenDescriptor : Type := {
  address : string;
  symbol : string;
  decimals : option Z;
  verified : option bool;
  native : bool;
  warning : option string;
}.

Record Quote : Type := {
  amountOut : Z;
  minAmountOut : option Z;     (* [null] or a BigInt *)
  calldata : option string;    (* [None]: not a string *)
  value : option Z;            (* [quote.value], when present *)
}.

Record QuotePayload : Type := {
  p_quote : option Quote;
  p_amountIn : Z;
  p_safeAddress : string;
  p_isETHIn : bool;
}.

Record Args : Type := {
  from : option string;
  to : option string;
  amount : option string;
  slippage : JsNumber.Number;  (* a fraction; 0.05 unless --slippage is given *)
  execute : bool;
  approveMode : string;        (* 'exact' unless --approve-max is given *)
  revokeAfter : bool;
  simulate : bool;
}.

Definition normalizeSymbol (input : string) : string :=
  strip_sigil (toUpperCase (trim input)).

Definition parseSlippageBps (value : JsNumber.Number) : Result JsNumber.Number :=
  if negb (JsNumber.isFinite value) then Raise (Error MInvalidSlippage)
  else if JsNumber.ltb value JsNumber.n0 || JsNumber.ltb JsNumber.n0_5 value
  then Raise (Error MSlippageRange)
  else Ok (JsNumber.Math_round (JsNumber.mul value JsNumber.n10000)).

Definition requireHexData (data : option string) (label : string) : Result unit :=
  match data with
  | Some d =>
      if negb (startsWith d "0x") || negb (Nat.eqb (Nat.modulo (String.length d) 2) 0)
      then Raise (Error (MHexData label))
      else Ok tt
  | None => Raise (Error (MHexData label))
  end.

(** [PROTECTED_SYMBOLS.has(s)] *)
Definition protected (s : string) : bool := existsb (String.eqb s) PROTECTED_SYMBOLS.

(** [quote.minAmountOut || ((quote.amountOut * BigInt(10000 - slippageBps)) / 10000n)] *)
Definition minAmountOut_of (quote : Quote) (slippageBps : JsNumber.Number) : Result Z :=
  let computed :=
    rbind (BigInt.of_Number (JsNumber.sub JsNumber.n10000 slippageBps))
          (fun keep => BigInt.div (amountOut quote * keep) 10000) in
  match minAmountOut quote with
  | Some 0 | None => computed
  | Some supplied => Ok supplied
  end.

Section Scripts.
Variable TOKEN_REGISTRY : list (string * RegistryEntry).
Variable TOKEN_ALIASES : list (string * string).
(** The guard of the 'Invalid Safe recipient address' throw, whose line
    the file does not show. *)
Variable recipient_rejected : Quote -> string -> bool.
Variable w : World.

Definition validateQuotePayload (p : QuotePayload) : Result unit :=
  match p_quote p with
  | None => Raise (Error MQuoteMissing)
  | Some quote =>
      rbind (requireHexData (calldata quote) "quote.calldata") (fun _ =>
      let ethValue := BigInt.or_else (value quote) 0 in
      if negb (p_isETHIn p) && negb (ethValue =? 0)
      then Raise (Error (MUnsafeErc20Value ethValue))
      else if p_isETHIn p && (p_amountIn p <? ethValue)
      then Raise (Error (MUnsafeEthValue ethValue (p_amountIn p)))
      else if recipient_rejected quote (p_safeAddress p)
      then Raise (Error MInvalidRecipient)
      else Ok tt)
  end.

Definition read_metadata (addr : string) : Run (string * Z) :=
  ( [RpcRead "symbol" addr; RpcRead "decimals" addr],
    match erc20_symbol (w_provider w) addr, erc20_decimals (w_provider w) addr with
    | Some s, Some d => Return (s, d)
    | _, _ => Throw RpcFailure
    end ).

Definition warning_text (symbol expected address_ : string) : string :=
  ("WARNING: token symbol '" ++ symbol
     ++ "' is protected but address does not match verified mapping." ++ nl
     ++ "Expected: " ++ expected ++ nl
     ++ "Provided: " ++ address_)%string.

(** Modelled from the spec: the binding of [canonical], which
    [resolveByAddress] uses and the file does not show.  The on-chain
    symbol is compared with the protected set case-insensitively, so
    [canonical] is the symbol in upper case. *)
Definition canonical_of (symbol : string) : string := toUpperCase symbol.

Definition resolveByAddress (addressInput : string) : Run TokenDescriptor :=
  address <- lift (of_option (getAddress (w_ethers w) addressInput) LibraryError) ;;
  if String.eqb (toLowerCase address) (toLowerCase NATIVE_ETH)
  then ret {| address := NATIVE_ETH; symbol := "ETH"; decimals := Some 18;
              verified := None; native := true; warning := None |}
  else
    let verifiedEntry :=
      find (fun row => String.eqb (toLowerCase (e_address (snd row))) (toLowerCase address))
           TOKEN_REGISTRY in
    sd <- read_metadata address ;;
    let '(symbol, decimals) := sd in
    let canonical := canonical_of symbol in
    let unmatched := match verifiedEntry with Some _ => false | None => true end in
    ret {| address := address;
           symbol := symbol;
           decimals := Some decimals;
           verified := None;
           native := false;
           warning :=
             if unmatched && protected canonical
             then Some (warning_text symbol
                          (or_else (option_map e_address (lookup canonical TOKEN_REGISTRY))
                                   "unknown")
                          address)
             else None |}.

Definition resolveToken (input : string) : Run TokenDescriptor :=
  let token := trim input in
  if startsWith token "0x" && (String.length token =? 42)%nat
  then resolveByAddress token
  else
    let symbolInput := normalizeSymbol token in
    let key := or_else (lookup symbolInput TOKEN_ALIASES) symbolInput in
    match lookup key TOKEN_REGISTRY with
    | None =>
        if protected key
        then throw (Error (MProtectedUnmapped symbolInput))
        else throw (Error (MTokenNotFound symbolInput))
    | Some entry =>
        if e_native entry
        then ret {| address := e_address entry; symbol := e_display entry;
                    decimals := None; verified := Some true; native := true;
                    warning := None |}
        else
          sd <- read_metadata (e_address entry) ;;
          let '(onChainSymbol, onChainDecimals) := sd in
          ret {| address := e_address entry;
                 symbol := or_else (Some onChainSymbol) (e_display entry);
                 decimals := Some onChainDecimals;
                 verified := Some true;
                 native := false;
                 warning := None |}
    end.

Definition preflight (cfg : Config) (safeAddress : string) : Run unit :=
  emit (RpcRead "getNetwork" "") ;;
  if negb (chainId (w_provider w) =? CHAIN_ID)
  then throw (Error (MWrongChain (chainId (w_provider w))))
  else
    let check (name addr : string) : Run unit :=
      code <- await (RpcRead "getCode" addr) (getCode (w_provider w) addr) RpcFailure ;;
      if String.eqb code "" || String.eqb code "0x"
      then throw (Error (MMissingBytecode name))
      else ret tt in
    check "Safe" safeAddress ;;
    check "Roles" (roles cfg) ;;
    check "AeroUniversalRouter" AeroUniversalRouter ;;
    check "ZodiacHelpers" ZodiacHelpers.

Definition getQuote (tokenIn tokenOut : TokenDescriptor) (amountIn : Z)
           (safeAddress : string) : Run Quote :=
  data <- await (QuoteRequest (address tokenIn) (address tokenOut) amountIn)
                (w_quote_api w (address tokenIn) (address tokenOut) amountIn)
                NetworkFailure ;;
  if negb (http_ok data) || negb (falsy (r_error data))
  then throw (Error MQuoteFailed)
  else
    q <- lift (of_option (r_quote data) LibraryError) ;;
    ret {| amountOut := q;
           minAmountOut := r_minAmountOut data;
           calldata := r_calldata data;
           value := None |}.

Definition maybeApprove (cfg : Config) (safeAddress : string)
           (tokenIn : TokenDescriptor) (amountIn : Z) (approveMode : string) : Run unit :=
  if native tokenIn then ret tt
  else
    allowance <-
      try_catch
        (await (RpcRead "allowance" (address tokenIn))
               (erc20_allowance (w_provider w) (address tokenIn) safeAddress
                                AeroUniversalRouter)
               RpcFailure)
        (fun _ => ret 0) ;;
    if amountIn <=? allowance then ret tt
    else
      let approvalAmount :=
        if String.eqb approveMode "max" then MaxUint256 else amountIn in
      _ <- send (w_chain w)
                {| tx_to := ZodiacHelpers;
                   tx_value := 0;
                   tx_data := ApproveForRouter (address tokenIn) approvalAmount;
                   tx_operation := 1;
                   tx_roleKey := roleKey cfg;
                   tx_shouldRevert := true |} ;;
      ret tt.

Definition revokeAllowance (cfg : Config) (tokenIn : TokenDescriptor) : Run unit :=
  if native tokenIn then ret tt
  else
    _ <- send (w_chain w)
              {| tx_to := ZodiacHelpers;
                 tx_value := 0;
                 tx_data := ApproveForRouter (address tokenIn) 0;
                 tx_operation := 1;
                 tx_roleKey := roleKey cfg;
                 tx_shouldRevert := true |} ;;
    ret tt.

(** Modelled from the spec: what the [catch] block does with the message
    it builds, the statement being gone from the file.  A failing
    simulation surfaces its revert reason, so the block throws. *)
Definition simulateExecution (t : RoleTx) : Run unit :=
  emit (Simulate t) ;;
  if w_simulation w t then ret tt else throw (Error MSimulationFailed).

Definition main (args : Args) : Run unit :=
  if falsy (from args) || falsy (to args) || falsy (amount args)
  then throw (Error MRequiredArgs)
  else
    let from_ := or_else (from args) "" in
    let to_ := or_else (to args) "" in
    let amount_ := or_else (amount args) "" in
    slippageBps <- lift (parseSlippageBps (slippage args)) ;;
    cfg <- lift (of_option (w_config w) (Error MConfigNotFound)) ;;
    let safeAddress := safe cfg in
    preflight cfg safeAddress ;;
    tokenIn <- resolveToken from_ ;;
    tokenOut <- resolveToken to_ ;;
    match warning tokenIn with
    | Some (String _ _ as text) => log (LWarning text)
    | _ => ret tt
    end ;;
    match warning tokenOut with
    | Some (String _ _ as text) => log (LWarning text)
    | _ => ret tt
    end ;;
    amountIn <- lift (of_option
                        (parseUnits (w_ethers w) amount_
                                    (match decimals tokenIn with Some d => d | None => 18 end))
                        LibraryError) ;;
    balance <-
      (if native tokenIn
       then await (RpcRead "getBalance" safeAddress)
                  (getBalance (w_provider w) safeAddress) RpcFailure
       else await (RpcRead "balanceOf" (address tokenIn))
                  (erc20_balanceOf (w_provider w) (address tokenIn) safeAddress)
                  RpcFailure) ;;
    if balance <? amountIn
    then throw (Error MInsufficientBalance)
    else
      quote <- getQuote tokenIn tokenOut amountIn safeAddress ;;
      lift (validateQuotePayload
              {| p_quote := Some quote; p_amountIn := amountIn;
                 p_safeAddress := safeAddress; p_isETHIn := native tokenIn |}) ;;
      minOut <- lift (minAmountOut_of quote slippageBps) ;;
      log (LSummary amountIn (amountOut quote) minOut) ;;
      if negb (execute args)
      then log LQuoteOnly
      else
        if negb (w_agent_key w) then throw (Error MAgentKeyMissing)
        else
          let quoted := or_else (calldata quote) "" in
          let swapCalldata :=
            if startsWith quoted "0x3593564c"
            then ("0xf23674e8" ++ slice_from 10 quoted)%string
            else quoted in
          lift (requireHexData (Some swapCalldata) "swapCalldata") ;;
          let ethValue := if native tokenIn then amountIn else 0 in
          maybeApprove cfg safeAddress tokenIn amountIn (approveMode args) ;;
          let swapTx :=
            {| tx_to := ZodiacHelpers;
               tx_value := ethValue;
               tx_data := RawCalldata swapCalldata;
               tx_operation := 1;
               tx_roleKey := roleKey cfg;
               tx_shouldRevert := true |} in
          (if simulate args then simulateExecution swapTx else ret tt) ;;
          status <- send (w_chain w) swapTx ;;
          if negb (status =? 1) then throw (Error MSwapFailed)
          else
            (if revokeAfter args
             then revokeAllowance cfg tokenIn ;; log (LInfo "Allowance revoked after swap.")
             else ret tt) ;;
            _ <- (if native tokenOut
                  then await (RpcRead "getBalance" safeAddress)
                             (getBalance (w_provider w) safeAddress) RpcFailure
                  else await (RpcRead "balanceOf" (address tokenOut))
                             (erc20_balanceOf (w_provider w) (address tokenOut) safeAddress)
                             RpcFailure) ;;
            log (LInfo "Swap complete").

Definition run (args : Args) : Run unit := top_level (main args).
End Scripts.
End Clawlett.

(** ** The CoW Protocol script of [clawlett/scripts/swap.js] *)

Module Cow.
Import JsString.
Local Open Scope run_scope.

Definition WETH_ADDRESS : string := "0x4200000000000000000000000000000000000006".
Definition NATIVE_ETH : string := "0x0000000000000000000000000000000000000000".
Definition KIND_SELL : string :=
  "0xf3b277728b3fee749481eb3e0b3b48980dbbab78658fc419025cb16eee346775".
Definition KIND_BUY : string :=
  "0x6ed88e868af0a1983e3886d5f3e95a2fafbd6c3450bc229e27342283dc429ccc".
Definition BALANCE_ERC20 : string :=
  "0x5a28e9363bb942b639270062aa6bb295f434bcdfc42c97267bf003f272060dc9".

(** The fields of a resolved token that the script reads. *)
Record TokenDescriptor : Type := {
  address : string;
  symbol : string;
  decimals : Z;
  verified : bool;
  warning : option string;
}.

(** [quoteResponse.quote]; the amounts are decimal strings that the
    script reads with [BigInt(...)], kept as the integers they denote. *)
Record CowQuote : Type := {
  q_sellToken : string;
  q_buyToken : string;
  q_receiver : option string;
  q_sellAmount : Z;
  q_buyAmount : Z;
  q_feeAmount : Z;
  q_kind : string;
  q_partiallyFillable : option bool;
  q_sellTokenBalance : option string;
  q_buyTokenBalance : option string;
}.

Inductive PollReply : Type :=
| FetchRejects
| NotOk
| Status (status : string).

(** The auction service and the clock during polling. *)
Record PollWorld : Type := {
  pw_reply : nat -> PollReply;     (* the reply to the k-th status query *)
  pw_latency : nat -> N;           (* how long the k-th query takes, ms *)
  pw_lag : nat -> N;               (* how late the k-th timer fires, ms *)
}.

Record Services : Type := {
  (** [resolveToken] of [./tokens.js], a file that is not at hand. *)
  sv_resolve : string -> Result TokenDescriptor;
  (** [POST /api/v1/quote]: the HTTP ok flag and the quote. *)
  sv_quote : string -> string -> string -> Z -> option (bool * CowQuote);
  (** [keccak256] of the app-data document built for a slippage. *)
  sv_appDataHash : Z -> string;
  (** [POST /api/v1/orders]: the HTTP ok flag and the order uid. *)
  sv_orders : CowOrder -> option (bool * string);
  sv_poll : PollWorld;
}.

Record Args : Type := {
  from : option string;
  to : option string;
  amount : option string;
  execute : bool;
  timeout : option Z;              (* [None]: parseInt gave NaN *)
}.

(** Lines 687-693: the smart slippage in buy-token units. *)
Definition buySlippage (q : CowQuote) : Result Z :=
  (feeSlippage <~ BigInt.div (q_feeAmount q * 3) 2 ;;
   volumeSlippage <~ BigInt.div (q_sellAmount q * 5) 1000 ;;
   let totalSlippage := feeSlippage + volumeSlippage in
   if 0 <? q_sellAmount q
   then BigInt.div (totalSlippage * q_buyAmount q) (q_sellAmount q)
   else BigInt.div (q_buyAmount q * 5) 1000)%result.

(** Lines 1008-1013: the same computation for the summary. *)
Definition displayBuySlippage (sellAmount buyAmount feeAmount : Z) : Result Z :=
  (displayFeeSlippage <~ BigInt.div (feeAmount * 3) 2 ;;
   displayVolSlippage <~ BigInt.div (sellAmount * 5) 1000 ;;
   let displayTotalSlippage := displayFeeSlippage + displayVolSlippage in
   if 0 <? sellAmount
   then BigInt.div (displayTotalSlippage * buyAmount) sellAmount
   else BigInt.div (buyAmount * 5) 1000)%result.

Definition kindToBytes32 (kind : string) : Result string :=
  if String.eqb kind "sell" then Ok KIND_SELL
  else if String.eqb kind "buy" then Ok KIND_BUY
  else Raise (Error (MUnknownKind kind)).

Definition balanceToBytes32 (balance : string) : Result string :=
  if String.eqb balance "erc20" then Ok BALANCE_ERC20
  else Raise (Error (MUnknownBalance balance)).

(** [x || 1800] on the timeout: zero and NaN are falsy. *)
Definition timeout_or_default (t : option Z) : Z :=
  match t with
  | Some 0 | None => 1800
  | Some s => s
  end.

Definition pollInterval : Z := 5000.

Definition terminal (status : string) : bool :=
  String.eqb status "fulfilled" || String.eqb status "expired"
  || String.eqb status "cancelled".

(** The [while] loop of [pollOrderStatus]; [elapsed] is
    [Date.now() - startTime] at the loop test, [k] counts the queries
    made so far.  [None]: the fuel did not suffice. *)
Fixpoint poll_loop (fuel : nat) (pw : PollWorld) (orderUid : string)
         (timeoutMs elapsed : Z) (k : nat) {struct fuel} : option (Run string) :=
  if elapsed <? timeoutMs then
    match fuel with
    | O => None
    | S fuel' =>
        let next :=
          elapsed + Z.of_N (pw_latency pw k) + pollInterval + Z.of_N (pw_lag pw k) in
        match pw_reply pw k with
        | FetchRejects => Some ([OrderStatusGet orderUid], Throw NetworkFailure)
        | NotOk =>
            option_map (after [OrderStatusGet orderUid; Timer pollInterval])
                       (poll_loop fuel' pw orderUid timeoutMs next (S k))
        | Status status =>
            if terminal status
            then Some ([OrderStatusGet orderUid], Return status)
            else
              option_map (after [OrderStatusGet orderUid; Console (LPollStatus status);
                                 Timer pollInterval])
                         (poll_loop fuel' pw orderUid timeoutMs next (S k))
        end
    end
  else Some ([], Return "timeout").

(** Every pass of the loop takes at least [pollInterval]. *)
Definition poll_fuel (timeoutMs : Z) : nat := Z.to_nat (timeoutMs / pollInterval + 1).

(** [timeoutMs] is [None] when the caller's product is NaN: the loop
    test is then false at once.  The fuel never runs out
    ([poll_fuel_suffices]), so the last branch is not taken. *)
Definition pollOrderStatus (pw : PollWorld) (orderUid : string)
           (timeoutMs : option Z) : Run string :=
  match timeoutMs with
  | None => ret "timeout"
  | Some t =>
      match poll_loop (poll_fuel t) pw orderUid t 0 0 with
      | Some r => r
      | None => ret "timeout"
      end
  end.

Section Scripts.
Variable w : World.
Variable sv : Services.

Definition getCowQuote (sellToken buyToken : TokenDescriptor) (sellAmount : Z)
           (safeAddress : string) : Run CowQuote :=
  reply <- await (QuoteRequest (address sellToken) (address buyToken) sellAmount)
                 (sv_quote sv (address sellToken) (address buyToken) safeAddress sellAmount)
                 NetworkFailure ;;
  let '(ok, data) := reply in
  if negb ok then throw (Error MCowQuoteFailed) else ret data.

(** The PUT is best effort: its failure is swallowed. *)
Definition buildAppData (slippageBips : Z) : Run string :=
  let appDataHash := sv_appDataHash sv slippageBips in
  emit (AppDataPut appDataHash) ;;
  ret appDataHash.

(** The order document of lines 700-716. *)
Definition order_document (q : CowQuote) (safeAddress : string)
           (discountedBuyAmount validTo : Z) (appData : string) : CowOrder :=
  {| o_sellToken := q_sellToken q;
     o_buyToken := q_buyToken q;
     o_receiver := or_else (q_receiver q) safeAddress;
     o_sellAmount := q_sellAmount q;
     o_buyAmount := discountedBuyAmount;
     o_validTo := validTo;
     o_appData := appData;
     o_feeAmount := "0";
     o_kind := q_kind q;
     o_partiallyFillable :=
       match q_partiallyFillable q with Some b => b | None => false end;
     o_sellTokenBalance := or_else (q_sellTokenBalance q) "erc20";
     o_buyTokenBalance := or_else (q_buyTokenBalance q) "erc20";
     o_signingScheme := "presign";
     o_signature := safeAddress;
     o_from := safeAddress |}.

Definition submitCowOrder (q : CowQuote) (safeAddress : string)
           (timeoutSeconds : option Z) : Run (string * CowOrder) :=
  let validTo := w_now w / 1000 + timeout_or_default timeoutSeconds in
  slip <- lift (buySlippage q) ;;
  let discountedBuyAmount := q_buyAmount q - slip in
  slippageBips <- lift (BigInt.div (slip * 10000) (q_buyAmount q)) ;;
  appData <- buildAppData slippageBips ;;
  let order := order_document q safeAddress discountedBuyAmount validTo appData in
  reply <- await (OrderPost order) (sv_orders sv order) NetworkFailure ;;
  let '(ok, data) := reply in
  if negb ok then throw (Error MCowOrderFailed) else ret (data, order).

(** The struct of lines 1086-1099. *)
Definition order_struct (order : CowOrder) (safeAddress : string) : Result OrderStruct :=
  (kind <~ kindToBytes32 (o_kind order) ;;
   sellBalance <~ balanceToBytes32 (or_else (Some (o_sellTokenBalance order)) "erc20") ;;
   buyBalance <~ balanceToBytes32 (or_else (Some (o_buyTokenBalance order)) "erc20") ;;
   Ok {| s_sellToken := o_sellToken order;
         s_buyToken := o_buyToken order;
         s_receiver := or_else (Some (o_receiver order)) safeAddress;
         s_sellAmount := o_sellAmount order;
         s_buyAmount := o_buyAmount order;
         s_validTo := o_validTo order;
         s_appData := o_appData order;
         s_feeAmount := 0;
         s_kind := kind;
         s_partiallyFillable := o_partiallyFillable order;
         s_sellTokenBalance := sellBalance;
         s_buyTokenBalance := buyBalance |})%result.

(** The loop over [multiSendTxs]: each operation is sent on its own. *)
Fixpoint execute_all (cfg : Config) (txs : list (string * CallData)) : Run unit :=
  match txs with
  | [] => ret tt
  | (target, data) :: rest =>
      status <- send (w_chain w)
                     {| tx_to := target; tx_value := 0; tx_data := data;
                        tx_operation := 1; tx_roleKey := roleKey cfg;
                        tx_shouldRevert := true |} ;;
      if negb (status =? 1)
      then log (LFailure "Operation failed!") ;; exit 1
      else execute_all cfg rest
  end.

Definition resolve_or_exit (reference : string) : Run TokenDescriptor :=
  emit (RpcRead "resolveToken" reference) ;;
  try_catch (lift (sv_resolve sv reference)) (fun e => log (LError e) ;; exit 1).

(** [{ ...token, address: WETH_ADDRESS, symbol: 'WETH' }] for native ETH. *)
Definition substitute (t : TokenDescriptor) : TokenDescriptor * bool :=
  if String.eqb (toLowerCase (address t)) NATIVE_ETH
  then ({| address := WETH_ADDRESS; symbol := "WETH"; decimals := decimals t;
           verified := verified t; warning := warning t |}, true)
  else (t, false).

(** The 'Check balance' block: the balance found and the amount to wrap. *)
Definition check_balance (safeAddress : string) (tokenIn : TokenDescriptor)
           (ethSubstituted : bool) (amountIn : Z) : Run (Z * Z) :=
  if ethSubstituted && String.eqb (toLowerCase (address tokenIn)) (toLowerCase WETH_ADDRESS)
  then
    wethBalance <- await (RpcRead "balanceOf" WETH_ADDRESS)
                         (erc20_balanceOf (w_provider w) WETH_ADDRESS safeAddress)
                         RpcFailure ;;
    ethBalance <- await (RpcRead "getBalance" safeAddress)
                        (getBalance (w_provider w) safeAddress) RpcFailure ;;
    if amountIn <=? wethBalance then ret (wethBalance, 0)
    else if amountIn <=? wethBalance + ethBalance
    then log (LInfo "Will wrap ETH to WETH as part of the swap transaction") ;;
         ret (amountIn, amountIn - wethBalance)
    else log (LFailure "Insufficient ETH + WETH balance in Safe") ;; exit 1
  else
    balance <- await (RpcRead "balanceOf" (address tokenIn))
                     (erc20_balanceOf (w_provider w) (address tokenIn) safeAddress)
                     RpcFailure ;;
    if balance <? amountIn
    then log (LFailure "Insufficient balance in Safe") ;; exit 1
    else ret (balance, 0).

(** What the balance check compares with [amountIn]: the WETH and the
    native balance together when ETH was substituted, the token
    balance otherwise. *)
Definition funds (safeAddress : string) (tokenIn : TokenDescriptor)
           (ethSubstituted : bool) : option Z :=
  if ethSubstituted && String.eqb (toLowerCase (address tokenIn)) (toLowerCase WETH_ADDRESS)
  then
    match erc20_balanceOf (w_provider w) WETH_ADDRESS safeAddress,
          getBalance (w_provider w) safeAddress with
    | Some wethBalance, Some ethBalance => Some (wethBalance + ethBalance)
    | _, _ => None
    end
  else erc20_balanceOf (w_provider w) (address tokenIn) safeAddress.

(** Where [main] stands before the balance check. *)
Record Prepared : Type := {
  p_cfg : Config;
  p_tokenIn : TokenDescriptor;
  p_tokenOut : TokenDescriptor;
  p_ethSubstituted : bool;
  p_amountIn : Z;
}.

(** [main] up to the balance check. *)
Definition prepare (args : Args) : Run Prepared :=
  if falsy (from args) || falsy (to args) || falsy (amount args)
  then log (LFailure "Error: --from, --to, and --amount are required") ;; exit 1
  else
    let from_ := or_else (from args) "" in
    let to_ := or_else (to args) "" in
    let amount_ := or_else (amount args) "" in
    match w_config w with
    | None => log (LError (Error MConfigNotFound)) ;; exit 1
    | Some cfg =>
        tokenIn0 <- resolve_or_exit from_ ;;
        tokenOut0 <- resolve_or_exit to_ ;;
        let '(tokenIn, subIn) := substitute tokenIn0 in
        let '(tokenOut, subOut) := substitute tokenOut0 in
        match warning tokenIn with
        | Some (String _ _ as text) => log (LWarning text)
        | _ => ret tt
        end ;;
        match warning tokenOut with
        | Some (String _ _ as text) => log (LWarning text)
        | _ => ret tt
        end ;;
        amountIn <- lift (of_option (parseUnits (w_ethers w) amount_ (decimals tokenIn))
                                    LibraryError) ;;
        ret {| p_cfg := cfg; p_tokenIn := tokenIn; p_tokenOut := tokenOut;
               p_ethSubstituted := subIn || subOut; p_amountIn := amountIn |}
    end.

(** [main] after the balance check. *)
Definition trade (args : Args) (p : Prepared) (wrapAmount : Z) : Run unit :=
  let cfg := p_cfg p in
  let tokenIn := p_tokenIn p in
  let tokenOut := p_tokenOut p in
  let amountIn := p_amountIn p in
  let safeAddress := safe cfg in
  log (LInfo "Getting CoW Protocol quote...") ;;
  q <- try_catch (getCowQuote tokenIn tokenOut amountIn safeAddress)
                 (fun e => log (LError e) ;; exit 1) ;;
  let sellAmount := q_sellAmount q in
  let buyAmount := q_buyAmount q in
  let feeAmount := q_feeAmount q in
  slip <- lift (displayBuySlippage sellAmount buyAmount feeAmount) ;;
  let minReceive := buyAmount - slip in
  _ <- lift (BigInt.div (slip * 10000) buyAmount) ;;
  log (LSummary amountIn buyAmount minReceive) ;;
  if negb (execute args)
  then log LQuoteOnly ;; exit 0
  else
    if negb (w_agent_key w)
    then log (LFailure "Error: Agent private key not found") ;; exit 1
    else
      match zodiacHelpers cfg with
      | Some (String _ _ as zodiacHelpersAddress) =>
          so <- try_catch (submitCowOrder q safeAddress (timeout args))
                          (fun e => log (LError e) ;; exit 1) ;;
          let '(orderUid, order) := so in
          let wrap :=
            if 0 <? wrapAmount
            then [(zodiacHelpersAddress, WrapETH wrapAmount)] else [] in
          orderStruct <- lift (order_struct order safeAddress) ;;
          let multiSendTxs :=
            wrap ++ [(zodiacHelpersAddress, CowPreSign orderStruct orderUid)] in
          execute_all cfg multiSendTxs ;;
          status <- pollOrderStatus (sv_poll sv) orderUid
                                    (option_map (Z.mul 1000) (timeout args)) ;;
          if String.eqb status "fulfilled" then
            _ <- await (RpcRead "balanceOf" (address tokenOut))
                       (erc20_balanceOf (w_provider w) (address tokenOut) safeAddress)
                       RpcFailure ;;
            log (LInfo "SWAP COMPLETE")
          else if String.eqb status "expired" then
            log (LFailure "Order expired without being filled.") ;; exit 1
          else if String.eqb status "cancelled" then
            log (LFailure "Order was cancelled.") ;; exit 1
          else
            log (LFailure "Timed out. Order may still be filled.") ;; exit 1
      | _ =>
          log (LFailure "Error: ZodiacHelpers address not found in config.") ;;
          exit 1
      end.

Definition main (args : Args) : Run unit :=
  p <- prepare args ;;
  bw <- check_balance (safe (p_cfg p)) (p_tokenIn p) (p_ethSubstituted p) (p_amountIn p) ;;
  trade args p (snd bw).

Definition run (args : Args) : Run unit := top_level (main args).
End Scripts.

(** *** The command line (lines 799-852) *)

Definition DEFAULT_RPC_URL : string := "https://mainnet.base.org".

(** The object [parseArgs] returns: the options [main] reads from it,
    the slippage, and the two options that select the configuration
    directory and the provider.  [None] is [null] or [undefined]. *)
Record CommandLine : Type := {
  cl_args : Args;
  cl_slippage : JsNumber.Number;
  cl_configDir : option string;
  cl_rpc : option string;
}.

Definition set_from (v : option string) (r : CommandLine) : CommandLine :=
  {| cl_args := {| from := v; to := to (cl_args r); amount := amount (cl_args r);
                   execute := execute (cl_args r); timeout := timeout (cl_args r) |};
     cl_slippage := cl_slippage r;
     cl_configDir := cl_configDir r; cl_rpc := cl_rpc r |}.

Definition set_to (v : option string) (r : CommandLine) : CommandLine :=
  {| cl_args := {| from := from (cl_args r); to := v; amount := amount (cl_args r);
                   execute := execute (cl_args r); timeout := timeout (cl_args r) |};
     cl_slippage := cl_slippage r;
     cl_configDir := cl_configDir r; cl_rpc := cl_rpc r |}.

Definition set_amount (v : option string) (r : CommandLine) : CommandLine :=
  {| cl_args := {| from := from (cl_args r); to := to (cl_args r); amount := v;
                   execute := execute (cl_args r); timeout := timeout (cl_args r) |};
     cl_slippage := cl_slippage r;
     cl_configDir := cl_configDir r; cl_rpc := cl_rpc r |}.

Definition set_execute (r : CommandLine) : CommandLine :=
  {| cl_args := {| from := from (cl_args r); to := to (cl_args r);
                   amount := amount (cl_args r);
                   execute := true; timeout := timeout (cl_args r) |};
     cl_slippage := cl_slippage r;
     cl_configDir := cl_configDir r; cl_rpc := cl_rpc r |}.

Definition set_timeout (v : option Z) (r : CommandLine) : CommandLine :=
  {| cl_args := {| from := from (cl_args r); to := to (cl_args r);
                   amount := amount (cl_args r);
                   execute := execute (cl_args r); timeout := v |};
     cl_slippage := cl_slippage r;
     cl_configDir := cl_configDir r; cl_rpc := cl_rpc r |}.

Definition set_slippage (v : JsNumber.Number) (r : CommandLine) : CommandLine :=
  {| cl_args := cl_args r; cl_slippage := v;
     cl_configDir := cl_configDir r; cl_rpc := cl_rpc r |}.

Definition set_configDir (v : option string) (r : CommandLine) : CommandLine :=
  {| cl_args := cl_args r; cl_slippage := cl_slippage r;
     cl_configDir := v; cl_rpc := cl_rpc r |}.

Definition set_rpc (v : option string) (r : CommandLine) : CommandLine :=
  {| cl_args := cl_args r; cl_slippage := cl_slippage r;
     cl_configDir := cl_configDir r; cl_rpc := v |}.

(** [case long: case short:] of the [switch]. *)
Definition is_option (a long short : string) : bool :=
  String.eqb a long || String.eqb a short.

(** [printHelp] (lines 854-884): one [console.log] of the usage text. *)
Definition usage : string :=
  String.concat nl
    [ "";
      "Usage: node swap.js --from <TOKEN> --to <TOKEN> --amount <AMOUNT> [--execute]";
      "";
      "Swap tokens via CoW Protocol (MEV-protected).";
      "";
      "Arguments:";
      "  --from, -f       Token to swap from (symbol or address)";
      "  --to, -t         Token to swap to (symbol or address)";
      "  --amount, -a     Amount to swap";
      "  --slippage       Slippage 0-0.5 (default: 0.05 = 5%)";
      "  --execute, -x    Execute swap (default: quote only)";
      "  --timeout        Order timeout in seconds (default: 1800 = 30min)";
      "  --config-dir, -c Config directory";
      ("  --rpc, -r        RPC URL (default: " ++ DEFAULT_RPC_URL ++ ")")%string;
      "";
      "Notes:";
      "  - CoW Protocol only works with ERC20 tokens. ETH is auto-wrapped to WETH.";
      "  - Orders are MEV-protected (no sandwich attacks).";
      "";
      "Verified Tokens:";
      "  ETH, WETH, USDC, USDT, DAI, USDS, AERO, cbBTC, VIRTUAL, DEGEN, BRETT, TOSHI, WELL";
      "  Other tokens are searched via DexScreener (Base pairs).";
      "  Unverified tokens show a warning with contract address, volume, and liquidity.";
      "";
      "Examples:";
      "  node swap.js --from ETH --to USDC --amount 0.1";
      "  node swap.js --from USDC --to WETH --amount 100 --execute";
      "  node swap.js --from USDC --to DAI --amount 50 --execute --timeout 600";
      "" ].

Definition printHelp : Run unit := log (LInfo usage).

Section CommandLine.
(** [parseFloat] and [parseInt] on a string ([None]: NaN), and what the
    defaults are read from: the two environment variables and
    [path.join(__dirname, '..', 'config')]. *)
Variable parseFloat : string -> JsNumber.Number.
Variable parseInt : string -> option Z.
Variable env_WALLET_CONFIG_DIR : option string.
Variable env_BASE_RPC_URL : option string.
Variable default_config_dir : string.

Definition defaults : CommandLine :=
  {| cl_args := {| from := None; to := None; amount := None;
                   execute := false; timeout := Some 1800 |};
     cl_slippage := JsNumber.n0_05;
     cl_configDir := Some (or_else env_WALLET_CONFIG_DIR default_config_dir);
     cl_rpc := Some (or_else env_BASE_RPC_URL DEFAULT_RPC_URL) |}.

(** [parseFloat(args[++i])] and [parseInt(args[++i])]: [undefined]
    gives NaN. *)
Definition parseFloat_at (v : option string) : JsNumber.Number :=
  match v with
  | Some s => parseFloat s
  | None => S754_nan
  end.

Definition parseInt_at (v : option string) : option Z :=
  match v with
  | Some s => parseInt s
  | None => None
  end.

(** The [for] loop over [args], from position [i] on: [args] is what is
    left from [args[i]] on, [value] is [args[++i]] and [next] what is
    left once the value has been taken. *)
Fixpoint parse_from (args : list string) (result : CommandLine) {struct args}
  : Run CommandLine :=
  match args with
  | [] => ret result
  | a :: rest =>
      let value := hd_error rest in
      let next := match rest with [] => rest | _ :: r => r end in
      if is_option a "--from" "-f" then parse_from next (set_from value result)
      else if is_option a "--to" "-t" then parse_from next (set_to value result)
      else if is_option a "--amount" "-a" then parse_from next (set_amount value result)
      else if String.eqb a "--slippage"
      then parse_from next (set_slippage (parseFloat_at value) result)
      else if is_option a "--execute" "-x" then parse_from rest (set_execute result)
      else if String.eqb a "--timeout"
      then parse_from next (set_timeout (parseInt_at value) result)
      else if is_option a "--config-dir" "-c"
      then parse_from next (set_configDir value result)
      else if is_option a "--rpc" "-r" then parse_from next (set_rpc value result)
      else if is_option a "--help" "-h" then printHelp ;; exit 0
      else parse_from rest result
  end.

(** [argv] is [process.argv.slice(2)]. *)
Definition parseArgs (argv : list string) : Run CommandLine :=
  parse_from argv defaults.

(** The world and the services a command line selects, as found with
    the configuration directory and the RPC URL given.  Without a
    directory, [path.join] throws inside [loadConfig]: as when the file
    is missing, [main] reports the error and exits with code 1. *)
Variable world_of : string -> option string -> World.
Variable sv : Services.

Definition world_at (cl : CommandLine) : World :=
  match cl_configDir cl with
  | Some dir => world_of dir (cl_rpc cl)
  | None =>
      let w := world_of "" (cl_rpc cl) in
      {| w_ethers := w_ethers w; w_provider := w_provider w; w_config := None;
         w_quote_api := w_quote_api w; w_agent_key := w_agent_key w;
         w_chain := w_chain w; w_simulation := w_simulation w; w_now := w_now w |}
  end.

(** The script as it is started: [main] begins with [parseArgs()]. *)
Definition script (argv : list string) : Run unit :=
  top_level (cl <- parseArgs argv ;; main (world_at cl) sv (cl_args cl)).
End CommandLine.
End Cow.

(** ** Vocabulary of the properties *)

(** The slippage fractions the reworked script accepts: finite, in [0, 0.5]. *)
Definition slippage_in_range (s : JsNumber.Number) : bool :=
  JsNumber.isFinite s && JsNumber.leb JsNumber.n0 s && JsNumber.leb s JsNumber.n0_5.

(** Every event of a run satisfies [P]. *)
Definition all_events {A : Type} (P : Event -> bool) (r : Run A) : Prop :=
  forallb P (trace r) = true.

Definition harmless (e : Event) : bool := negb (state_changing e).

Definition is_summary (e : Event) : bool :=
  match e with
  | Console (LSummary _ _ _) => true
  | _ => false
  end.

(** Nothing but the quote-only notice follows the first summary. *)
Fixpoint ends_after_summary (t : list Event) : bool :=
  match t with
  | [] => true
  | Console (LSummary _ _ _) :: rest =>
      match rest with
      | [Console LQuoteOnly] => true
      | _ => false
      end
  | _ :: rest => ends_after_summary rest
  end.

(** A run that stops at the summary: no state-changing call anywhere, and
    once the summary is printed only the notice follows and the process
    ends with code 0. *)
Definition quote_only_run (r : Run unit) : Prop :=
  all_events harmless r /\
  forall pre post pay receive minReceive,
    trace r = pre ++ Console (LSummary pay receive minReceive) :: post ->
    post = [Console LQuoteOnly] /\ outcome r = Exit 0.

(** An order document or a presigned struct carries a zero fee. *)
Definition fee_free (e : Event) : bool :=
  match e with
  | OrderPost o => String.eqb (o_feeAmount o) "0"
  | Transact t =>
      match tx_data t with
      | CowPreSign st _ => s_feeAmount st =? 0
      | _ => true
      end
  | _ => true
  end.

Definition no_quote_request (e : Event) : bool := negb (is_quote_request e).

(** The integers 0 .. n-1. *)
Definition Z_range (n : Z) : list Z := map Z.of_nat (seq 0 (Z.to_nat n)).

(** [r] and [10000 - r] are computed without rounding. *)
Definition exact_below_5001 (r : Z) : bool :=
  match JsNumber.to_integer (JsNumber.of_Z r),
        JsNumber.to_integer (JsNumber.sub JsNumber.n10000 (JsNumber.of_Z r)) with
  | Some a, Some b => (a =? r) && (b =? 10000 - r)
  | _, _ => false
  end.

(** [100 - r] is computed without rounding. *)
Definition exact_percent (r : Z) : bool :=
  match JsNumber.to_integer (JsNumber.sub JsNumber.n100 (JsNumber.of_Z r)) with
  | Some b => b =? 100 - r
  | None => false
  end.

(** The two configurations of [ethValue] that make a quote unsafe. *)
Definition unsafe_value (p : Clawlett.QuotePayload) (quote : Clawlett.Quote) : bool :=
  let ethValue := BigInt.or_else (Clawlett.value quote) 0 in
  (negb (Clawlett.p_isETHIn p) && negb (ethValue =? 0))
  || (Clawlett.p_isETHIn p && (Clawlett.p_amountIn p <? ethValue)).

Definition is_unsafe_error (r : Result unit) : bool :=
  match r with
  | Raise (Error (MUnsafeErc20Value _)) | Raise (Error (MUnsafeEthValue _ _)) => true
  | _ => false
  end.

(** The protected symbols of the first script that survive upper-casing. *)
Definition upper_case_protected : list string :=
  [ "ETH"; "WETH"; "USDC"; "USDT"; "DAI"; "USDS"; "AERO" ].

(** The address is one of the registry's, compared case-insensitively. *)
Definition listed (a : string) : bool :=
  existsb (fun row => String.eqb (JsString.toLowerCase (snd row)) (JsString.toLowerCase a))
          ClawWallet.VERIFIED_TOKENS.

Definition listed_in (registry : list (string * Clawlett.RegistryEntry)) (a : string) : bool :=
  existsb (fun row => String.eqb (JsString.toLowerCase (Clawlett.e_address (snd row)))
                                 (JsString.toLowerCase a))
          registry.

Definition not_summary (e : Event) : bool := negb (is_summary e).

(** A run that prints the summary stops right after it. *)
Definition stops_after_summary (r : Run unit) : Prop :=
  ends_after_summary (trace r) = true /\
  (existsb is_summary (trace r) = true -> outcome r = Exit 0 \/ outcome r = Return tt).

(** The call data is no presignature, or presigns a zero fee. *)
Definition fee_free_data (d : CallData) : bool :=
  match d with
  | CowPreSign st _ => s_feeAmount st =? 0
  | _ => true
  end.

(** What [n] right shifts of the mantissa [M] leave: the quotient, and
    clear round and sticky bits when nothing was shifted out. *)
Definition shifted (M n : Z) (mrs : shr_record) : Prop :=
  shr_m mrs = M / 2 ^ n /\
  (M mod 2 ^ n = 0 -> shr_r mrs = false /\ shr_s mrs = false).

(** ** Vocabulary of the further properties *)

(** No [B]-event comes before the first [A]-event. *)
Fixpoint precedes (A B : Event -> bool) (t : list Event) : bool :=
  match t with
  | [] => true
  | e :: rest => A e || (negb (B e) && precedes A B rest)
  end.

Definition guarded {X : Type} (A B : Event -> bool) (r : Run X) : Prop :=
  precedes A B (trace r) = true.

Definition free_of (B : Event -> bool) (e : Event) : bool := negb (B e).

Definition is_order_post (e : Event) : bool :=
  match e with
  | OrderPost _ => true
  | _ => false
  end.

Definition is_app_data_put (e : Event) : bool :=
  match e with
  | AppDataPut _ => true
  | _ => false
  end.

Definition is_transaction (e : Event) : bool :=
  match e with
  | Transact _ => true
  | _ => false
  end.

(** A console line: the run reaches nothing outside the process. *)
Definition console_only (e : Event) : bool :=
  match e with
  | Console _ => true
  | _ => false
  end.


(** What the first script sends: an unlimited approval by delegatecall
    to the approval helper, or one of the three router swaps, paying out
    to the vault with a deadline 20 minutes ahead; always under the
    configured role key and with [shouldRevert] set; ETH is attached to
    [swapExactETHForTokens] only.  It posts no order and simulates
    nothing. *)
Definition wallet_transaction (w : World) (e : Event) : bool :=
  match e with
  | Transact t =>
      match w_config w with
      | None => false
      | Some cfg =>
          String.eqb (tx_roleKey t) (roleKey cfg) && tx_shouldRevert t &&
          match tx_data t with
          | ApproveForRouter _ amount =>
              String.eqb (tx_to t) ClawWallet.ApprovalHelper && (tx_operation t =? 1)
              && (tx_value t =? 0) && (amount =? MaxUint256)
          | SwapExactETHForTokens _ _ to deadline =>
              String.eqb (tx_to t) ClawWallet.AeroRouter && (tx_operation t =? 0)
              && String.eqb to (safe cfg) && (deadline =? w_now w / 1000 + 1200)
          | SwapExactTokensForETH _ _ _ to deadline
          | SwapExactTokensForTokens _ _ _ to deadline =>
              String.eqb (tx_to t) ClawWallet.AeroRouter && (tx_operation t =? 0)
              && (tx_value t =? 0)
              && String.eqb to (safe cfg) && (deadline =? w_now w / 1000 + 1200)
          | _ => false
          end
      end
  | Simulate _ | OrderPost _ | AppDataPut _ | OrderStatusGet _ | Timer _ => false
  | _ => true
  end.


(** What the CoW script sends and posts: delegatecalls without ETH to
    the ZodiacHelpers address of the configuration, under the configured
    role key and with [shouldRevert] set, that wrap a positive amount or
    presign an order; and order documents placed for the vault under the
    presign scheme. *)
Definition cow_call (w : World) (e : Event) : bool :=
  match e with
  | Transact t =>
      match w_config w with
      | None => false
      | Some cfg =>
          match zodiacHelpers cfg with
          | Some helper => String.eqb (tx_to t) helper
          | None => false
          end
          && (tx_operation t =? 1) && (tx_value t =? 0)
          && String.eqb (tx_roleKey t) (roleKey cfg) && tx_shouldRevert t &&
          match tx_data t with
          | WrapETH amount => 0 <? amount
          | CowPreSign _ _ => true
          | _ => false
          end
      end
  | OrderPost o =>
      match w_config w with
      | None => false
      | Some cfg =>
          String.eqb (o_from o) (safe cfg) && String.eqb (o_signature o) (safe cfg)
          && String.eqb (o_signingScheme o) "presign"
      end
  | Simulate _ => false
  | _ => true
  end.

(** A transaction picked by [sel] that the chain mined with status 1. *)
Definition mined (w : World) (sel : RoleTx -> bool) (e : Event) : bool :=
  match e with
  | Transact t =>
      sel t && match w_chain w t with
               | Some 1 => true
               | _ => false
               end
  | _ => false
  end.

Definition to_router (t : RoleTx) : bool := String.eqb (tx_to t) ClawWallet.AeroRouter.

Definition is_raw_call (t : RoleTx) : bool :=
  match tx_data t with
  | RawCalldata _ => true
  | _ => false
  end.

Definition is_presign (t : RoleTx) : bool :=
  match tx_data t with
  | CowPreSign _ _ => true
  | _ => false
  end.

(** A run that ends well (it returns, or exits with code 0) has an event
    that satisfies [Q]. *)
Definition on_success {X : Type} (Q : Event -> bool) (r : Run X) : Prop :=
  match outcome r with
  | Return _ | Exit 0 => existsb Q (trace r) = true
  | _ => True
  end.

Definition no_exit0 {X : Type} (r : Run X) : Prop := outcome r <> Exit 0.

(** The error is not the one [bad] picks. *)
Definition never_throws {X : Type} (bad : JsError -> bool) (r : Run X) : Prop :=
  match outcome r with
  | Throw e => bad e = false
  | _ => True
  end.

(** ... and so for a computation that may throw. *)
Definition result_avoids {X : Type} (bad : JsError -> bool) (r : Result X) : Prop :=
  match r with
  | Raise e => bad e = false
  | Ok _ => True
  end.

Definition is_swapCalldata_error (e : JsError) : bool :=
  match e with
  | Error (MHexData label) => String.eqb label "swapCalldata"
  | _ => false
  end.

(** The statuses [pollOrderStatus] can return. *)
Definition poll_result (status : string) : bool :=
  String.eqb status "fulfilled" || String.eqb status "expired"
  || String.eqb status "cancelled" || String.eqb status "timeout".

(** ... and the only way it can fail: a status request that rejects. *)
Definition poll_outcome (o : Outcome string) : bool :=
  match o with
  | Return status => poll_result status
  | Throw NetworkFailure => true
  | _ => false
  end.

Definition status_queries (t : list Event) : nat :=
  List.length (filter is_status_query t).

(** A status query for an order that polling reports as fulfilled. *)
Definition reported_fulfilled (pw : Cow.PollWorld) (timeoutMs : option Z) (e : Event) : bool :=
  match e with
  | OrderStatusGet orderUid =>
      match outcome (Cow.pollOrderStatus pw orderUid timeoutMs) with
      | Return status => String.eqb status "fulfilled"
      | _ => false
      end
  | _ => false
  end.

(** The contract at [a] has code. *)
Definition has_code (w : World) (a : string) : bool :=
  match getCode (w_provider w) a with
  | Some code => negb (String.eqb code "" || String.eqb code "0x")
  | None => false
  end.

(** The events of a run that stops in [preflight]'s chain test. *)
Definition before_chain_test (e : Event) : bool :=
  match e with
  | Console _ => true
  | RpcRead method _ => String.eqb method "getNetwork"
  | _ => false
  end.

(** [token.startsWith('0x') && token.length === 42] *)
Definition address_shaped (token : string) : bool :=
  JsString.startsWith token "0x" && (String.length token =? 42)%nat.

(** What is left of a command line when the option that sets the
    slippage is taken out of the picture. *)
Definition same_but_slippage (a b : Cow.CommandLine) : Prop :=
  Cow.cl_args a = Cow.cl_args b /\ Cow.cl_configDir a = Cow.cl_configDir b /\
  Cow.cl_rpc a = Cow.cl_rpc b.

(** What a command line leaves of [r] in [cl] unless an option is
    present in [args]. *)
Definition wallet_options (args : list string) (r cl : ClawWallet.CommandLine) : Prop :=
  (ClawWallet.execute (ClawWallet.cl_args cl) = true ->
   ClawWallet.execute (ClawWallet.cl_args r) = true \/ In "--execute" args \/ In "-x" args) /\
  (ClawWallet.from (ClawWallet.cl_args cl) = ClawWallet.from (ClawWallet.cl_args r)
   \/ In "--from" args \/ In "-f" args) /\
  (ClawWallet.to (ClawWallet.cl_args cl) = ClawWallet.to (ClawWallet.cl_args r)
   \/ In "--to" args \/ In "-t" args) /\
  (ClawWallet.amount (ClawWallet.cl_args cl) = ClawWallet.amount (ClawWallet.cl_args r)
   \/ In "--amount" args \/ In "-a" args).

Definition cow_options (args : list string) (r cl : Cow.CommandLine) : Prop :=
  (Cow.execute (Cow.cl_args cl) = true ->
   Cow.execute (Cow.cl_args r) = true \/ In "--execute" args \/ In "-x" args) /\
  (Cow.from (Cow.cl_args cl) = Cow.from (Cow.cl_args r)
   \/ In "--from" args \/ In "-f" args) /\
  (Cow.to (Cow.cl_args cl) = Cow.to (Cow.cl_args r)
   \/ In "--to" args \/ In "-t" args) /\
  (Cow.amount (Cow.cl_args cl) = Cow.amount (Cow.cl_args r)
   \/ In "--amount" args \/ In "-a" args).

(** One of the three required options is missing from the command line. *)
Definition lacks_required (argv : list string) : Prop :=
  (~ In "--from" argv /\ ~ In "-f" argv) \/
  (~ In "--to" argv /\ ~ In "-t" argv) \/
  (~ In "--amount" argv /\ ~ In "-a" argv).

(** An event agrees with the summary that showed [pay] as the amount
    paid and [minReceive] as the minimum received: a router swap pays
    [pay] and sets its minimum output to [minReceive], an order or a
    presigned struct buys [minReceive], a raw call carries no ETH or
    [pay]; and there is no second summary. *)
Definition as_shown (pay minReceive : Z) (e : Event) : bool :=
  match e with
  | Transact t =>
      match tx_data t with
      | SwapExactETHForTokens amountOutMin _ _ _ =>
          (tx_value t =? pay) && (amountOutMin =? minReceive)
      | SwapExactTokensForETH amountIn amountOutMin _ _ _
      | SwapExactTokensForTokens amountIn amountOutMin _ _ _ =>
          (amountIn =? pay) && (amountOutMin =? minReceive)
      | CowPreSign st _ => s_buyAmount st =? minReceive
      | RawCalldata _ => (tx_value t =? 0) || (tx_value t =? pay)
      | _ => true
      end
  | OrderPost o => o_buyAmount o =? minReceive
  | Console (LSummary _ _ _) => false
  | _ => true
  end.

(** Whatever follows the summary agrees with it. *)
Fixpoint executed_as_shown (t : list Event) : bool :=
  match t with
  | [] => true
  | Console (LSummary pay _ minReceive) :: rest => forallb (as_shown pay minReceive) rest
  | _ :: rest => executed_as_shown rest
  end.

Definition shown_run {X : Type} (r : Run X) : Prop := executed_as_shown (trace r) = true.

(** A quote request names no native ETH. *)
Definition quotes_erc20 (e : Event) : bool :=
  match e with
  | QuoteRequest tokenIn tokenOut _ =>
      negb (String.eqb (JsString.toLowerCase tokenIn) Cow.NATIVE_ETH)
      && negb (String.eqb (JsString.toLowerCase tokenOut) Cow.NATIVE_ETH)
  | _ => true
  end.

(** ** Sample inputs *)

Definition quote_1000 (supplied : option Z) : Clawlett.Quote :=
  {| Clawlett.amountOut := 1000; Clawlett.minAmountOut := supplied;
     Clawlett.calldata := Some "0x"; Clawlett.value := None |}.

Definition payload_erc20 (calldata : option string) (ethValue : Z) : Clawlett.QuotePayload :=
  {| Clawlett.p_quote :=
       Some {| Clawlett.amountOut := 1000; Clawlett.minAmountOut := None;
               Clawlett.calldata := calldata; Clawlett.value := Some ethValue |};
     Clawlett.p_amountIn := 1;
     Clawlett.p_safeAddress := "0x1111111111111111111111111111111111111111";
     Clawlett.p_isETHIn := false |}.

Definition quote_of (p : Clawlett.QuotePayload) : Clawlett.Quote :=
  match Clawlett.p_quote p with
  | Some q => q
  | None => {| Clawlett.amountOut := 0; Clawlett.minAmountOut := None;
               Clawlett.calldata := None; Clawlett.value := None |}
  end.

Definition payload_unsafe : Clawlett.QuotePayload := payload_erc20 (Some "0x3593564c") 5.
Definition payload_odd_hex : Clawlett.QuotePayload := payload_erc20 (Some "0x1") 5.

(** A world for examples: every token contract answers [symbol] and six
    decimals, the vault holds [native] wei and [erc20] units of every
    token, every allowance is [allowance], addresses are already in
    checksum form, every amount parses to [amountIn], the quote service
    answers [reply] and every transaction is mined with status 1. *)
Definition sample_provider (symbol : string) (native erc20 allowance : Z) : Provider :=
  {| chainId := 8453;
     getCode := fun _ => Some "0x60";
     getBalance := fun _ => Some native;
     erc20_symbol := fun _ => Some symbol;
     erc20_decimals := fun _ => Some 6;
     erc20_balanceOf := fun _ _ => Some erc20;
     erc20_allowance := fun _ _ _ => Some allowance |}.

Definition sample_ethers (amountIn : Z) : Ethers :=
  {| getAddress := fun a => Some a;
     parseUnits := fun _ _ => Some amountIn |}.

Definition sample_config : Config :=
  {| safe := "0x1111111111111111111111111111111111111111";
     roles := "0x2222222222222222222222222222222222222222";
     roleKey := "0x01";
     zodiacHelpers := Some "0xc235D2475E4424F277B53D19724E2453a8686C54" |}.

Definition sample_reply : QuoteReply :=
  {| http_ok := true; r_status := 200; r_error := None; r_quote := Some 1000;
     r_minAmountOut := None; r_calldata := Some "0x3593564c00"; r_path := [];
     r_isMultiHop := false |}.

Definition sample_world (symbol : string) (native erc20 allowance amountIn : Z) : World :=
  {| w_ethers := sample_ethers amountIn;
     w_provider := sample_provider symbol native erc20 allowance;
     w_config := Some sample_config;
     w_quote_api := fun _ _ _ => Some sample_reply;
     w_agent_key := true;
     w_chain := fun _ => Some 1;
     w_simulation := fun _ => true;
     w_now := 1700000000000 |}.

Definition DEGEN_address : string := "0x4ed4E862860beD51a9570b96d89aF5E1B0Efefed".
Definition impostor_address : string := "0x00000000000000000000000000000000DeaDBeef".

Definition world_usdc : World := sample_world "USDC" 100 100 0 5.
Definition world_cbBTC : World := sample_world "cbBTC" 100 100 0 5.
Definition USDC_address : string := "0x833589fCD6eDb6E08f4c7C32D4f71b54bdA02913".

Definition usdc_token : ClawWallet.TokenDescriptor :=
  {| ClawWallet.address := USDC_address; ClawWallet.symbol := "USDC";
     ClawWallet.decimals := 6; ClawWallet.verified := true;
     ClawWallet.warning := None |}.

Definition usdc_token' : Clawlett.TokenDescriptor :=
  {| Clawlett.address := USDC_address; Clawlett.symbol := "USDC";
     Clawlett.decimals := Some 6; Clawlett.verified := Some true;
     Clawlett.native := false; Clawlett.warning := None |}.

Definition approval_of (amount : Z) : RoleTx :=
  {| tx_to := Clawlett.ZodiacHelpers; tx_value := 0;
     tx_data := ApproveForRouter USDC_address amount; tx_operation := 1;
     tx_roleKey := "0x01"; tx_shouldRevert := true |}.

Definition approval_max : RoleTx :=
  {| tx_to := ClawWallet.ApprovalHelper; tx_value := 0;
     tx_data := ApproveForRouter USDC_address MaxUint256; tx_operation := 1;
     tx_roleKey := "0x01"; tx_shouldRevert := true |}.

Definition wallet_args (execute : bool) : ClawWallet.Args :=
  {| ClawWallet.from := Some "USDC"; ClawWallet.to := Some "DAI";
     ClawWallet.amount := Some "5"; ClawWallet.slippage := JsNumber.n1;
     ClawWallet.execute := execute |}.

Definition clawlett_args (execute : bool) (approveMode : string) : Clawlett.Args :=
  {| Clawlett.from := Some "USDT"; Clawlett.to := Some "DAI";
     Clawlett.amount := Some "5"; Clawlett.slippage := JsNumber.n0_05;
     Clawlett.execute := execute; Clawlett.approveMode := approveMode;
     Clawlett.revokeAfter := false; Clawlett.simulate := true |}.

Definition cow_args (from : string) (execute : bool) : Cow.Args :=
  {| Cow.from := Some from; Cow.to := Some "USDC"; Cow.amount := Some "5";
     Cow.execute := execute; Cow.timeout := Some 1800 |}.

Definition cow_token (address symbol : string) : Cow.TokenDescriptor :=
  {| Cow.address := address; Cow.symbol := symbol; Cow.decimals := 18;
     Cow.verified := true; Cow.warning := None |}.

Definition sample_cow_quote (fee : Z) : Cow.CowQuote :=
  {| Cow.q_sellToken := Cow.WETH_ADDRESS; Cow.q_buyToken := USDC_address;
     Cow.q_receiver := None; Cow.q_sellAmount := 1000000; Cow.q_buyAmount := 3500000;
     Cow.q_feeAmount := fee; Cow.q_kind := "sell"; Cow.q_partiallyFillable := None;
     Cow.q_sellTokenBalance := None; Cow.q_buyTokenBalance := None |}.

(** The first two status queries answer 'open', the third 'fulfilled';
    each query takes 120 ms and each timer fires 3 ms late. *)
Definition open_open_fulfilled : Cow.PollWorld :=
  {| Cow.pw_reply := fun k => match k with
                              | O | S O => Cow.Status "open"
                              | _ => Cow.Status "fulfilled"
                              end;
     Cow.pw_latency := fun _ => 120%N;
     Cow.pw_lag := fun _ => 3%N |}.

Definition sample_services : Cow.Services :=
  {| Cow.sv_resolve := fun reference =>
       if String.eqb reference "ETH" then Ok (cow_token Cow.NATIVE_ETH "ETH")
       else if String.eqb reference "DAI"
       then Ok (cow_token "0x50c5725949A6F0c72E6C4a641F24049A917DB0Cb" "DAI")
       else Ok (cow_token USDC_address "USDC");
     Cow.sv_quote := fun _ _ _ _ => Some (true, sample_cow_quote 4000);
     Cow.sv_appDataHash := fun _ => "0xa99da7a";
     Cow.sv_orders := fun _ => Some (true, "0x0rder");
     Cow.sv_poll := open_open_fulfilled |}.

(** The vault holds 3 wei and 3 units of every token; 5 are asked for. *)
Definition world_split : World := sample_world "WETH" 3 3 0 5.

(** The vault holds 1 wei and 2 units of every token; 5 are asked for. *)
Definition world_poor : World := sample_world "USDC" 1 2 0 5.

Definition poor_checked : ClawWallet.Checked :=
  {| ClawWallet.c_cfg := sample_config;
     ClawWallet.c_tokenIn := usdc_token;
     ClawWallet.c_tokenOut :=
       {| ClawWallet.address := "0x50c5725949A6F0c72E6C4a641F24049A917DB0Cb";
          ClawWallet.symbol := "USDC"; ClawWallet.decimals := 6;
          ClawWallet.verified := true; ClawWallet.warning := None |};
     ClawWallet.c_amountIn := 5;
     ClawWallet.c_balance := 2 |}.

Definition eth_prepared : Cow.Prepared :=
  {| Cow.p_cfg := sample_config;
     Cow.p_tokenIn := cow_token Cow.WETH_ADDRESS "WETH";
     Cow.p_tokenOut := cow_token USDC_address "USDC";
     Cow.p_ethSubstituted := true;
     Cow.p_amountIn := 5 |}.

(** The order the CoW script posts for [sample_cow_quote 4000]: the fee
    4000 is gone from the document and the buy amount is lowered by
    (4000*3/2 + 1000000*5/1000) * 3500000 / 1000000 = 38500. *)
Definition sample_order : CowOrder :=
  Cow.order_document (sample_cow_quote 4000) (safe sample_config)
                     (3500000 - 38500) (1700000000 + 1800) "0xa99da7a".

Definition sample_struct : OrderStruct :=
  {| s_sellToken := Cow.WETH_ADDRESS;
     s_buyToken := USDC_address;
     s_receiver := safe sample_config;
     s_sellAmount := 1000000;
     s_buyAmount := 3461500;
     s_validTo := 1700001800;
     s_appData := "0xa99da7a";
     s_feeAmount := 0;
     s_kind := Cow.KIND_SELL;
     s_partiallyFillable := false;
     s_sellTokenBalance := Cow.BALANCE_ERC20;
     s_buyTokenBalance := Cow.BALANCE_ERC20 |}.


(** A command line that asks for a quote, and one that lacks [--from]. *)
Definition sample_argv : list string :=
  ["--from"; "USDC"; "--to"; "DAI"; "--amount"; "5"].

Definition argv_without_from : list string := ["--to"; "DAI"; "--amount"; "5"].

(** The first script and the CoW script started in the sample world,
    whatever directory and RPC URL are chosen. *)
Definition wallet_script (argv : list string) : Run unit :=
  ClawWallet.script (fun _ => JsNumber.n1) None None "config" (fun _ _ => world_usdc) argv.

Definition cow_script (argv : list string) : Run unit :=
  Cow.script (fun _ => JsNumber.n0_05) (fun _ => Some 1800) None None "config"
             (fun _ _ => world_usdc) sample_services argv.

(** The sample world on chain 1. *)
Definition world_mainnet : World :=
  {| w_ethers := sample_ethers 5;
     w_provider :=
       {| chainId := 1;
          getCode := fun _ => Some "0x60";
          getBalance := fun _ => Some 100;
          erc20_symbol := fun _ => Some "USDC";
          erc20_decimals := fun _ => Some 6;
          erc20_balanceOf := fun _ _ => Some 100;
          erc20_allowance := fun _ _ _ => Some 0 |};
     w_config := Some sample_config;
     w_quote_api := fun _ _ _ => Some sample_reply;
     w_agent_key := true;
     w_chain := fun _ => Some 1;
     w_simulation := fun _ => true;
     w_now := 1700000000000 |}.

(** A quote that offers nothing, and services that answer with it. *)
Definition empty_quote : Cow.CowQuote :=
  {| Cow.q_sellToken := Cow.WETH_ADDRESS; Cow.q_buyToken := USDC_address;
     Cow.q_receiver := None; Cow.q_sellAmount := 1000000; Cow.q_buyAmount := 0;
     Cow.q_feeAmount := 4000; Cow.q_kind := "sell"; Cow.q_partiallyFillable := None;
     Cow.q_sellTokenBalance := None; Cow.q_buyTokenBalance := None |}.

Definition empty_quote_services : Cow.Services :=
  {| Cow.sv_resolve := Cow.sv_resolve sample_services;
     Cow.sv_quote := fun _ _ _ _ => Some (true, empty_quote);
     Cow.sv_appDataHash := Cow.sv_appDataHash sample_services;
     Cow.sv_orders := Cow.sv_orders sample_services;
     Cow.sv_poll := Cow.sv_poll sample_services |}.


(** * Properties *)

Module NumberFacts.
Import JsNumber.

Lemma digits2_pos_size (p : positive) : digits2_pos p = Pos.size p.
Proof. induction p; simpl; congruence. Qed.

Lemma digits2_pos_upper (p : positive) : Zpos p < 2 ^ Zpos (digits2_pos p).
Proof.
  rewrite digits2_pos_size.
  pose proof (Pos.size_gt p) as H.
  rewrite <- Pos2Z.inj_pow. apply Pos2Z.pos_lt_pos. exact H.
Qed.

Lemma digits2_pos_lower (p : positive) : 2 ^ Zpos (digits2_pos p) <= 2 * Zpos p.
Proof.
  rewrite digits2_pos_size.
  pose proof (Pos.size_le p) as H.
  rewrite <- Pos2Z.inj_pow.
  change (2 * Zpos p) with (Zpos (p~0)). apply Pos2Z.pos_le_pos. exact H.
Qed.

(** One right shift of a non-negative mantissa. *)
Lemma shr_1_spec (m : Z) (r s : bool) :
  0 <= m ->
  shr_1 (Build_shr_record m r s) = Build_shr_record (m / 2) (Z.odd m) (r || s).
Proof.
  intros Hm. destruct m as [|p|p]; [reflexivity| |lia].
  destruct p as [p|p|]; simpl shr_1.
  - f_equal. rewrite Pos2Z.inj_xI.
    replace (2 * Zpos p + 1) with (1 + Zpos p * 2) by lia.
    rewrite Z.div_add by lia. reflexivity.
  - f_equal. rewrite Pos2Z.inj_xO. rewrite Z.mul_comm, Z.div_mul by lia. reflexivity.
  - reflexivity.
Qed.

Section Shift.
Variable M : Z.
Hypothesis M_nonneg : 0 <= M.

Lemma shifted_step (n : Z) (mrs : shr_record) :
  0 <= n -> shifted M n mrs -> shifted M (n + 1) (shr_1 mrs).
Proof.
  intros Hn [Hm Hrs]. destruct mrs as [m r s]. simpl in Hm, Hrs.
  assert (Hpow : 0 < 2 ^ n) by (apply Z.pow_pos_nonneg; lia).
  assert (Hm0 : 0 <= m) by (subst m; apply Z.div_pos; lia).
  rewrite shr_1_spec by exact Hm0. split; simpl.
  - subst m. rewrite Z.pow_add_r, Z.pow_1_r by lia.
    rewrite Z.div_div by lia. reflexivity.
  - intros Hmod. rewrite Z.pow_add_r, Z.pow_1_r in Hmod by lia.
    assert (Hdiv : M = 2 ^ n * 2 * (M / (2 ^ n * 2))).
    { pose proof (Z.div_mod M (2 ^ n * 2)). lia. }
    assert (Hmod' : M mod 2 ^ n = 0).
    { rewrite Hdiv. rewrite <- Z.mul_assoc, Z.mul_comm. apply Z.mod_mul. lia. }
    destruct (Hrs Hmod') as [-> ->]. split; [|reflexivity].
    subst m. rewrite Hdiv. rewrite <- Z.mul_assoc, Z.mul_comm, Z.div_mul by lia.
    rewrite Z.odd_mul. reflexivity.
Qed.

Lemma shifted_iter (p : positive) :
  forall (n : Z) (mrs : shr_record),
    0 <= n -> shifted M n mrs -> shifted M (n + Zpos p) (iter_pos shr_1 p mrs).
Proof.
  induction p as [p IH|p IH|]; intros n mrs Hn H; simpl iter_pos.
  - replace (n + Zpos p~1) with (n + 1 + Zpos p + Zpos p) by lia.
    apply IH; [lia|]. apply IH; [lia|]. apply shifted_step; assumption.
  - replace (n + Zpos p~0) with (n + Zpos p + Zpos p) by lia.
    apply IH; [lia|]. apply IH; assumption.
  - apply shifted_step; assumption.
Qed.

Lemma shifted_0 : shifted M 0 (Build_shr_record M false false).
Proof. split; simpl; [rewrite Z.div_1_r; reflexivity | auto]. Qed.

(** [shr] by [k] places: the exponent moves by [max 0 k]. *)
Lemma shr_spec (E k : Z) :
  let '(mrs, e) := shr (Build_shr_record M false false) E k in
  e = E + Z.max 0 k /\ shifted M (Z.max 0 k) mrs.
Proof.
  destruct k as [|p|p]; simpl shr.
  - rewrite Z.add_0_r. split; [reflexivity | apply shifted_0].
  - replace (Z.max 0 (Zpos p)) with (Zpos p) by lia.
    split; [reflexivity|].
    apply (shifted_iter p 0 _ (Z.le_refl 0) shifted_0).
  - rewrite Z.add_0_r. split; [reflexivity | apply shifted_0].
Qed.

(** Rounding to nearest even after the shift gives at most the quotient
    rounded up. *)
Lemma round_shifted (n : Z) (mrs : shr_record) :
  shifted M n mrs ->
  let m1 := round_nearest_even (shr_m mrs) (loc_of_shr_record mrs) in
  M / 2 ^ n <= m1 <= M / 2 ^ n + 1 /\ (M mod 2 ^ n = 0 -> m1 = M / 2 ^ n).
Proof.
  intros [Hm Hrs]. destruct mrs as [m r s]. simpl in *. subst m. split.
  - destruct r, s; simpl; try lia; destruct (Z.even _); lia.
  - intros H0. destruct (Hrs H0) as [-> ->]. reflexivity.
Qed.
End Shift.

(** ** Rounding a product that does not exceed a small integer *)

Section RoundBound.
Variable B : Z.
Hypothesis B_pos : 0 < B.
Hypothesis B_small : B < 2 ^ 13.

Lemma fexp_small (x : Z) : x <= 13 -> fexp prec emax x <= -40.
Proof. unfold fexp, emin, prec, emax. lia. Qed.

Lemma digits_small (m e : Z) :
  0 <= m -> e < 0 -> m <= B * 2 ^ (- e) -> Zdigits2 m + e <= 13.
Proof.
  intros Hm He Hle. destruct m as [|p|p]; unfold Zdigits2; [lia| |lia].
  pose proof (digits2_pos_lower p) as Hlow.
  assert (Hpow : 0 < 2 ^ (- e)) by (apply Z.pow_pos_nonneg; lia).
  assert (Hlt : 2 ^ Zpos (digits2_pos p) < 2 ^ (14 - e)).
  { replace (14 - e) with (14 + - e) by lia.
    rewrite Z.pow_add_r by lia. change (2 ^ 14) with 16384.
    change (2 ^ 13) with 8192 in B_small.
    apply Z.le_lt_trans with (2 * (B * 2 ^ (- e))); [lia|].
    apply Z.lt_le_trans with (2 * (8192 * 2 ^ (- e))); [|lia].
    apply Z.mul_lt_mono_pos_l; [lia|].
    apply Z.mul_lt_mono_pos_r; lia. }
  apply Z.pow_lt_mono_r_iff in Hlt; lia.
Qed.

Lemma binary_round_aux_bound (M : positive) (E : Z) :
  E < 0 -> Zpos M <= B * 2 ^ (- E) ->
  match binary_round_aux prec emax false (Zpos M) E loc_Exact with
  | S754_zero _ => True
  | S754_finite false m e => e < 0 /\ Zpos m <= B * 2 ^ (- e)
  | _ => False
  end.
Proof.
  intros HE HM. unfold binary_round_aux, shr_fexp.
  simpl shr_record_of_loc.
  pose proof (digits_small (Zpos M) E (Pos2Z.is_nonneg M) HE HM) as Hd.
  pose proof (fexp_small _ Hd) as Hf.
  set (k := fexp prec emax (Zdigits2 (Zpos M) + E) - E) in *.
  pose proof (shr_spec (Zpos M) (Pos2Z.is_nonneg M) E k) as Hshr.
  destruct (shr _ E k) as [mrs e']. destruct Hshr as [He' Hsh].
  pose proof (round_shifted (Zpos M) _ _ Hsh) as [Hm1 Hex].
  set (m1 := round_nearest_even (shr_m mrs) (loc_of_shr_record mrs)) in *.
  set (k' := Z.max 0 k) in *.
  assert (He'neg : e' < 0) by lia.
  assert (Hk' : 0 <= k') by lia.
  assert (Hpk : 0 < 2 ^ k') by (apply Z.pow_pos_nonneg; lia).
  assert (HG : B * 2 ^ (- E) = B * 2 ^ (- e') * 2 ^ k').
  { rewrite <- Z.mul_assoc, <- Z.pow_add_r by lia. f_equal. f_equal. lia. }
  assert (Hm1G : 0 <= m1 <= B * 2 ^ (- e')).
  { assert (Hq0 : 0 <= Zpos M / 2 ^ k') by (apply Z.div_pos; lia).
    split; [lia|].
    assert (Hq : Zpos M / 2 ^ k' <= B * 2 ^ (- e')).
    { apply Z.div_le_upper_bound; [lia|]. rewrite HG in HM. lia. }
    destruct (Z.eq_dec (Zpos M mod 2 ^ k') 0) as [H0|Hn0].
    - rewrite (Hex H0). exact Hq.
    - assert (Hne : 2 ^ k' <> 0) by lia.
      pose proof (Z.div_mod (Zpos M) (2 ^ k') Hne).
      pose proof (Z.mod_pos_bound (Zpos M) (2 ^ k') Hpk).
      rewrite HG in HM. nia. }
  pose proof (digits_small m1 e' (proj1 Hm1G) He'neg (proj2 Hm1G)) as Hd2.
  pose proof (fexp_small _ Hd2) as Hf2.
  set (k2 := fexp prec emax (Zdigits2 m1 + e') - e') in *.
  pose proof (shr_spec m1 (proj1 Hm1G) e' k2) as Hshr2.
  destruct (shr _ e' k2) as [mrs2 e'']. destruct Hshr2 as [He'' [Hm2 _]].
  set (k2' := Z.max 0 k2) in *.
  assert (He''neg : e'' < 0) by lia.
  assert (Hpk2 : 0 < 2 ^ k2') by (apply Z.pow_pos_nonneg; lia).
  assert (Hm2G : 0 <= shr_m mrs2 <= B * 2 ^ (- e'')).
  { rewrite Hm2. split; [apply Z.div_pos; lia|].
    apply Z.div_le_upper_bound; [lia|].
    replace (2 ^ k2' * (B * 2 ^ (- e''))) with (B * 2 ^ (- e')); [lia|].
    replace (- e') with (- e'' + k2') by lia.
    rewrite Z.pow_add_r by lia. ring. }
  destruct (shr_m mrs2) as [|m|m]; [exact I| |lia].
  replace (e'' <=? emax - prec) with true
    by (symmetry; apply Z.leb_le; unfold emax, prec; lia).
  split; [exact He''neg | lia].
Qed.
End RoundBound.

Lemma SFcompare_antisym (x y : spec_float) :
  SFcompare y x = option_map CompOpp (SFcompare x y).
Proof.
  destruct x as [sx|sx| |sx mx ex], y as [sy|sy| |sy my ey]; simpl;
    try reflexivity;
    try (destruct sx; reflexivity); try (destruct sy; reflexivity);
    try (destruct sx, sy; reflexivity).
  assert (Hm : Pos.compare_cont Eq my mx = CompOpp (Pos.compare_cont Eq mx my)).
  { rewrite Pos.compare_cont_antisym. reflexivity. }
  destruct sx, sy; try reflexivity;
    rewrite (Z.compare_antisym ex ey);
    destruct (ex ?= ey); simpl; try reflexivity;
    rewrite Hm; destruct (Pos.compare_cont Eq mx my); reflexivity.
Qed.

Lemma SFleb_negb_ltb (x y : spec_float) :
  SFcompare x y <> None -> SFleb x y = negb (SFltb y x).
Proof.
  unfold SFleb, SFltb. rewrite (SFcompare_antisym x y).
  destruct (SFcompare x y) as [[]|]; simpl; congruence.
Qed.

Lemma n10000_eq : n10000 = S754_finite false 5497558138880000 (-39).
Proof. vm_compute. reflexivity. Qed.

(** A valid finite number is compared by value. *)
Lemma finite_compare (x y : Number) :
  isFinite x = true -> isFinite y = true -> SFcompare x y <> None.
Proof.
  destruct x, y; simpl; intros; try discriminate.
Qed.

Lemma leb_negb_ltb (x y : Number) :
  isFinite x = true -> isFinite y = true -> leb x y = negb (ltb y x).
Proof.
  intros Hx Hy. apply SFleb_negb_ltb. apply finite_compare; assumption.
Qed.

(** A valid number that is at most one half: twice its mantissa stays
    below the weight of its exponent. *)
Lemma at_most_half (m : positive) (e : Z) :
  valid (S754_finite false m e) = true ->
  leb (S754_finite false m e) n0_5 = true ->
  e <= -53 /\ 2 * Zpos m <= 2 ^ (- e).
Proof.
  unfold valid, valid_binary, bounded, canonical_mantissa, fexp, emin, prec, emax.
  intros Hv Hle. apply andb_true_iff in Hv. destruct Hv as [Hc _].
  apply Z.eqb_eq in Hc.
  pose proof (digits2_pos_upper m) as Hup.
  unfold leb, SFleb, n0_5, SFcompare in Hle.
  destruct (Z.compare_spec e (-53)) as [He|He|He]; try discriminate.
  - subst e. split; [lia|]. change (2 ^ (- -53)) with (2 * 4503599627370496).
    destruct (Pos.compare_cont Eq m 4503599627370496) eqn:Hm; try discriminate.
    + apply Pos.compare_eq in Hm. subst m. reflexivity.
    + apply Pos2Z.pos_lt_pos in Hm. lia.
  - split; [lia|].
    assert (Hd : Zpos (digits2_pos m) <= 53) by lia.
    assert (Hp : 2 ^ Zpos (digits2_pos m) <= 2 ^ 53)
      by (apply Z.pow_le_mono_r; lia).
    assert (Hq : 2 ^ 54 <= 2 ^ (- e)) by (apply Z.pow_le_mono_r; lia).
    change (2 ^ 54) with (2 * 2 ^ 53) in Hq. lia.
Qed.

(** The product of an accepted slippage with 10000 is zero or a finite
    number of at most 5000. *)
Lemma mul_n10000_shape (s : Number) :
  valid s = true -> slippage_in_range s = true ->
  match mul s n10000 with
  | S754_zero _ => True
  | S754_finite false m e => e < 0 /\ Zpos m <= 5000 * 2 ^ (- e)
  | _ => False
  end.
Proof.
  intros Hv Hr. unfold slippage_in_range in Hr.
  apply andb_true_iff in Hr. destruct Hr as [Hr Hhalf].
  apply andb_true_iff in Hr. destruct Hr as [Hfin Hpos].
  rewrite n10000_eq. destruct s as [b|b| |sg m e]; try discriminate.
  - simpl. exact I.
  - destruct sg; [discriminate|].
    destruct (at_most_half m e Hv Hhalf) as [He Hm].
    unfold mul, SFmul. simpl xorb.
    apply (binary_round_aux_bound 5000); try lia.
    replace (- (e + -39)) with (- e + 39) by lia.
    rewrite Z.pow_add_r by lia.
    rewrite Pos2Z.inj_mul.
    change (Zpos 5497558138880000) with (10000 * 2 ^ 39).
    assert (H39 : 0 < 2 ^ 39) by reflexivity.
    assert (Hpe : 0 < 2 ^ (- e)) by (apply Z.pow_pos_nonneg; lia).
    nia.
Qed.

Lemma nearest_int_bound (s : Number) :
  valid s = true -> slippage_in_range s = true ->
  isFinite (mul s n10000) = true /\ 0 <= nearest_int (mul s n10000) <= 5000.
Proof.
  intros Hv Hr. pose proof (mul_n10000_shape s Hv Hr) as H.
  destruct (mul s n10000) as [b|b| |sg m e]; try contradiction.
  - simpl. split; [reflexivity | lia].
  - destruct sg; [contradiction|]. destruct H as [He Hm].
    split; [reflexivity|].
    destruct e as [|e|n]; try lia. unfold nearest_int, mantissa.
    replace (- Zneg n) with (Zpos n) in Hm by reflexivity.
    assert (Hp : 0 < 2 ^ Zpos n) by (apply Z.pow_pos_nonneg; lia).
    rewrite Z.pow_add_r by lia. rewrite Z.pow_1_r.
    split.
    + apply Z.div_pos; lia.
    + assert (Hlt : (2 * Zpos m + 2 ^ Zpos n) / (2 ^ Zpos n * 2) < 5001).
      { apply Z.div_lt_upper_bound; lia. }
      lia.
Qed.

(** Below 5001 the integral numbers and [10000 - x] are exact. *)
Lemma exact_below_5001_all : forallb exact_below_5001 (Z_range 5001) = true.
Proof. vm_compute. reflexivity. Qed.

Lemma Z_range_In (n z : Z) : 0 <= z < n -> In z (Z_range n).
Proof.
  intros H. unfold Z_range. apply in_map_iff. exists (Z.to_nat z).
  split; [lia|]. apply in_seq. lia.
Qed.

Lemma bps_exact (r : Z) :
  0 <= r <= 5000 ->
  to_integer (of_Z r) = Some r /\
  to_integer (sub n10000 (of_Z r)) = Some (10000 - r).
Proof.
  intros H.
  pose proof (proj1 (forallb_forall _ _) exact_below_5001_all r) as Hall.
  assert (Hin : In r (Z_range 5001)) by (apply Z_range_In; lia).
  specialize (Hall Hin). unfold exact_below_5001 in Hall.
  destruct (to_integer (of_Z r)) as [a|]; [|discriminate].
  destruct (to_integer (sub n10000 (of_Z r))) as [b|]; [|discriminate].
  apply andb_true_iff in Hall. destruct Hall as [Ha Hb].
  apply Z.eqb_eq in Ha, Hb. subst. split; reflexivity.
Qed.

Lemma exact_percent_all : forallb exact_percent (Z_range 101) = true.
Proof. vm_compute. reflexivity. Qed.

Lemma percent_exact (r : Z) :
  0 <= r <= 100 -> to_integer (sub n100 (of_Z r)) = Some (100 - r).
Proof.
  intros H.
  pose proof (proj1 (forallb_forall _ _) exact_percent_all r) as Hall.
  assert (Hin : In r (Z_range 101)) by (apply Z_range_In; lia).
  specialize (Hall Hin). unfold exact_percent in Hall.
  destruct (to_integer (sub n100 (of_Z r))) as [b|]; [|discriminate].
  apply Z.eqb_eq in Hall. subst. reflexivity.
Qed.
End NumberFacts.

(** ** Minimum output *)

Section MinimumOutput.
Import JsNumber NumberFacts.

Lemma parseSlippageBps_accepts (s : Number) :
  valid s = true -> slippage_in_range s = true ->
  Clawlett.parseSlippageBps s = Ok (of_Z (nearest_int (mul s n10000))).
Proof.
  intros Hv Hr. destruct (nearest_int_bound s Hv Hr) as [Hfin _].
  unfold slippage_in_range in Hr.
  apply andb_true_iff in Hr. destruct Hr as [Hr Hhalf].
  apply andb_true_iff in Hr. destruct Hr as [Hs Hpos].
  unfold Clawlett.parseSlippageBps. rewrite Hs. cbn [negb].
  rewrite (leb_negb_ltb n0 s eq_refl Hs) in Hpos.
  rewrite (leb_negb_ltb s n0_5 Hs eq_refl) in Hhalf.
  apply negb_true_iff in Hpos, Hhalf. rewrite Hpos, Hhalf. cbn [orb].
  unfold Math_round. rewrite Hfin. reflexivity.
Qed.

Lemma parseSlippageBps_rejects (s : Number) :
  slippage_in_range s = false ->
  Clawlett.parseSlippageBps s = Raise (Error MInvalidSlippage) \/
  Clawlett.parseSlippageBps s = Raise (Error MSlippageRange).
Proof.
  intros Hr. unfold Clawlett.parseSlippageBps.
  destruct (isFinite s) eqn:Hs; [right | left; reflexivity]. cbn [negb].
  unfold slippage_in_range in Hr. rewrite Hs in Hr. cbn [andb] in Hr.
  rewrite (leb_negb_ltb n0 s eq_refl Hs) in Hr.
  rewrite (leb_negb_ltb s n0_5 Hs eq_refl) in Hr.
  destruct (ltb s n0); [reflexivity|]. destruct (ltb n0_5 s); [reflexivity|].
  discriminate.
Qed.

(** C1 (amended).  In the reworked script, for every slippage fraction
    [s] that is finite and lies in [0, 0.5], [parseSlippageBps] returns
    the integer nearest to the binary64 product [s * 10000], which lies
    in [0, 5000]; with that value, the minimum output of a quote that
    brings no minimum of its own (none, or zero) is
    [amountOut * (10000 - bps) / 10000], truncated, and a quote's own
    non-zero minimum is taken as it is.  Every other [s] makes
    [parseSlippageBps] throw.  The first script takes a percentage
    instead, without a range check: for a whole percentage [p] in
    [0, 100] its minimum output is [amountOut * (100 - p) / 100]. *)
Theorem C1_minimum_output :
  (forall (s : Number) (quote : Clawlett.Quote),
      valid s = true ->
      (slippage_in_range s = true ->
       exists bps : Number,
         Clawlett.parseSlippageBps s = Ok bps /\
         to_integer bps = Some (nearest_int (mul s n10000)) /\
         0 <= nearest_int (mul s n10000) <= 5000 /\
         Clawlett.minAmountOut_of quote bps =
           Ok (match Clawlett.minAmountOut quote with
               | Some 0 | None =>
                   Z.quot (Clawlett.amountOut quote
                           * (10000 - nearest_int (mul s n10000))) 10000
               | Some supplied => supplied
               end)) /\
      (slippage_in_range s = false ->
       Clawlett.parseSlippageBps s = Raise (Error MInvalidSlippage) \/
       Clawlett.parseSlippageBps s = Raise (Error MSlippageRange))) /\
  (forall amountOut p : Z,
      0 <= p <= 100 ->
      ClawWallet.minAmountOut_of amountOut (of_Z p)
      = Ok (Z.quot (amountOut * (100 - p)) 100)).
Proof.
  split.
  - intros s quote Hv. split.
    + intros Hr. exists (of_Z (nearest_int (mul s n10000))).
      destruct (nearest_int_bound s Hv Hr) as [_ Hb].
      destruct (bps_exact _ Hb) as [Hint Hsub].
      split; [apply parseSlippageBps_accepts; assumption|].
      split; [exact Hint|]. split; [exact Hb|].
      unfold Clawlett.minAmountOut_of, BigInt.of_Number. rewrite Hsub.
      destruct (Clawlett.minAmountOut quote) as [[|v|v]|]; reflexivity.
    + apply parseSlippageBps_rejects.
  - intros amountOut p Hp.
    unfold ClawWallet.minAmountOut_of, BigInt.of_Number.
    rewrite (percent_exact p Hp). reflexivity.
Qed.

Lemma C1_minimum_output_witness :
  valid n0_05 = true /\ slippage_in_range n0_05 = true /\
  (exists bps : Number,
      Clawlett.parseSlippageBps n0_05 = Ok bps /\
      to_integer bps = Some 500 /\
      Clawlett.minAmountOut_of (quote_1000 None) bps = Ok 950) /\
  0 <= 1 <= 100 /\
  ClawWallet.minAmountOut_of 1000 (of_Z 1) = Ok 990.
Proof.
  split; [reflexivity|]. split; [reflexivity|]. split.
  - destruct (proj1 (proj1 C1_minimum_output n0_05 (quote_1000 None) eq_refl) eq_refl)
      as (bps & Hp & Hi & _ & Hm).
    exists bps. split; [exact Hp|]. split; [exact Hi | exact Hm].
  - split; [lia|]. apply (proj2 C1_minimum_output 1000 1). lia.
Defined.

(** C1 as stated fails: at [s = 0.05] a quote that brings its own
    minimum 900 gets 900 and not 1000 * 9500 / 10000 = 950; and the
    first script returns 990 for the slippage 1, which lies outside
    [0, 0.5], while it throws a RangeError for 0.05, which lies inside. *)
Lemma C1_counterexample :
  (slippage_in_range n0_05 = true /\
   exists bps : Number,
     Clawlett.parseSlippageBps n0_05 = Ok bps /\
     to_integer bps = Some 500 /\
     Clawlett.minAmountOut_of (quote_1000 (Some 900)) bps = Ok 900 /\
     900 <> Z.quot (1000 * (10000 - 500)) 10000) /\
  (slippage_in_range n1 = false /\
   ClawWallet.minAmountOut_of 1000 n1 = Ok 990) /\
  ClawWallet.minAmountOut_of 1000 n0_05 = Raise RangeError.
Proof.
  split; [split; [reflexivity|] | split; [split|]].
  - exists (of_Z 500). repeat split; try reflexivity. discriminate.
  - reflexivity.
  - reflexivity.
  - reflexivity.
Qed.
End MinimumOutput.

(** ** Quote validation *)

Section QuoteValidation.
Variable recipient_rejected : Clawlett.Quote -> string -> bool.

Let validate := Clawlett.validateQuotePayload recipient_rejected.

(** C2 (amended).  For every payload that carries a quote: when the
    quote's ethValue is non-zero for a non-native input, or exceeds
    amountIn for a native input, validation throws; the error thrown is
    the unsafe-quote error whenever the quote's calldata is well-formed
    hex data (that check comes first and throws its own error
    otherwise); and in every other ethValue configuration the error, if
    any, is not an unsafe-quote error. *)
Theorem C2_quote_validation (p : Clawlett.QuotePayload) (quote : Clawlett.Quote) :
  Clawlett.p_quote p = Some quote ->
  let ethValue := BigInt.or_else (Clawlett.value quote) 0 in
  (unsafe_value p quote = true -> exists e, validate p = Raise e) /\
  (Clawlett.requireHexData (Clawlett.calldata quote) "quote.calldata" = Ok tt ->
   (Clawlett.p_isETHIn p = false -> ethValue <> 0 ->
    validate p = Raise (Error (MUnsafeErc20Value ethValue))) /\
   (Clawlett.p_isETHIn p = true -> Clawlett.p_amountIn p < ethValue ->
    validate p = Raise (Error (MUnsafeEthValue ethValue (Clawlett.p_amountIn p))))) /\
  (unsafe_value p quote = false -> is_unsafe_error (validate p) = false).
Proof.
  intros Hq ethValue. unfold validate, Clawlett.validateQuotePayload, unsafe_value.
  rewrite Hq. fold ethValue.
  destruct (Clawlett.requireHexData (Clawlett.calldata quote) "quote.calldata")
    as [[]|e] eqn:Hhex; cbn [rbind].
  - split; [|split].
    + intros Hu. apply orb_true_iff in Hu. destruct Hu as [Hu|Hu].
      * rewrite Hu. eexists. reflexivity.
      * destruct (negb (Clawlett.p_isETHIn p) && negb (ethValue =? 0));
          [eexists; reflexivity|]. rewrite Hu. eexists. reflexivity.
    + intros _. split.
      * intros Hn Hv. rewrite Hn. cbn [negb andb].
        apply Z.eqb_neq in Hv. rewrite Hv. reflexivity.
      * intros Hn Hv. rewrite Hn. cbn [negb andb].
        apply Z.ltb_lt in Hv. rewrite Hv. reflexivity.
    + intros Hu. apply orb_false_iff in Hu. destruct Hu as [-> ->].
      destruct (recipient_rejected quote (Clawlett.p_safeAddress p)); reflexivity.
  - split; [|split].
    + intros _. exists e. reflexivity.
    + intros H. discriminate H.
    + intros _. unfold Clawlett.requireHexData in Hhex.
      destruct (Clawlett.calldata quote) as [d|].
      * destruct (_ || _) in Hhex; inversion Hhex. reflexivity.
      * inversion Hhex. reflexivity.
Qed.
End QuoteValidation.

Lemma C2_quote_validation_witness :
  Clawlett.p_quote payload_unsafe = Some (quote_of payload_unsafe) /\
  unsafe_value payload_unsafe (quote_of payload_unsafe) = true /\
  Clawlett.requireHexData (Clawlett.calldata (quote_of payload_unsafe)) "quote.calldata"
  = Ok tt /\
  Clawlett.p_isETHIn payload_unsafe = false /\ 5 <> 0 /\
  Clawlett.validateQuotePayload (fun _ _ => false) payload_unsafe
  = Raise (Error (MUnsafeErc20Value 5)).
Proof.
  set (p := payload_unsafe). split; [reflexivity|]. split; [reflexivity|]. split; [reflexivity|].
  split; [reflexivity|]. split; [discriminate|].
  apply (proj1 (proj1 (proj2 (C2_quote_validation (fun _ _ => false) p (quote_of p) eq_refl))
                      eq_refl));
    [reflexivity | discriminate].
Defined.

(** C2 as stated fails: a quote for a non-native input with ethValue 5
    and calldata of odd length is rejected with the hex-data error, not
    with an unsafe-quote error. *)
Lemma C2_counterexample :
  unsafe_value payload_odd_hex (quote_of payload_odd_hex) = true /\
  Clawlett.validateQuotePayload (fun _ _ => false) payload_odd_hex
  = Raise (Error (MHexData "quote.calldata")) /\
  is_unsafe_error (Clawlett.validateQuotePayload (fun _ _ => false) payload_odd_hex) = false.
Proof. repeat split. Qed.

(** ** Token resolution *)

Section TokenResolution.
Import JsString.

Lemma lookup_In {V : Type} (k : string) (t : list (string * V)) (v : V) :
  lookup k t = Some v -> In (k, v) t.
Proof.
  induction t as [|[k' v'] t IH]; simpl; [discriminate|].
  destruct (String.eqb_spec k k') as [->|Hne].
  - intros H. inversion H. left. reflexivity.
  - intros H. right. apply IH. exact H.
Qed.

Lemma existsb_eqb_In (s : string) (l : list string) :
  existsb (String.eqb s) l = true <-> In s l.
Proof.
  rewrite existsb_exists. split.
  - intros (x & Hin & Heq). apply String.eqb_eq in Heq. subst. exact Hin.
  - intros Hin. exists s. split; [exact Hin | apply String.eqb_refl].
Qed.

(** C3 (the failing input).  'cbBTC' is a protected symbol with a
    verified address, yet resolving it as a symbol throws: the
    reference is upper-cased to 'CBBTC', which is neither a key of the
    registry nor a member of the protected list. *)
Theorem C3_cbBTC_not_resolved (w : World) :
  In "cbBTC" ClawWallet.PROTECTED_SYMBOLS /\
  lookup "cbBTC" ClawWallet.VERIFIED_TOKENS
  = Some "0xcbB7C0000aB88B473b1f5aFd9ef808440eed33Bf" /\
  ClawWallet.resolveToken w "cbBTC" = ([], Throw (Error (MTokenNotFound "CBBTC"))).
Proof.
  split; [simpl; tauto|]. split; reflexivity.
Qed.

Lemma resolveToken_protected_eq (w : World) (S addr : string) :
  In S upper_case_protected ->
  lookup S ClawWallet.VERIFIED_TOKENS = Some addr ->
  ClawWallet.resolveToken w S
  = bind (ClawWallet.read_metadata w addr)
         (fun sd => let '(onChainSymbol, decimals) := sd in
                    ret {| ClawWallet.address := addr;
                           ClawWallet.symbol := onChainSymbol;
                           ClawWallet.decimals := decimals;
                           ClawWallet.verified := true;
                           ClawWallet.warning := None |}).
Proof.
  intros Hin Hl. unfold upper_case_protected in Hin. simpl in Hin.
  repeat (destruct Hin as [<-|Hin];
          [cbv in Hl; inversion Hl; subst addr; reflexivity |]).
  contradiction.
Qed.

(** The other protected symbols resolve to their registry address
    whenever the two metadata reads succeed. *)
Lemma resolveToken_protected (w : World) (S addr : string) :
  In S upper_case_protected ->
  lookup S ClawWallet.VERIFIED_TOKENS = Some addr ->
  match outcome (ClawWallet.resolveToken w S) with
  | Return d => ClawWallet.address d = addr /\ ClawWallet.verified d = true
  | Throw e => e = RpcFailure
  | Exit _ => False
  end.
Proof.
  intros Hin Hl. rewrite (resolveToken_protected_eq w S addr Hin Hl).
  unfold ClawWallet.read_metadata, bind, outcome. cbn.
  destruct (erc20_symbol (w_provider w) addr);
    destruct (erc20_decimals (w_provider w) addr); cbn; auto.
Qed.

(** Resolving the verified address of any registry symbol, 'cbBTC'
    included, yields a verified descriptor. *)
Lemma resolveByAddress_verified (w : World) (S addr : string) :
  (forall a a', getAddress (w_ethers w) a = Some a' -> toLowerCase a' = toLowerCase a) ->
  lookup S ClawWallet.VERIFIED_TOKENS = Some addr ->
  forall d, outcome (ClawWallet.resolveByAddress w addr) = Return d ->
            ClawWallet.verified d = true.
Proof.
  intros Hlaw Hl d. unfold ClawWallet.resolveByAddress.
  destruct (getAddress (w_ethers w) addr) as [a'|] eqn:Ha;
    cbn [bind lift ret of_option throw outcome snd app]; [|discriminate].
  destruct (find _ ClawWallet.VERIFIED_TOKENS) as [row|] eqn:Hf.
  - unfold ClawWallet.read_metadata.
    destruct (erc20_symbol (w_provider w) a');
      destruct (erc20_decimals (w_provider w) a');
      cbn [bind ret outcome snd app]; try discriminate.
    intros H. inversion H. reflexivity.
  - exfalso. pose proof (find_none _ _ Hf (S, addr) (lookup_In _ _ _ Hl)) as Hn.
    cbn [snd] in Hn. rewrite (Hlaw _ _ Ha), String.eqb_refl in Hn. discriminate.
Qed.

Lemma find_existsb_false {A : Type} (f : A -> bool) (l : list A) :
  existsb f l = false -> find f l = None.
Proof.
  induction l as [|x l IH]; simpl; [reflexivity|].
  intros H. apply orb_false_iff in H. destruct H as [-> H]. apply IH. exact H.
Qed.

Lemma warning_text_nonempty (symbol address : string) :
  ClawWallet.warning_text symbol address <> "".
Proof. unfold ClawWallet.warning_text. cbn [String.append]. discriminate. Qed.

Lemma warning_text_nonempty' (symbol expected address : string) :
  Clawlett.warning_text symbol expected address <> "".
Proof. unfold Clawlett.warning_text. cbn [String.append]. discriminate. Qed.

Lemma upper_case_protected_protected (s : string) :
  In s upper_case_protected -> ClawWallet.protected s = true.
Proof.
  intros H. apply existsb_eqb_In.
  unfold upper_case_protected in H. unfold ClawWallet.PROTECTED_SYMBOLS.
  simpl in *. tauto.
Qed.

(** C4 (amended).  For every address that [getAddress] accepts, that
    matches no address of the registry, and whose on-chain symbol in
    upper case is one of ETH, WETH, USDC, USDT, DAI, USDS, AERO (first
    script) or a member of the protected set (reworked script, for any
    registry, the address not being the native sentinel), resolution
    by address returns normally once both metadata reads succeed; the
    descriptor is not verified and carries a non-empty warning. *)
Theorem C4_impostor_warned :
  (forall (w : World) (A A' sym : string) (dec : Z),
      getAddress (w_ethers w) A = Some A' ->
      erc20_symbol (w_provider w) A' = Some sym ->
      erc20_decimals (w_provider w) A' = Some dec ->
      listed A' = false ->
      In (toUpperCase sym) upper_case_protected ->
      exists d text,
        outcome (ClawWallet.resolveByAddress w A) = Return d /\
        ClawWallet.address d = A' /\
        ClawWallet.verified d = false /\
        ClawWallet.warning d = Some text /\ text <> "") /\
  (forall (registry : list (string * Clawlett.RegistryEntry))
          (w : World) (A A' sym : string) (dec : Z),
      getAddress (w_ethers w) A = Some A' ->
      toLowerCase A' <> toLowerCase Clawlett.NATIVE_ETH ->
      erc20_symbol (w_provider w) A' = Some sym ->
      erc20_decimals (w_provider w) A' = Some dec ->
      listed_in registry A' = false ->
      Clawlett.protected (toUpperCase sym) = true ->
      exists d text,
        outcome (Clawlett.resolveByAddress registry w A) = Return d /\
        Clawlett.address d = A' /\
        Clawlett.verified d <> Some true /\
        Clawlett.warning d = Some text /\ text <> "").
Proof.
  split.
  - intros w A A' sym dec Ha Hs Hd Hl Hp.
    unfold ClawWallet.resolveByAddress. rewrite Ha.
    cbn [bind lift ret of_option throw outcome snd app].
    unfold listed in Hl. rewrite (find_existsb_false _ _ Hl).
    unfold ClawWallet.read_metadata. rewrite Hs, Hd.
    cbn [bind ret outcome snd app negb andb].
    rewrite (upper_case_protected_protected _ Hp).
    eexists. eexists. split; [reflexivity|]. cbn.
    repeat split. apply warning_text_nonempty.
  - intros registry w A A' sym dec Ha Hn Hs Hd Hl Hp.
    unfold Clawlett.resolveByAddress. rewrite Ha.
    cbn [bind lift ret of_option throw outcome snd app].
    apply String.eqb_neq in Hn. rewrite Hn.
    unfold listed_in in Hl. rewrite (find_existsb_false _ _ Hl).
    unfold Clawlett.read_metadata. rewrite Hs, Hd.
    cbn [bind ret outcome snd app negb andb].
    unfold Clawlett.canonical_of. rewrite Hp.
    eexists. eexists. split; [reflexivity|]. cbn.
    split; [reflexivity|]. split; [discriminate|].
    split; [reflexivity|]. apply warning_text_nonempty'.
Qed.

Lemma C4_impostor_warned_witness :
  (getAddress (w_ethers world_usdc) impostor_address = Some impostor_address /\
   erc20_symbol (w_provider world_usdc) impostor_address = Some "USDC" /\
   erc20_decimals (w_provider world_usdc) impostor_address = Some 6 /\
   listed impostor_address = false /\
   In (toUpperCase "USDC") upper_case_protected /\
   exists d text,
     outcome (ClawWallet.resolveByAddress world_usdc impostor_address) = Return d /\
     ClawWallet.address d = impostor_address /\
     ClawWallet.verified d = false /\
     ClawWallet.warning d = Some text /\ text <> "") /\
  (toLowerCase impostor_address <> toLowerCase Clawlett.NATIVE_ETH /\
   listed_in Clawlett.TOKEN_REGISTRY_rows impostor_address = false /\
   Clawlett.protected (toUpperCase "USDC") = true /\
   exists d text,
     outcome (Clawlett.resolveByAddress Clawlett.TOKEN_REGISTRY_rows world_usdc
                                        impostor_address) = Return d /\
     Clawlett.address d = impostor_address /\
     Clawlett.verified d <> Some true /\
     Clawlett.warning d = Some text /\ text <> "").
Proof.
  assert (Hin : In (toUpperCase "USDC") upper_case_protected)
    by (right; right; left; reflexivity).
  assert (Hne : toLowerCase impostor_address <> toLowerCase Clawlett.NATIVE_ETH)
    by (vm_compute; discriminate).
  split.
  - repeat (split; [first [reflexivity | exact Hin]|]).
    exact (proj1 C4_impostor_warned world_usdc impostor_address impostor_address
                 "USDC" 6 eq_refl eq_refl eq_refl eq_refl Hin).
  - split; [exact Hne|]. repeat (split; [reflexivity|]).
    exact (proj2 C4_impostor_warned Clawlett.TOKEN_REGISTRY_rows world_usdc
                 impostor_address impostor_address "USDC" 6
                 eq_refl Hne eq_refl eq_refl eq_refl eq_refl).
Defined.

(** C4 as stated fails: the address of DEGEN, a registry entry, differs
    from the verified address of USDC; when the chain reports the
    symbol 'USDC' for it, resolution returns a verified descriptor
    without a warning. *)
Lemma C4_counterexample :
  erc20_symbol (w_provider world_usdc) DEGEN_address = Some "USDC" /\
  ClawWallet.protected (toUpperCase "USDC") = true /\
  lookup "USDC" ClawWallet.VERIFIED_TOKENS = Some USDC_address /\
  toLowerCase DEGEN_address <> toLowerCase USDC_address /\
  exists d,
    outcome (ClawWallet.resolveByAddress world_usdc DEGEN_address) = Return d /\
    ClawWallet.verified d = true /\ ClawWallet.warning d = None.
Proof.
  repeat (split; [first [reflexivity | vm_compute; discriminate]|]).
  eexists. split; [vm_compute; reflexivity|]. split; reflexivity.
Qed.

(** The slip behind C3 shows here as well: a token at an unlisted
    address that calls itself 'cbBTC' gets no warning, since 'CBBTC' is
    not a member of the protected list. *)
Lemma cbBTC_impostor_not_warned :
  listed impostor_address = false /\
  outcome (ClawWallet.resolveByAddress world_cbBTC impostor_address)
  = Return {| ClawWallet.address := impostor_address;
              ClawWallet.symbol := "cbBTC";
              ClawWallet.decimals := 6;
              ClawWallet.verified := false;
              ClawWallet.warning := None |}.
Proof. split; reflexivity. Qed.
End TokenResolution.

(** ** Runs and their traces *)

Section Traces.
Context {A : Type}.
Variable P : Event -> bool.

Lemma all_events_ret (a : A) : all_events P (ret a).
Proof. reflexivity. Qed.

Lemma all_events_throw (e : JsError) : all_events P (@throw A e).
Proof. reflexivity. Qed.

Lemma all_events_exit (c : Z) : all_events P (@exit A c).
Proof. reflexivity. Qed.

Lemma all_events_lift (r : Result A) : all_events P (lift r).
Proof. destruct r; reflexivity. Qed.

Lemma all_events_raw (t : list Event) (o : Outcome A) :
  forallb P t = true -> all_events P (t, o).
Proof. intros H. exact H. Qed.

Lemma all_events_await (ev : Event) (reply : option A) (e : JsError) :
  P ev = true -> all_events P (await ev reply e).
Proof.
  intros H. unfold all_events, await. destruct reply; simpl; rewrite H; reflexivity.
Qed.

Lemma all_events_try_catch (m : Run A) (h : JsError -> Run A) :
  all_events P m -> (forall e, all_events P (h e)) -> all_events P (try_catch m h).
Proof.
  unfold all_events, try_catch. destruct m as [t [a|e|c]]; simpl; intros Hm Hh; auto.
  specialize (Hh e). destruct (h e) as [t' o]. simpl in *.
  rewrite forallb_app, Hm, Hh. reflexivity.
Qed.
End Traces.

Lemma all_events_emit (P : Event -> bool) (e : Event) :
  P e = true -> all_events P (emit e).
Proof. intros H. unfold all_events. simpl. rewrite H. reflexivity. Qed.

Lemma all_events_log (P : Event -> bool) (l : LogLine) :
  P (Console l) = true -> all_events P (log l).
Proof. apply all_events_emit. Qed.

Lemma all_events_bind {A B : Type} (P : Event -> bool) (m : Run A) (k : A -> Run B) :
  all_events P m -> (forall a, all_events P (k a)) -> all_events P (bind m k).
Proof.
  unfold all_events, bind. destruct m as [t [a|e|c]]; simpl; intros Hm Hk; auto.
  specialize (Hk a). destruct (k a) as [t' o]. simpl in *.
  rewrite forallb_app, Hm, Hk. reflexivity.
Qed.

Lemma all_events_top_level (P : Event -> bool) (m : Run unit) :
  (forall e, P (Console (LError e)) = true) ->
  all_events P m -> all_events P (top_level m).
Proof.
  intros HP Hm. unfold top_level.
  assert (H : all_events P (try_catch m (fun e => bind (log (LError e)) (fun _ => exit 1)))).
  { apply all_events_try_catch; [exact Hm|]. intros e.
    apply all_events_bind; [apply all_events_log, HP | intros; apply all_events_exit]. }
  destruct (try_catch m _) as [t [a|e|c]]; exact H.
Qed.

(** Walks through a run, one step at a time; [known] closes the steps
    that have a lemma of their own. *)
Ltac run_events_with known :=
  repeat first
    [ known
    | apply all_events_ret
    | apply all_events_throw
    | apply all_events_exit
    | apply all_events_lift
    | apply all_events_log; reflexivity
    | apply all_events_emit; reflexivity
    | apply all_events_await; reflexivity
    | apply all_events_raw; reflexivity
    | apply all_events_bind; [|intros ?]
    | apply all_events_try_catch; [|intros ?]
    | match goal with
      | |- all_events _ (if ?c then _ else _) => destruct c eqn:?
      | |- all_events _ (match ?x with _ => _ end) => destruct x eqn:?
      end ].

(** The read-only parts of the three scripts. *)
Section ReadOnlySteps.
Variable P : Event -> bool.
Hypothesis P_read : forall m a, P (RpcRead m a) = true.
Hypothesis P_console : forall l, is_summary (Console l) = false -> P (Console l) = true.

Ltac read_only :=
  repeat first
    [ apply all_events_ret
    | apply all_events_throw
    | apply all_events_exit
    | apply all_events_lift
    | apply all_events_log; apply P_console; reflexivity
    | apply all_events_emit; apply P_read
    | apply all_events_await; apply P_read
    | apply all_events_raw; simpl; rewrite !P_read; reflexivity
    | apply all_events_bind; [|intros ?]
    | apply all_events_try_catch; [|intros ?]
    | match goal with
      | |- all_events _ (if ?c then _ else _) => destruct c eqn:?
      | |- all_events _ (match ?x with _ => _ end) => destruct x eqn:?
      end ].

Lemma ClawWallet_resolveToken_reads (w : World) (token : string) :
  all_events P (ClawWallet.resolveToken w token).
Proof.
  unfold ClawWallet.resolveToken, ClawWallet.resolveByAddress, ClawWallet.read_metadata.
  read_only.
Qed.

Lemma ClawWallet_prepare_reads (w : World) (args : ClawWallet.Args) :
  all_events P (ClawWallet.prepare w args).
Proof.
  unfold ClawWallet.prepare, ClawWallet.resolve_or_exit, ClawWallet.read_balance.
  read_only; apply ClawWallet_resolveToken_reads.
Qed.

Lemma Clawlett_resolveToken_reads registry aliases (w : World) (token : string) :
  all_events P (Clawlett.resolveToken registry aliases w token).
Proof.
  unfold Clawlett.resolveToken, Clawlett.resolveByAddress, Clawlett.read_metadata.
  read_only.
Qed.

Lemma Clawlett_preflight_reads (w : World) (cfg : Config) (safeAddress : string) :
  all_events P (Clawlett.preflight w cfg safeAddress).
Proof. unfold Clawlett.preflight. read_only. Qed.

Lemma Cow_prepare_reads (w : World) (sv : Cow.Services) (args : Cow.Args) :
  all_events P (Cow.prepare w sv args).
Proof. unfold Cow.prepare, Cow.resolve_or_exit. read_only. Qed.

Lemma Cow_check_balance_reads (w : World) safeAddress tokenIn ethSubstituted amountIn :
  all_events P (Cow.check_balance w safeAddress tokenIn ethSubstituted amountIn).
Proof. unfold Cow.check_balance. read_only. Qed.
End ReadOnlySteps.

(** ** Quote-only runs *)

Lemma ends_after_summary_app (t1 t2 : list Event) :
  forallb not_summary t1 = true ->
  ends_after_summary (t1 ++ t2) = ends_after_summary t2.
Proof.
  induction t1 as [|e t1 IH]; simpl; [reflexivity|].
  intros H. apply andb_true_iff in H. destruct H as [He Ht].
  destruct e as [[]| | | | | | | |]; try discriminate He; apply IH; exact Ht.
Qed.

Lemma no_summary_existsb (t : list Event) :
  forallb not_summary t = true -> existsb is_summary t = false.
Proof.
  induction t as [|e t IH]; simpl; [reflexivity|].
  intros H. apply andb_true_iff in H. destruct H as [He Ht].
  unfold not_summary in He. apply negb_true_iff in He. rewrite He. apply IH, Ht.
Qed.

Lemma no_summary_ends (t : list Event) :
  forallb not_summary t = true -> ends_after_summary t = true.
Proof.
  intros H. rewrite <- (app_nil_r t). rewrite ends_after_summary_app by exact H.
  reflexivity.
Qed.

Lemma stops_no_summary (m : Run unit) :
  all_events not_summary m -> stops_after_summary m.
Proof.
  intros H. split; [apply no_summary_ends, H|].
  rewrite (no_summary_existsb _ H). discriminate.
Qed.

Lemma stops_bind {A : Type} (m : Run A) (k : A -> Run unit) :
  all_events not_summary m -> (forall a, stops_after_summary (k a)) ->
  stops_after_summary (bind m k).
Proof.
  intros Hm Hk. unfold all_events in Hm. destruct m as [t [a|e|c]]; simpl in Hm.
  - specialize (Hk a). unfold stops_after_summary, bind in *.
    destruct (k a) as [t' o]. simpl in *.
    rewrite ends_after_summary_app by exact Hm.
    rewrite existsb_app, (no_summary_existsb _ Hm). exact Hk.
  - apply stops_no_summary. exact Hm.
  - apply stops_no_summary. exact Hm.
Qed.

Lemma summary_existsb (pre post : list Event) (a b c : Z) :
  existsb is_summary (pre ++ Console (LSummary a b c) :: post) = true.
Proof. rewrite existsb_app. simpl. apply orb_true_r. Qed.

Lemma ends_after_summary_head (rest : list Event) (a b c : Z) :
  ends_after_summary (Console (LSummary a b c) :: rest) = true ->
  rest = [Console LQuoteOnly].
Proof.
  simpl. destruct rest as [|e rest]; [discriminate|].
  destruct e as [l| | | | | | | |]; try discriminate.
  destruct l; try discriminate. destruct rest; [reflexivity | discriminate].
Qed.

Lemma ends_after_summary_split (pre post : list Event) (a b c : Z) :
  ends_after_summary (pre ++ Console (LSummary a b c) :: post) = true ->
  post = [Console LQuoteOnly].
Proof.
  induction pre as [|e pre IH]; intros H.
  - apply (ends_after_summary_head _ _ _ _ H).
  - rewrite <- app_comm_cons in H.
    destruct (is_summary e) eqn:He.
    + destruct e as [l| | | | | | | |]; try discriminate He.
      destruct l; try discriminate He.
      apply ends_after_summary_head in H.
      destruct pre as [|e' pre]; [discriminate H|].
      destruct pre; discriminate H.
    + apply IH. destruct e as [l| | | | | | | |]; try exact H.
      destruct l; try exact H. discriminate He.
Qed.

Lemma stops_top_level (m : Run unit) :
  stops_after_summary m ->
  forall pre post pay receive minReceive,
    trace (top_level m) = pre ++ Console (LSummary pay receive minReceive) :: post ->
    post = [Console LQuoteOnly] /\ outcome (top_level m) = Exit 0.
Proof.
  intros [Hends Hout] pre post a b c. unfold top_level, try_catch.
  destruct m as [t [[]|e|code]]; simpl in *; intros Ht.
  - subst t. split; [apply (ends_after_summary_split _ _ _ _ _ Hends) | reflexivity].
  - exfalso.
    assert (Hex : existsb is_summary (t ++ [Console (LError e)]) = true)
      by (rewrite Ht; apply summary_existsb).
    rewrite existsb_app in Hex. simpl in Hex. rewrite orb_false_r in Hex.
    destruct (Hout Hex); discriminate.
  - subst t. split; [apply (ends_after_summary_split _ _ _ _ _ Hends)|].
    destruct (Hout (summary_existsb _ _ _ _ _)) as [H|H]; [exact H | discriminate H].
Qed.

Lemma not_summary_console (l : LogLine) :
  is_summary (Console l) = false -> not_summary (Console l) = true.
Proof. unfold not_summary. intros ->. reflexivity. Qed.

Ltac known_reads :=
  first [ apply ClawWallet_prepare_reads
        | apply Clawlett_resolveToken_reads
        | apply Clawlett_preflight_reads
        | apply Cow_prepare_reads
        | apply Cow_check_balance_reads ];
  first [intros; reflexivity | apply not_summary_console].

Ltac run_events := run_events_with known_reads.

(** Steps up to the summary. *)
Ltac before_summary :=
  repeat first
    [ apply stops_bind; [solve [run_events] | intros ?]
    | match goal with
      | |- stops_after_summary (if ?c then _ else _) => destruct c eqn:?
      | |- stops_after_summary (match ?x with _ => _ end) => destruct x eqn:?
      end ];
  try solve [apply stops_no_summary; run_events].

Ltac at_summary :=
  split; [reflexivity | intros _; first [left; reflexivity | right; reflexivity]].

Lemma ClawWallet_quote_only (w : World) (args : ClawWallet.Args) :
  ClawWallet.execute args = false -> quote_only_run (ClawWallet.run w args).
Proof.
  intros He. split.
  - apply all_events_top_level; [reflexivity|].
    unfold ClawWallet.main, ClawWallet.proceed, ClawWallet.getQuote.
    rewrite He. cbn [negb]. run_events.
  - apply stops_top_level.
    unfold ClawWallet.main, ClawWallet.proceed, ClawWallet.getQuote.
    rewrite He. cbn [negb]. before_summary. at_summary.
Qed.

Lemma Clawlett_quote_only registry aliases rejected (w : World) (args : Clawlett.Args) :
  Clawlett.execute args = false ->
  quote_only_run (Clawlett.run registry aliases rejected w args).
Proof.
  intros He. split.
  - apply all_events_top_level; [reflexivity|].
    unfold Clawlett.main, Clawlett.getQuote.
    rewrite He. cbn [negb]. run_events.
  - apply stops_top_level.
    unfold Clawlett.main, Clawlett.getQuote.
    rewrite He. cbn [negb]. before_summary. at_summary.
Qed.

Lemma Cow_quote_only (w : World) (sv : Cow.Services) (args : Cow.Args) :
  Cow.execute args = false -> quote_only_run (Cow.run w sv args).
Proof.
  intros He. split.
  - apply all_events_top_level; [reflexivity|].
    unfold Cow.main, Cow.trade, Cow.getCowQuote.
    rewrite He. cbn [negb]. run_events.
  - apply stops_top_level.
    unfold Cow.main, Cow.trade, Cow.getCowQuote.
    rewrite He. cbn [negb]. before_summary. at_summary.
Qed.

(** C6.  A run without the execute flag performs no state-changing call
    (no transaction through the roles contract, hence no approval, swap
    or presignature, no order submission, no app-data registration); once
    it has printed the swap summary it prints the quote-only notice and
    the process ends with code 0.  This holds for each of the three
    scripts, in every world. *)
Theorem C6_quote_only_is_read_only :
  (forall (w : World) (args : ClawWallet.Args),
      ClawWallet.execute args = false -> quote_only_run (ClawWallet.run w args)) /\
  (forall registry aliases rejected (w : World) (args : Clawlett.Args),
      Clawlett.execute args = false ->
      quote_only_run (Clawlett.run registry aliases rejected w args)) /\
  (forall (w : World) (sv : Cow.Services) (args : Cow.Args),
      Cow.execute args = false -> quote_only_run (Cow.run w sv args)).
Proof.
  split; [|split].
  - apply ClawWallet_quote_only.
  - apply Clawlett_quote_only.
  - apply Cow_quote_only.
Qed.

Lemma C6_quote_only_is_read_only_witness :
  (ClawWallet.execute (wallet_args false) = false /\
   quote_only_run (ClawWallet.run world_usdc (wallet_args false))) /\
  (Clawlett.execute (clawlett_args false "exact") = false /\
   quote_only_run (Clawlett.run Clawlett.TOKEN_REGISTRY_rows Clawlett.TOKEN_ALIASES_rows
                                (fun _ _ => false) world_usdc
                                (clawlett_args false "exact"))) /\
  (Cow.execute (cow_args "ETH" false) = false /\
   quote_only_run (Cow.run world_usdc sample_services (cow_args "ETH" false))).
Proof.
  split; [|split]; (split; [reflexivity|]).
  - apply (proj1 C6_quote_only_is_read_only). reflexivity.
  - apply (proj1 (proj2 C6_quote_only_is_read_only)). reflexivity.
  - apply (proj2 (proj2 C6_quote_only_is_read_only)). reflexivity.
Defined.

(** What the sample runs look like: the quote-only runs reach the
    summary, the executing runs go on to state-changing calls. *)
Lemma sample_runs :
  trace (ClawWallet.run world_usdc (wallet_args false))
  = [ Console (LInfo "Resolving tokens...");
      RpcRead "symbol" USDC_address; RpcRead "decimals" USDC_address;
      Console (LInfo "USDC");
      RpcRead "symbol" "0x50c5725949A6F0c72E6C4a641F24049A917DB0Cb";
      RpcRead "decimals" "0x50c5725949A6F0c72E6C4a641F24049A917DB0Cb";
      Console (LInfo "USDC");
      RpcRead "balanceOf" USDC_address;
      Console (LInfo "Getting quote...");
      QuoteRequest USDC_address "0x50c5725949A6F0c72E6C4a641F24049A917DB0Cb" 5;
      Console (LSummary 5 1000 990);
      Console LQuoteOnly ] /\
  outcome (ClawWallet.run world_usdc (wallet_args false)) = Exit 0 /\
  existsb state_changing (trace (ClawWallet.run world_usdc (wallet_args true))) = true /\
  existsb state_changing
          (trace (Clawlett.run Clawlett.TOKEN_REGISTRY_rows Clawlett.TOKEN_ALIASES_rows
                               (fun _ _ => false) world_usdc (clawlett_args true "exact")))
  = true /\
  existsb is_summary
          (trace (Clawlett.run Clawlett.TOKEN_REGISTRY_rows Clawlett.TOKEN_ALIASES_rows
                               (fun _ _ => false) world_usdc (clawlett_args false "exact")))
  = true /\
  existsb is_summary (trace (Cow.run world_usdc sample_services (cow_args "ETH" false)))
  = true /\
  existsb state_changing (trace (Cow.run world_usdc sample_services (cow_args "ETH" true)))
  = true /\
  outcome (Cow.run world_usdc sample_services (cow_args "ETH" true)) = Exit 0.
Proof. repeat split; vm_compute; reflexivity. Qed.

(** ** Balance check before the quote *)

Lemma no_quote_request_console (l : LogLine) :
  is_summary (Console l) = false -> no_quote_request (Console l) = true.
Proof. reflexivity. Qed.

Lemma ClawWallet_insufficient (w : World) (args : ClawWallet.Args)
      (t : list Event) (c : ClawWallet.Checked) :
  ClawWallet.prepare w args = (t, Return c) ->
  ClawWallet.c_balance c < ClawWallet.c_amountIn c ->
  all_events no_quote_request (ClawWallet.run w args) /\
  outcome (ClawWallet.run w args) = Exit 1.
Proof.
  intros Hp Hlt.
  pose proof (ClawWallet_prepare_reads no_quote_request
                (fun _ _ => eq_refl) no_quote_request_console w args) as Hreads.
  unfold ClawWallet.run, ClawWallet.main. rewrite Hp in *. cbn [bind].
  unfold ClawWallet.proceed. apply Z.ltb_lt in Hlt. rewrite Hlt.
  unfold all_events in *. cbn in *.
  rewrite forallb_app, Hreads. split; reflexivity.
Qed.

Lemma Cow_insufficient (w : World) (sv : Cow.Services) (args : Cow.Args)
      (t : list Event) (p : Cow.Prepared) (v : Z) :
  Cow.prepare w sv args = (t, Return p) ->
  (forall b, getBalance (w_provider w) (safe (Cow.p_cfg p)) = Some b -> 0 <= b) ->
  Cow.funds w (safe (Cow.p_cfg p)) (Cow.p_tokenIn p) (Cow.p_ethSubstituted p) = Some v ->
  v < Cow.p_amountIn p ->
  all_events no_quote_request (Cow.run w sv args) /\
  outcome (Cow.run w sv args) = Exit 1.
Proof.
  intros Hp Hnonneg Hf Hlt.
  pose proof (Cow_prepare_reads no_quote_request
                (fun _ _ => eq_refl) no_quote_request_console w sv args) as Hreads.
  unfold Cow.run, Cow.main. rewrite Hp in *. cbn [bind].
  unfold Cow.check_balance, Cow.funds in *.
  unfold all_events in *. cbn [trace fst] in Hreads.
  destruct (Cow.p_ethSubstituted p && _).
  - destruct (erc20_balanceOf _ _ _) as [wb|]; [|discriminate].
    destruct (getBalance _ _) as [eb|] eqn:Heb; [|discriminate].
    inversion Hf; subst v. specialize (Hnonneg eb eq_refl).
    assert (H1 : (Cow.p_amountIn p <=? wb) = false) by (apply Z.leb_gt; lia).
    assert (H2 : (Cow.p_amountIn p <=? wb + eb) = false) by (apply Z.leb_gt; lia).
    cbn. rewrite H1, H2. cbn.
    rewrite forallb_app, Hreads. split; reflexivity.
  - rewrite Hf. apply Z.ltb_lt in Hlt. cbn. rewrite Hlt. cbn.
    rewrite forallb_app, Hreads. split; reflexivity.
Qed.

(** C7 (amended).  The quote is requested only after the balance check
    has passed.  In the first script, when the balance read for the
    input token (the native balance for a token at the WETH address, the
    ERC-20 balance otherwise) is below amountIn, and in the CoW script,
    when the funds the check counts (the WETH and the native balance
    together when ETH was substituted by WETH, the ERC-20 balance
    otherwise) are below amountIn, the run ends with exit code 1 and its
    trace holds no quote request. *)
Theorem C7_balance_check_precedes_quote :
  (forall (w : World) (args : ClawWallet.Args) (t : list Event) (c : ClawWallet.Checked),
      ClawWallet.prepare w args = (t, Return c) ->
      ClawWallet.c_balance c < ClawWallet.c_amountIn c ->
      all_events no_quote_request (ClawWallet.run w args) /\
      outcome (ClawWallet.run w args) = Exit 1) /\
  (forall (w : World) (sv : Cow.Services) (args : Cow.Args)
          (t : list Event) (p : Cow.Prepared) (v : Z),
      Cow.prepare w sv args = (t, Return p) ->
      (forall b, getBalance (w_provider w) (safe (Cow.p_cfg p)) = Some b -> 0 <= b) ->
      Cow.funds w (safe (Cow.p_cfg p)) (Cow.p_tokenIn p) (Cow.p_ethSubstituted p) = Some v ->
      v < Cow.p_amountIn p ->
      all_events no_quote_request (Cow.run w sv args) /\
      outcome (Cow.run w sv args) = Exit 1).
Proof.
  split.
  - apply ClawWallet_insufficient.
  - apply Cow_insufficient.
Qed.

Lemma C7_balance_check_precedes_quote_witness :
  (ClawWallet.prepare world_poor (wallet_args true)
   = (trace (ClawWallet.prepare world_poor (wallet_args true)), Return poor_checked) /\
   ClawWallet.c_balance poor_checked < ClawWallet.c_amountIn poor_checked /\
   all_events no_quote_request (ClawWallet.run world_poor (wallet_args true)) /\
   outcome (ClawWallet.run world_poor (wallet_args true)) = Exit 1) /\
  (Cow.prepare world_poor sample_services (cow_args "ETH" true)
   = (trace (Cow.prepare world_poor sample_services (cow_args "ETH" true)),
      Return eth_prepared) /\
   Cow.funds world_poor (safe sample_config) (Cow.p_tokenIn eth_prepared) true = Some 3 /\
   3 < Cow.p_amountIn eth_prepared /\
   all_events no_quote_request (Cow.run world_poor sample_services (cow_args "ETH" true)) /\
   outcome (Cow.run world_poor sample_services (cow_args "ETH" true)) = Exit 1).
Proof.
  split.
  - assert (Hp : ClawWallet.prepare world_poor (wallet_args true)
                 = (trace (ClawWallet.prepare world_poor (wallet_args true)),
                    Return poor_checked)) by (vm_compute; reflexivity).
    assert (Hlt : ClawWallet.c_balance poor_checked < ClawWallet.c_amountIn poor_checked)
      by reflexivity.
    split; [exact Hp|]. split; [exact Hlt|].
    exact (proj1 C7_balance_check_precedes_quote _ _ _ _ Hp Hlt).
  - assert (Hp : Cow.prepare world_poor sample_services (cow_args "ETH" true)
                 = (trace (Cow.prepare world_poor sample_services (cow_args "ETH" true)),
                    Return eth_prepared)) by (vm_compute; reflexivity).
    assert (Hf : Cow.funds world_poor (safe (Cow.p_cfg eth_prepared))
                           (Cow.p_tokenIn eth_prepared)
                           (Cow.p_ethSubstituted eth_prepared) = Some 3)
      by (vm_compute; reflexivity).
    assert (Hlt : 3 < Cow.p_amountIn eth_prepared) by reflexivity.
    assert (Hn : forall b, getBalance (w_provider world_poor)
                                      (safe (Cow.p_cfg eth_prepared)) = Some b -> 0 <= b)
      by (intros b H; inversion H; discriminate).
    split; [exact Hp|]. split; [exact Hf|]. split; [exact Hlt|].
    exact (proj2 C7_balance_check_precedes_quote _ _ _ _ _ _ Hp Hn Hf Hlt).
Defined.

(** C7 as stated fails for the CoW script: with ETH as the input the
    script trades WETH and counts both balances; a vault that holds 3 wei
    and 3 WETH, each below the amount 5, is not stopped, and the quote is
    requested. *)
Lemma C7_counterexample :
  Cow.prepare world_split sample_services (cow_args "ETH" false)
  = (trace (Cow.prepare world_split sample_services (cow_args "ETH" false)),
     Return eth_prepared) /\
  erc20_balanceOf (w_provider world_split) (Cow.address (Cow.p_tokenIn eth_prepared))
                  (safe (Cow.p_cfg eth_prepared)) = Some 3 /\
  getBalance (w_provider world_split) (safe (Cow.p_cfg eth_prepared)) = Some 3 /\
  3 < Cow.p_amountIn eth_prepared /\
  existsb is_quote_request
          (trace (Cow.run world_split sample_services (cow_args "ETH" false))) = true /\
  outcome (Cow.run world_split sample_services (cow_args "ETH" false)) = Exit 0.
Proof. repeat split; vm_compute; reflexivity. Qed.

(** ** Smart slippage *)

(** C8.  With exact integers f = feeAmount, s = sellAmount and
    b = buyAmount, the smart slippage is
    (f*3/2 + s*5/1000) * b / s when s > 0 and the flat b*5/1000 otherwise
    (in particular when s = 0), each division truncating; the
    computation always returns, so it never divides by a zero
    sellAmount.  The summary of [main] computes the same value. *)
Theorem C8_smart_slippage (q : Cow.CowQuote) :
  Cow.buySlippage q
  = Ok (if 0 <? Cow.q_sellAmount q
        then Z.quot ((Z.quot (Cow.q_feeAmount q * 3) 2
                      + Z.quot (Cow.q_sellAmount q * 5) 1000) * Cow.q_buyAmount q)
                    (Cow.q_sellAmount q)
        else Z.quot (Cow.q_buyAmount q * 5) 1000) /\
  Cow.displayBuySlippage (Cow.q_sellAmount q) (Cow.q_buyAmount q) (Cow.q_feeAmount q)
  = Cow.buySlippage q.
Proof.
  unfold Cow.buySlippage, Cow.displayBuySlippage, BigInt.div. cbn [rbind Z.eqb].
  split; [|reflexivity].
  destruct (0 <? Cow.q_sellAmount q) eqn:Hs; [|reflexivity].
  apply Z.ltb_lt in Hs.
  replace (Cow.q_sellAmount q =? 0) with false by (symmetry; apply Z.eqb_neq; lia).
  reflexivity.
Qed.

(** ** Polling *)

Lemma poll_loop_terminates (pw : Cow.PollWorld) (orderUid : string) (timeoutMs : Z) :
  forall (fuel : nat) (elapsed : Z) (k : nat),
    timeoutMs - elapsed <= Cow.pollInterval * Z.of_nat fuel ->
    Cow.poll_loop fuel pw orderUid timeoutMs elapsed k <> None.
Proof.
  unfold Cow.pollInterval.
  induction fuel as [|fuel IH]; intros elapsed k Hle; simpl.
  - replace (elapsed <? timeoutMs) with false by (symmetry; apply Z.ltb_ge; lia).
    discriminate.
  - destruct (elapsed <? timeoutMs); [|discriminate].
    assert (Hnext : forall next, elapsed + Cow.pollInterval <= next ->
              Cow.poll_loop fuel pw orderUid timeoutMs next (S k) <> None)
      by (intros next Hn; apply IH; unfold Cow.pollInterval in Hn; lia).
    assert (Hstep : elapsed + Cow.pollInterval
                    <= elapsed + Z.of_N (Cow.pw_latency pw k) + Cow.pollInterval
                       + Z.of_N (Cow.pw_lag pw k)) by lia.
    specialize (Hnext _ Hstep).
    destruct (Cow.pw_reply pw k) as [| |status]; [discriminate| |].
    + destruct (Cow.poll_loop fuel pw orderUid timeoutMs _ (S k)); [discriminate|].
      contradiction.
    + destruct (Cow.terminal status); [discriminate|].
      destruct (Cow.poll_loop fuel pw orderUid timeoutMs _ (S k)); [discriminate|].
      contradiction.
Qed.

(** The fuel [pollOrderStatus] gives the loop always suffices: the loop
    ends, whatever the service answers. *)
Lemma poll_fuel_suffices (pw : Cow.PollWorld) (orderUid : string) (timeoutMs : Z) :
  Cow.poll_loop (Cow.poll_fuel timeoutMs) pw orderUid timeoutMs 0 0 <> None.
Proof.
  apply poll_loop_terminates. unfold Cow.poll_fuel, Cow.pollInterval.
  pose proof (Z.div_mod timeoutMs 5000 ltac:(lia)) as Hd.
  pose proof (Z.mod_pos_bound timeoutMs 5000 ltac:(lia)) as Hm.
  lia.
Qed.

(** C9.  When the first two status queries answer 'open' and the third
    answers 'fulfilled', and the third loop test still falls within the
    timeout (the two queries, the two 5000 ms timers and their lags take
    less than timeoutMs), the polling loop returns 'fulfilled' after
    exactly three status queries, with one 5000 ms timer between
    consecutive queries. *)
Theorem C9_fulfilled_at_third_poll (pw : Cow.PollWorld) (orderUid : string) (timeoutMs : Z) :
  Cow.pw_reply pw 0 = Cow.Status "open" ->
  Cow.pw_reply pw 1 = Cow.Status "open" ->
  Cow.pw_reply pw 2 = Cow.Status "fulfilled" ->
  Z.of_N (Cow.pw_latency pw 0) + Cow.pollInterval + Z.of_N (Cow.pw_lag pw 0)
  + Z.of_N (Cow.pw_latency pw 1) + Cow.pollInterval + Z.of_N (Cow.pw_lag pw 1)
  < timeoutMs ->
  Cow.pollOrderStatus pw orderUid (Some timeoutMs)
  = ([ OrderStatusGet orderUid; Console (LPollStatus "open"); Timer 5000;
       OrderStatusGet orderUid; Console (LPollStatus "open"); Timer 5000;
       OrderStatusGet orderUid ],
     Return "fulfilled") /\
  List.length (filter is_status_query
                      (trace (Cow.pollOrderStatus pw orderUid (Some timeoutMs))))
  = 3%nat.
Proof.
  intros H0 H1 H2 Hbudget.
  assert (Hrun : Cow.pollOrderStatus pw orderUid (Some timeoutMs)
                 = ([ OrderStatusGet orderUid; Console (LPollStatus "open"); Timer 5000;
                      OrderStatusGet orderUid; Console (LPollStatus "open"); Timer 5000;
                      OrderStatusGet orderUid ],
                    Return "fulfilled")).
  { unfold Cow.pollOrderStatus.
    assert (Hfuel : exists n, Cow.poll_fuel timeoutMs = S (S (S n))).
    { unfold Cow.poll_fuel, Cow.pollInterval in *.
      assert (Hq : 2 <= timeoutMs / 5000) by (apply Z.div_le_lower_bound; lia).
      exists (Z.to_nat (timeoutMs / 5000 + 1) - 3)%nat. lia. }
    destruct Hfuel as [n ->].
    cbn [Cow.poll_loop]. unfold Cow.pollInterval in *.
    replace (0 <? timeoutMs) with true by (symmetry; apply Z.ltb_lt; lia).
    rewrite H0. change (Cow.terminal "open") with false. cbn iota.
    match goal with
    | |- context [?e <? timeoutMs] =>
        replace (e <? timeoutMs) with true by (symmetry; apply Z.ltb_lt; lia)
    end.
    rewrite H1. change (Cow.terminal "open") with false. cbn iota.
    match goal with
    | |- context [?e <? timeoutMs] =>
        replace (e <? timeoutMs) with true by (symmetry; apply Z.ltb_lt; lia)
    end.
    rewrite H2. change (Cow.terminal "fulfilled") with true. reflexivity. }
  split; [exact Hrun|]. rewrite Hrun. reflexivity.
Qed.

Lemma C9_fulfilled_at_third_poll_witness :
  Cow.pw_reply open_open_fulfilled 0 = Cow.Status "open" /\
  Cow.pw_reply open_open_fulfilled 1 = Cow.Status "open" /\
  Cow.pw_reply open_open_fulfilled 2 = Cow.Status "fulfilled" /\
  120 + 5000 + 3 + 120 + 5000 + 3 < 1800000 /\
  Cow.pollOrderStatus open_open_fulfilled "0x0rder" (Some 1800000)
  = ([ OrderStatusGet "0x0rder"; Console (LPollStatus "open"); Timer 5000;
       OrderStatusGet "0x0rder"; Console (LPollStatus "open"); Timer 5000;
       OrderStatusGet "0x0rder" ],
     Return "fulfilled").
Proof.
  repeat (split; [reflexivity|]).
  apply (C9_fulfilled_at_third_poll open_open_fulfilled "0x0rder" 1800000);
    reflexivity.
Defined.

(** ** The fee of a batch-auction order *)

Lemma all_events_bind_lift {A B : Type} (P : Event -> bool) (r : Result A) (k : A -> Run B) :
  (forall a, r = Ok a -> all_events P (k a)) -> all_events P (bind (lift r) k).
Proof.
  intros H. destruct r as [a|e]; [|reflexivity].
  specialize (H a eq_refl). unfold all_events, bind, lift, ret in *.
  destruct (k a) as [t o]. exact H.
Qed.

Lemma order_struct_fields (order : CowOrder) (safeAddress : string) (st : OrderStruct) :
  Cow.order_struct order safeAddress = Ok st ->
  s_feeAmount st = 0 /\ s_buyAmount st = o_buyAmount order /\
  s_sellAmount st = o_sellAmount order.
Proof.
  unfold Cow.order_struct.
  destruct (Cow.kindToBytes32 _); [|discriminate].
  destruct (Cow.balanceToBytes32 _); [|discriminate].
  destruct (Cow.balanceToBytes32 _); [|discriminate].
  cbn [rbind]. intros H. inversion H. repeat split.
Qed.

Lemma poll_loop_events (P : Event -> bool) (pw : Cow.PollWorld) (orderUid : string)
      (timeoutMs : Z) :
  P (OrderStatusGet orderUid) = true ->
  (forall status, P (Console (LPollStatus status)) = true) ->
  P (Timer Cow.pollInterval) = true ->
  forall (fuel : nat) (elapsed : Z) (k : nat) (r : Run string),
    Cow.poll_loop fuel pw orderUid timeoutMs elapsed k = Some r -> all_events P r.
Proof.
  intros Hq Hc Ht. induction fuel as [|fuel IH]; intros elapsed k r; simpl.
  - destruct (elapsed <? timeoutMs); [discriminate|].
    intros H. inversion H. reflexivity.
  - destruct (elapsed <? timeoutMs); [|intros H; inversion H; reflexivity].
    destruct (Cow.pw_reply pw k) as [| |status].
    + intros H. inversion H. unfold all_events. simpl. rewrite Hq. reflexivity.
    + destruct (Cow.poll_loop fuel pw orderUid timeoutMs _ (S k)) as [rest|] eqn:Hrest;
        [|discriminate].
      intros H. inversion H. unfold all_events, after. simpl. rewrite Hq, Ht.
      apply (IH _ _ _ Hrest).
    + destruct (Cow.terminal status).
      * intros H. inversion H. unfold all_events. simpl. rewrite Hq. reflexivity.
      * destruct (Cow.poll_loop fuel pw orderUid timeoutMs _ (S k)) as [rest|] eqn:Hrest;
          [|discriminate].
        intros H. inversion H. unfold all_events, after. simpl. rewrite Hq, Hc, Ht.
        apply (IH _ _ _ Hrest).
Qed.

Lemma pollOrderStatus_events (P : Event -> bool) (pw : Cow.PollWorld) (orderUid : string)
      (timeoutMs : option Z) :
  P (OrderStatusGet orderUid) = true ->
  (forall status, P (Console (LPollStatus status)) = true) ->
  P (Timer Cow.pollInterval) = true ->
  all_events P (Cow.pollOrderStatus pw orderUid timeoutMs).
Proof.
  intros Hq Hc Ht. unfold Cow.pollOrderStatus.
  destruct timeoutMs as [t|]; [|reflexivity].
  destruct (Cow.poll_loop _ pw orderUid t 0 0) as [r|] eqn:Hr; [|reflexivity].
  apply (poll_loop_events P pw orderUid t Hq Hc Ht _ _ _ _ Hr).
Qed.

Lemma execute_all_fee_free (w : World) (cfg : Config) (txs : list (string * CallData)) :
  forallb (fun td => fee_free_data (snd td)) txs = true ->
  all_events fee_free (Cow.execute_all w cfg txs).
Proof.
  induction txs as [|[target data] txs IH]; simpl; intros H; [reflexivity|].
  apply andb_true_iff in H. destruct H as [Hd Ht].
  apply all_events_bind.
  - apply all_events_await. exact Hd.
  - intros status. destruct (negb (status =? 1)).
    + reflexivity.
    + apply IH, Ht.
Qed.

Ltac fee_known :=
  first
    [ apply all_events_bind_lift; intros ? ?
    | apply pollOrderStatus_events; [reflexivity | intros; reflexivity | reflexivity]
    | known_reads ].

Ltac fee_steps := run_events_with fee_known.

Lemma Cow_run_fee_free (w : World) (sv : Cow.Services) (args : Cow.Args) :
  all_events fee_free (Cow.run w sv args).
Proof.
  apply all_events_top_level; [reflexivity|].
  unfold Cow.main, Cow.trade, Cow.getCowQuote, Cow.submitCowOrder, Cow.buildAppData.
  fee_steps.
  all: apply execute_all_fee_free.
  all: match goal with
       | H : Cow.order_struct _ _ = Ok ?st |- _ =>
           destruct (order_struct_fields _ _ _ H) as [Hfee _]
       end.
  all: rewrite forallb_app; simpl; rewrite Hfee; simpl.
  all: match goal with
       | |- context [if ?c then _ else _] => destruct c; reflexivity
       end.
Qed.

(** C10.  Every order document the CoW script posts and every struct it
    presigns carries a fee of zero, whatever fee the quote named: this
    holds of every event of every run.  The quoted fee enters the order
    only through the smart slippage by which the posted buy amount is
    lowered, and the presigned struct repeats the amounts of the posted
    document. *)
Theorem C10_zero_fee :
  (forall (w : World) (sv : Cow.Services) (args : Cow.Args),
      all_events fee_free (Cow.run w sv args)) /\
  (forall (w : World) (sv : Cow.Services) (q : Cow.CowQuote) (safeAddress : string)
          (timeoutSeconds : option Z) (o : CowOrder),
      In (OrderPost o) (trace (Cow.submitCowOrder w sv q safeAddress timeoutSeconds)) ->
      o_feeAmount o = "0" /\
      o_sellAmount o = Cow.q_sellAmount q /\
      exists slip, Cow.buySlippage q = Ok slip /\
                   o_buyAmount o = Cow.q_buyAmount q - slip) /\
  (forall (order : CowOrder) (safeAddress : string) (st : OrderStruct),
      Cow.order_struct order safeAddress = Ok st ->
      s_feeAmount st = 0 /\ s_buyAmount st = o_buyAmount order /\
      s_sellAmount st = o_sellAmount order).
Proof.
  split; [apply Cow_run_fee_free|]. split; [|apply order_struct_fields].
  intros w sv q safeAddress timeoutSeconds o.
  unfold Cow.submitCowOrder, Cow.buildAppData.
  destruct (Cow.buySlippage q) as [slip|e] eqn:Hs; cbn [lift bind ret throw trace fst app];
    [|intros []].
  destruct (BigInt.div (slip * 10000) (Cow.q_buyAmount q)) as [bips|e];
    cbn [lift bind ret throw emit trace fst app]; [|intros []].
  destruct (Cow.sv_orders sv _) as [[ok uid]|];
    cbn [await bind trace fst app]; [destruct ok; cbn [negb throw ret trace fst app]| ].
  all: intros [H|[H|[]]]; try discriminate H; inversion H; subst o.
  all: repeat split; exists slip; split; reflexivity.
Qed.

Lemma C10_zero_fee_witness :
  In (OrderPost sample_order)
     (trace (Cow.submitCowOrder world_usdc sample_services (sample_cow_quote 4000)
                                (safe sample_config) (Some 1800))) /\
  o_feeAmount sample_order = "0" /\
  Cow.q_feeAmount (sample_cow_quote 4000) = 4000 /\
  o_buyAmount sample_order = 3500000 - 38500 /\
  Cow.order_struct sample_order (safe sample_config) = Ok sample_struct /\
  s_feeAmount sample_struct = 0.
Proof.
  assert (Hin : In (OrderPost sample_order)
                   (trace (Cow.submitCowOrder world_usdc sample_services
                                              (sample_cow_quote 4000)
                                              (safe sample_config) (Some 1800))))
    by (right; left; reflexivity).
  assert (Hst : Cow.order_struct sample_order (safe sample_config) = Ok sample_struct)
    by reflexivity.
  split; [exact Hin|].
  split; [exact (proj1 (proj1 (proj2 C10_zero_fee) _ _ _ _ _ _ Hin))|].
  split; [reflexivity|]. split; [reflexivity|]. split; [exact Hst|].
  exact (proj1 (proj2 (proj2 C10_zero_fee) _ _ _ Hst)).
Defined.

(** ** Approvals *)

Lemma maybeApprove_transacts (w : World) (cfg : Config) (safeAddress : string)
      (tokenIn : Clawlett.TokenDescriptor) (amountIn : Z) (approveMode : string)
      (t : RoleTx) :
  In (Transact t)
     (trace (Clawlett.maybeApprove w cfg safeAddress tokenIn amountIn approveMode)) ->
  Clawlett.native tokenIn = false /\
  (forall allowance,
      erc20_allowance (w_provider w) (Clawlett.address tokenIn) safeAddress
                      Clawlett.AeroUniversalRouter = Some allowance ->
      allowance < amountIn) /\
  tx_to t = Clawlett.ZodiacHelpers /\
  tx_data t = ApproveForRouter (Clawlett.address tokenIn)
                               (if String.eqb approveMode "max"
                                then MaxUint256 else amountIn).
Proof.
  unfold Clawlett.maybeApprove, send.
  destruct (Clawlett.native tokenIn); [intros []|].
  destruct (erc20_allowance _ _ _ _) as [allowance|];
    cbn [await try_catch bind ret trace fst app].
  - destruct (amountIn <=? allowance) eqn:Hle; cbn [ret trace fst app].
    + intros [H|[]]. discriminate H.
    + apply Z.leb_gt in Hle.
      destruct (w_chain w _); cbn [await bind ret trace fst app];
        intros [H|[H|[]]]; try discriminate H; inversion H; subst t;
        (split; [reflexivity|]); (split; [|split; reflexivity]);
        intros a Ha; inversion Ha; subst a; exact Hle.
  - destruct (amountIn <=? 0) eqn:Hle; cbn [ret trace fst app].
    + intros [H|[]]. discriminate H.
    + destruct (w_chain w _); cbn [await bind ret trace fst app];
        intros [H|[H|[]]]; try discriminate H; inversion H; subst t;
        (split; [reflexivity|]); (split; [|split; reflexivity]);
        intros a Ha; discriminate Ha.
Qed.

Lemma handle_approval_transacts (w : World) (cfg : Config)
      (tokenIn : ClawWallet.TokenDescriptor) (amountIn : Z) (t : RoleTx) :
  In (Transact t) (trace (ClawWallet.handle_approval w cfg tokenIn amountIn)) ->
  tx_to t = ClawWallet.ApprovalHelper /\
  tx_data t = ApproveForRouter (ClawWallet.address tokenIn) MaxUint256.
Proof.
  unfold ClawWallet.handle_approval, send.
  destruct (ClawWallet.is_weth tokenIn); [intros []|].
  destruct (erc20_allowance _ _ _ _) as [allowance|];
    cbn [await try_catch bind ret trace fst app].
  - destruct (allowance <? amountIn); cbn [log emit bind ret trace fst app].
    + destruct (w_chain w _); cbn [await log emit bind ret trace fst app];
        intros H; repeat (destruct H as [H|H]; try discriminate H);
        try contradiction; inversion H; subst t; split; reflexivity.
    + intros [H|[]]. discriminate H.
  - destruct (0 <? amountIn); cbn [log emit bind ret trace fst app].
    + destruct (w_chain w _); cbn [await log emit bind ret trace fst app];
        intros H; repeat (destruct H as [H|H]; try discriminate H);
        try contradiction; inversion H; subst t; split; reflexivity.
    + intros [H|[]]. discriminate H.
Qed.

(** C5 (amended).  In the reworked script an approval is issued only for
    a non-native input whose allowance is below amountIn (or could not be
    read), and it approves exactly amountIn unless the caller's mode is
    'max', in which case it approves MaxUint256; the mode is the
    caller's.  The first script has no approval mode: every approval it
    issues is for MaxUint256. *)
Theorem C5_approval_amount :
  (forall (w : World) (cfg : Config) (safeAddress : string)
          (tokenIn : Clawlett.TokenDescriptor) (amountIn : Z) (approveMode : string)
          (t : RoleTx),
      In (Transact t)
         (trace (Clawlett.maybeApprove w cfg safeAddress tokenIn amountIn approveMode)) ->
      Clawlett.native tokenIn = false /\
      (forall allowance,
          erc20_allowance (w_provider w) (Clawlett.address tokenIn) safeAddress
                          Clawlett.AeroUniversalRouter = Some allowance ->
          allowance < amountIn) /\
      tx_to t = Clawlett.ZodiacHelpers /\
      tx_data t = ApproveForRouter (Clawlett.address tokenIn)
                                   (if String.eqb approveMode "max"
                                    then MaxUint256 else amountIn)) /\
  (forall (w : World) (cfg : Config) (tokenIn : ClawWallet.TokenDescriptor)
          (amountIn : Z) (t : RoleTx),
      In (Transact t) (trace (ClawWallet.handle_approval w cfg tokenIn amountIn)) ->
      tx_to t = ClawWallet.ApprovalHelper /\
      tx_data t = ApproveForRouter (ClawWallet.address tokenIn) MaxUint256).
Proof.
  split.
  - apply maybeApprove_transacts.
  - apply handle_approval_transacts.
Qed.

Lemma C5_approval_amount_witness :
  (In (Transact (approval_of 5))
      (trace (Clawlett.maybeApprove world_usdc sample_config (safe sample_config)
                                    usdc_token' 5 "exact")) /\
   tx_data (approval_of 5) = ApproveForRouter USDC_address 5) /\
  (In (Transact (approval_of MaxUint256))
      (trace (Clawlett.maybeApprove world_usdc sample_config (safe sample_config)
                                    usdc_token' 5 "max")) /\
   tx_data (approval_of MaxUint256) = ApproveForRouter USDC_address MaxUint256) /\
  (In (Transact approval_max)
      (trace (ClawWallet.handle_approval world_usdc sample_config usdc_token 5)) /\
   tx_data approval_max = ApproveForRouter USDC_address MaxUint256).
Proof.
  assert (H1 : In (Transact (approval_of 5))
                  (trace (Clawlett.maybeApprove world_usdc sample_config
                                                (safe sample_config) usdc_token' 5 "exact")))
    by (right; left; reflexivity).
  assert (H2 : In (Transact (approval_of MaxUint256))
                  (trace (Clawlett.maybeApprove world_usdc sample_config
                                                (safe sample_config) usdc_token' 5 "max")))
    by (right; left; reflexivity).
  assert (H3 : In (Transact approval_max)
                  (trace (ClawWallet.handle_approval world_usdc sample_config usdc_token 5)))
    by (right; right; left; reflexivity).
  split; [|split].
  - split; [exact H1|].
    exact (proj2 (proj2 (proj2 (proj1 C5_approval_amount _ _ _ _ _ _ _ H1)))).
  - split; [exact H2|].
    exact (proj2 (proj2 (proj2 (proj1 C5_approval_amount _ _ _ _ _ _ _ H2)))).
  - split; [exact H3|].
    exact (proj2 (proj2 C5_approval_amount _ _ _ _ _ H3)).
Defined.

(** C5 as stated fails for the first script: with an allowance of 0 below
    the amount 5 and no mode chosen by the caller (the script has none),
    the approval issued is for MaxUint256, not for 5. *)
Lemma C5_counterexample :
  erc20_allowance (w_provider world_usdc) USDC_address (safe sample_config)
                  ClawWallet.AeroRouter = Some 0 /\
  0 < 5 /\
  In (Transact approval_max)
     (trace (ClawWallet.run world_usdc (wallet_args true))) /\
  tx_data approval_max = ApproveForRouter USDC_address MaxUint256 /\
  MaxUint256 <> 5.
Proof.
  split; [reflexivity|]. split; [reflexivity|]. split; [|split; [reflexivity|discriminate]].
  vm_compute. do 14 right. left. reflexivity.
Qed.


(** * Further properties: command line, order of steps, endings *)

(** * Further properties *)

(** ** Steps of a run *)

Lemma bind_Return {X Y : Type} (m : Run X) (k : X -> Run Y) (t : list Event) (b : Y) :
  bind m k = (t, Return b) ->
  exists t1 a t2, m = (t1, Return a) /\ k a = (t2, Return b) /\ t = t1 ++ t2.
Proof.
  unfold bind. destruct m as [t1 [a|e|c]]; try discriminate.
  destruct (k a) as [t2 o] eqn:Hk. intros H. inversion H. subst.
  exists t1, a, t2. auto.
Qed.

Lemma all_events_bind_ret {X Y : Type} (P : Event -> bool) (m : Run X) (k : X -> Run Y) :
  all_events P m -> (forall t a, m = (t, Return a) -> all_events P (k a)) ->
  all_events P (bind m k).
Proof.
  unfold all_events, bind. destruct m as [t [a|e|c]]; simpl; intros Hm Hk; auto.
  specialize (Hk t a eq_refl). destruct (k a) as [t' o]. simpl in *.
  rewrite forallb_app, Hm, Hk. reflexivity.
Qed.

Lemma bind_ret_l {X Y : Type} (a : X) (k : X -> Run Y) : bind ([], Return a) k = k a.
Proof. unfold bind. destruct (k a). reflexivity. Qed.

(** Takes a chain of binds that returns apart, step by step. *)
Ltac bind_returns H :=
  repeat (apply bind_Return in H;
          let t1 := fresh "t" in let a := fresh "a" in let t2 := fresh "t" in
          let H1 := fresh "Hstep" in let H3 := fresh "Htrace" in
          destruct H as (t1 & a & t2 & H1 & H & H3)).

(** ** The command line *)

Lemma In_skip {A : Type} (x : A) (rest : list A) :
  In x (match rest with [] => rest | _ :: r => r end) -> In x rest.
Proof. destruct rest; simpl; auto. Qed.

Section WalletCommandLine.
Variable parseFloat : string -> JsNumber.Number.

Lemma wallet_is_option (a long short : string) :
  ClawWallet.is_option a long short = true -> a = long \/ a = short.
Proof.
  unfold ClawWallet.is_option. intros H. apply orb_true_iff in H.
  destruct H as [H|H]; apply String.eqb_eq in H; auto.
Qed.

Lemma wallet_options_step (a : string) (rest next : list string)
      (r r' cl : ClawWallet.CommandLine) :
  (forall x, In x next -> In x rest) ->
  wallet_options next r' cl ->
  (ClawWallet.execute (ClawWallet.cl_args r') = true ->
   ClawWallet.execute (ClawWallet.cl_args r) = true \/ a = "--execute" \/ a = "-x") ->
  (ClawWallet.from (ClawWallet.cl_args r') = ClawWallet.from (ClawWallet.cl_args r)
   \/ a = "--from" \/ a = "-f") ->
  (ClawWallet.to (ClawWallet.cl_args r') = ClawWallet.to (ClawWallet.cl_args r)
   \/ a = "--to" \/ a = "-t") ->
  (ClawWallet.amount (ClawWallet.cl_args r') = ClawWallet.amount (ClawWallet.cl_args r)
   \/ a = "--amount" \/ a = "-a") ->
  wallet_options (a :: rest) r cl.
Proof.
  intros Hsub (He & Hf & Ht & Ha) He' Hf' Ht' Ha'. unfold wallet_options. simpl.
  repeat split.
  - intros H. destruct (He H) as [H1|[H1|H1]]; [destruct (He' H1) as [|[|]]| |]; auto.
  - destruct Hf as [H1|[H1|H1]]; [destruct Hf' as [H2|[|]]| |]; auto.
    left. congruence.
  - destruct Ht as [H1|[H1|H1]]; [destruct Ht' as [H2|[|]]| |]; auto.
    left. congruence.
  - destruct Ha as [H1|[H1|H1]]; [destruct Ha' as [H2|[|]]| |]; auto.
    left. congruence.
Qed.

(** The loop either returns without an event, having changed only the
    options it met, or prints the usage and exits with code 0. *)
Lemma wallet_parse_from_shape (n : nat) :
  forall (args : list string) (r : ClawWallet.CommandLine),
    (List.length args <= n)%nat ->
    (exists cl, ClawWallet.parse_from parseFloat args r = ([], Return cl) /\
                wallet_options args r cl) \/
    ClawWallet.parse_from parseFloat args r
    = ([Console (LInfo ClawWallet.usage)], Exit 0).
Proof.
  induction n as [|n IH]; intros args r Hlen.
  - destruct args; [|simpl in Hlen; lia]. left. exists r. split; [reflexivity|].
    unfold wallet_options. tauto.
  - destruct args as [|a rest];
      [left; exists r; split; [reflexivity|unfold wallet_options; tauto]|].
    simpl in Hlen.
    assert (Hrest : (List.length rest <= n)%nat) by lia.
    assert (Hnext : (List.length (match rest with [] => rest | _ :: r0 => r0 end) <= n)%nat)
      by (destruct rest; simpl in *; lia).
    cbn [ClawWallet.parse_from].
    repeat match goal with
    | |- context [if ClawWallet.is_option a ?l ?s then _ else _] =>
        destruct (ClawWallet.is_option a l s) eqn:?
    | |- context [if String.eqb a ?l then _ else _] =>
        destruct (String.eqb a l) eqn:?
    end.
    all: try (right; reflexivity).
    all: match goal with
         | |- context [ClawWallet.parse_from parseFloat ?l ?r'] =>
             destruct (IH l r' ltac:(assumption)) as [(cl & Hcl & Hun)|Hhelp];
               [left; exists cl; split; [exact Hcl|] | right; exact Hhelp]
         end.
    all: eapply wallet_options_step; [| exact Hun | | | |];
      first [intros x; apply In_skip | intros x Hx; exact Hx | idtac].
    all: cbn; auto.
    all: repeat match goal with
         | H : ClawWallet.is_option _ _ _ = true |- _ => apply wallet_is_option in H
         | H : String.eqb _ _ = true |- _ => apply String.eqb_eq in H
         end; tauto.
Qed.

Lemma wallet_parseArgs_shape env1 env2 dir (argv : list string) :
  (exists cl, ClawWallet.parseArgs parseFloat env1 env2 dir argv = ([], Return cl) /\
              wallet_options argv (ClawWallet.defaults env1 env2 dir) cl) \/
  ClawWallet.parseArgs parseFloat env1 env2 dir argv
  = ([Console (LInfo ClawWallet.usage)], Exit 0).
Proof. apply (wallet_parse_from_shape (List.length argv)). lia. Qed.
End WalletCommandLine.

Section CowCommandLine.
Variable parseFloat : string -> JsNumber.Number.
Variable parseInt : string -> option Z.

Lemma cow_is_option (a long short : string) :
  Cow.is_option a long short = true -> a = long \/ a = short.
Proof.
  unfold Cow.is_option. intros H. apply orb_true_iff in H.
  destruct H as [H|H]; apply String.eqb_eq in H; auto.
Qed.

Lemma cow_options_step (a : string) (rest next : list string) (r r' cl : Cow.CommandLine) :
  (forall x, In x next -> In x rest) ->
  cow_options next r' cl ->
  (Cow.execute (Cow.cl_args r') = true ->
   Cow.execute (Cow.cl_args r) = true \/ a = "--execute" \/ a = "-x") ->
  (Cow.from (Cow.cl_args r') = Cow.from (Cow.cl_args r) \/ a = "--from" \/ a = "-f") ->
  (Cow.to (Cow.cl_args r') = Cow.to (Cow.cl_args r) \/ a = "--to" \/ a = "-t") ->
  (Cow.amount (Cow.cl_args r') = Cow.amount (Cow.cl_args r) \/ a = "--amount" \/ a = "-a") ->
  cow_options (a :: rest) r cl.
Proof.
  intros Hsub (He & Hf & Ht & Ha) He' Hf' Ht' Ha'. unfold cow_options. simpl.
  repeat split.
  - intros H. destruct (He H) as [H1|[H1|H1]]; [destruct (He' H1) as [|[|]]| |]; auto.
  - destruct Hf as [H1|[H1|H1]]; [destruct Hf' as [H2|[|]]| |]; auto.
    left. congruence.
  - destruct Ht as [H1|[H1|H1]]; [destruct Ht' as [H2|[|]]| |]; auto.
    left. congruence.
  - destruct Ha as [H1|[H1|H1]]; [destruct Ha' as [H2|[|]]| |]; auto.
    left. congruence.
Qed.

Lemma cow_parse_from_shape (n : nat) :
  forall (args : list string) (r : Cow.CommandLine),
    (List.length args <= n)%nat ->
    (exists cl, Cow.parse_from parseFloat parseInt args r = ([], Return cl) /\
                cow_options args r cl) \/
    Cow.parse_from parseFloat parseInt args r = ([Console (LInfo Cow.usage)], Exit 0).
Proof.
  induction n as [|n IH]; intros args r Hlen.
  - destruct args; [|simpl in Hlen; lia]. left. exists r. split; [reflexivity|].
    unfold cow_options. tauto.
  - destruct args as [|a rest];
      [left; exists r; split; [reflexivity|unfold cow_options; tauto]|].
    simpl in Hlen.
    assert (Hrest : (List.length rest <= n)%nat) by lia.
    assert (Hnext : (List.length (match rest with [] => rest | _ :: r0 => r0 end) <= n)%nat)
      by (destruct rest; simpl in *; lia).
    cbn [Cow.parse_from].
    repeat match goal with
    | |- context [if Cow.is_option a ?l ?s then _ else _] =>
        destruct (Cow.is_option a l s) eqn:?
    | |- context [if String.eqb a ?l then _ else _] =>
        destruct (String.eqb a l) eqn:?
    end.
    all: try (right; reflexivity).
    all: match goal with
         | |- context [Cow.parse_from parseFloat parseInt ?l ?r'] =>
             destruct (IH l r' ltac:(assumption)) as [(cl & Hcl & Hun)|Hhelp];
               [left; exists cl; split; [exact Hcl|] | right; exact Hhelp]
         end.
    all: eapply cow_options_step; [| exact Hun | | | |];
      first [intros x; apply In_skip | intros x Hx; exact Hx | idtac].
    all: cbn; auto.
    all: repeat match goal with
         | H : Cow.is_option _ _ _ = true |- _ => apply cow_is_option in H
         | H : String.eqb _ _ = true |- _ => apply String.eqb_eq in H
         end; tauto.
Qed.

Lemma cow_parseArgs_shape env1 env2 dir (argv : list string) :
  (exists cl, Cow.parseArgs parseFloat parseInt env1 env2 dir argv = ([], Return cl) /\
              cow_options argv (Cow.defaults env1 env2 dir) cl) \/
  Cow.parseArgs parseFloat parseInt env1 env2 dir argv
  = ([Console (LInfo Cow.usage)], Exit 0).
Proof. apply (cow_parse_from_shape (List.length argv)). lia. Qed.
End CowCommandLine.

Lemma usage_is_quote_only (text : string) :
  quote_only_run ([Console (LInfo text)], Exit 0).
Proof.
  split; [reflexivity|]. intros pre post a b c H. exfalso.
  destruct pre as [|e pre]; [discriminate H|].
  inversion H. destruct pre; discriminate.
Qed.

(** X1.  Execution has to be asked for on the command line: when neither
    [--execute] nor [-x] is among the arguments, the first script and
    the CoW script (command line parsing included) perform no
    state-changing call, and once the summary is printed only the
    quote-only notice follows and the process ends with code 0.  This
    holds whatever else the command line holds, in every world. *)
Theorem execution_requires_the_flag :
  (forall parseFloat env1 env2 dir world_of (argv : list string),
      ~ In "--execute" argv -> ~ In "-x" argv ->
      quote_only_run (ClawWallet.script parseFloat env1 env2 dir world_of argv)) /\
  (forall parseFloat parseInt env1 env2 dir world_of sv (argv : list string),
      ~ In "--execute" argv -> ~ In "-x" argv ->
      quote_only_run (Cow.script parseFloat parseInt env1 env2 dir world_of sv argv)).
Proof.
  split.
  - intros parseFloat env1 env2 dir world_of argv Hl Hs. unfold ClawWallet.script.
    destruct (wallet_parseArgs_shape parseFloat env1 env2 dir argv)
      as [(cl & Hcl & (He & _))|Hhelp]; [rewrite Hcl | rewrite Hhelp].
    + rewrite bind_ret_l. apply ClawWallet_quote_only.
      destruct (ClawWallet.execute (ClawWallet.cl_args cl)); [|reflexivity].
      destruct (He eq_refl) as [H|[H|H]]; [discriminate H | contradiction | contradiction].
    + apply usage_is_quote_only.
  - intros parseFloat parseInt env1 env2 dir world_of sv argv Hl Hs. unfold Cow.script.
    destruct (cow_parseArgs_shape parseFloat parseInt env1 env2 dir argv)
      as [(cl & Hcl & (He & _))|Hhelp]; [rewrite Hcl | rewrite Hhelp].
    + rewrite bind_ret_l. apply Cow_quote_only.
      destruct (Cow.execute (Cow.cl_args cl)); [|reflexivity].
      destruct (He eq_refl) as [H|[H|H]]; [discriminate H | contradiction | contradiction].
    + apply usage_is_quote_only.
Qed.

Lemma wallet_missing_option (w : World) (args : ClawWallet.Args) :
  ClawWallet.from args = None \/ ClawWallet.to args = None \/ ClawWallet.amount args = None ->
  ClawWallet.run w args
  = ([Console (LFailure "Error: --from, --to, and --amount are required")], Exit 1).
Proof.
  intros H. unfold ClawWallet.run, ClawWallet.main, ClawWallet.prepare.
  replace (JsString.falsy (ClawWallet.from args) || JsString.falsy (ClawWallet.to args)
           || JsString.falsy (ClawWallet.amount args)) with true; [reflexivity|].
  destruct H as [-> | [-> | ->]]; cbn; rewrite ?orb_true_r; reflexivity.
Qed.

Lemma cow_missing_option (w : World) (sv : Cow.Services) (args : Cow.Args) :
  Cow.from args = None \/ Cow.to args = None \/ Cow.amount args = None ->
  Cow.run w sv args
  = ([Console (LFailure "Error: --from, --to, and --amount are required")], Exit 1).
Proof.
  intros H. unfold Cow.run, Cow.main, Cow.prepare.
  replace (JsString.falsy (Cow.from args) || JsString.falsy (Cow.to args)
           || JsString.falsy (Cow.amount args)) with true; [reflexivity|].
  destruct H as [-> | [-> | ->]]; cbn; rewrite ?orb_true_r; reflexivity.
Qed.

(** X2.  When one of the three required options is missing from the
    command line (neither its long nor its short form is among the
    arguments), the first script and the CoW script reach nothing
    outside the process: the run consists of console lines only, and it
    ends with exit code 1 - or, when help was asked for, with code 0
    after the usage text and nothing else. *)
Theorem missing_option_reaches_nothing :
  (forall parseFloat env1 env2 dir world_of (argv : list string),
      lacks_required argv ->
      all_events console_only
                 (ClawWallet.script parseFloat env1 env2 dir world_of argv) /\
      (outcome (ClawWallet.script parseFloat env1 env2 dir world_of argv) = Exit 1 \/
       ClawWallet.script parseFloat env1 env2 dir world_of argv
       = ([Console (LInfo ClawWallet.usage)], Exit 0))) /\
  (forall parseFloat parseInt env1 env2 dir world_of sv (argv : list string),
      lacks_required argv ->
      all_events console_only
                 (Cow.script parseFloat parseInt env1 env2 dir world_of sv argv) /\
      (outcome (Cow.script parseFloat parseInt env1 env2 dir world_of sv argv) = Exit 1 \/
       Cow.script parseFloat parseInt env1 env2 dir world_of sv argv
       = ([Console (LInfo Cow.usage)], Exit 0))).
Proof.
  split.
  - intros parseFloat env1 env2 dir world_of argv Hlack.
    unfold ClawWallet.script.
    destruct (wallet_parseArgs_shape parseFloat env1 env2 dir argv)
      as [(cl & Hcl & (_ & Hf & Ht & Ha))|Hhelp]; [rewrite Hcl | rewrite Hhelp].
    + rewrite bind_ret_l.
      change (top_level (ClawWallet.main (ClawWallet.world_at world_of cl)
                                         (ClawWallet.cl_args cl)))
        with (ClawWallet.run (ClawWallet.world_at world_of cl) (ClawWallet.cl_args cl)).
      rewrite wallet_missing_option.
      * split; [reflexivity | left; reflexivity].
      * cbn in Hf, Ht, Ha. unfold lacks_required in Hlack. tauto.
    + split; [reflexivity | right; reflexivity].
  - intros parseFloat parseInt env1 env2 dir world_of sv argv Hlack.
    unfold Cow.script.
    destruct (cow_parseArgs_shape parseFloat parseInt env1 env2 dir argv)
      as [(cl & Hcl & (_ & Hf & Ht & Ha))|Hhelp]; [rewrite Hcl | rewrite Hhelp].
    + rewrite bind_ret_l.
      change (top_level (Cow.main (Cow.world_at world_of cl) sv (Cow.cl_args cl)))
        with (Cow.run (Cow.world_at world_of cl) sv (Cow.cl_args cl)).
      rewrite cow_missing_option.
      * split; [reflexivity | left; reflexivity].
      * cbn in Hf, Ht, Ha. unfold lacks_required in Hlack. tauto.
    + split; [reflexivity | right; reflexivity].
Qed.

Section SlippageOption.
Variables parseFloat parseFloat' : string -> JsNumber.Number.
Variable parseInt : string -> option Z.

(** Two passes of the loop that differ in how they read a slippage
    differ in the slippage they store at most. *)
Lemma cow_parse_from_slippage (n : nat) :
  forall (args : list string) (r r' : Cow.CommandLine),
    (List.length args <= n)%nat ->
    same_but_slippage r r' ->
    (exists cl cl',
        Cow.parse_from parseFloat parseInt args r = ([], Return cl) /\
        Cow.parse_from parseFloat' parseInt args r' = ([], Return cl') /\
        same_but_slippage cl cl') \/
    (Cow.parse_from parseFloat parseInt args r = ([Console (LInfo Cow.usage)], Exit 0) /\
     Cow.parse_from parseFloat' parseInt args r' = ([Console (LInfo Cow.usage)], Exit 0)).
Proof.
  induction n as [|n IH]; intros args r r' Hlen Hsame.
  - destruct args; [|simpl in Hlen; lia]. left. exists r, r'. auto.
  - destruct args as [|a rest]; [left; exists r, r'; auto|].
    simpl in Hlen.
    assert (Hrest : (List.length rest <= n)%nat) by lia.
    assert (Hnext : (List.length (match rest with [] => rest | _ :: r0 => r0 end) <= n)%nat)
      by (destruct rest; simpl in *; lia).
    cbn [Cow.parse_from].
    repeat match goal with
    | |- context [if Cow.is_option a ?l ?s then _ else _] =>
        destruct (Cow.is_option a l s) eqn:?
    | |- context [if String.eqb a ?l then _ else _] =>
        destruct (String.eqb a l) eqn:?
    end.
    all: try (right; split; reflexivity).
    all: apply IH; [assumption|].
    all: destruct Hsame as (H1 & H2 & H3); unfold same_but_slippage; cbn;
      rewrite ?H1, ?H2, ?H3; auto.
Qed.
End SlippageOption.

(** X3.  The CoW script stores the [--slippage] option and never reads
    it: however the argument of the option is read as a number, the run
    is the same, event for event.  (The tolerance of a CoW order is the
    smart slippage computed from the quote.) *)
Theorem cow_slippage_option_is_ignored :
  forall (parseFloat parseFloat' : string -> JsNumber.Number) parseInt env1 env2 dir
         world_of sv (argv : list string),
    Cow.script parseFloat parseInt env1 env2 dir world_of sv argv
    = Cow.script parseFloat' parseInt env1 env2 dir world_of sv argv.
Proof.
  intros parseFloat parseFloat' parseInt env1 env2 dir world_of sv argv.
  unfold Cow.script, Cow.parseArgs.
  destruct (cow_parse_from_slippage parseFloat parseFloat' parseInt (List.length argv) argv
              (Cow.defaults env1 env2 dir) (Cow.defaults env1 env2 dir)
              (Nat.le_refl _) (conj eq_refl (conj eq_refl eq_refl)))
    as [(cl & cl' & H1 & H2 & (Ha & Hc & Hr))|[H1 H2]]; rewrite H1, H2; [|reflexivity].
  rewrite !bind_ret_l. unfold Cow.world_at. rewrite Ha, Hc, Hr. reflexivity.
Qed.

(** ** What comes first in a run *)

Section Precedence.
Variables A B : Event -> bool.

Lemma precedes_clean (t : list Event) :
  forallb (free_of B) t = true -> precedes A B t = true.
Proof.
  induction t as [|e t IH]; simpl; [reflexivity|].
  intros H. apply andb_true_iff in H. destruct H as [He Ht].
  unfold free_of in He. rewrite He, (IH Ht). apply orb_true_r.
Qed.

Lemma precedes_app_clean (t1 t2 : list Event) :
  forallb (free_of B) t1 = true -> precedes A B t2 = true ->
  precedes A B (t1 ++ t2) = true.
Proof.
  induction t1 as [|e t1 IH]; simpl; [auto|].
  intros H H2. apply andb_true_iff in H. destruct H as [He Ht].
  unfold free_of in He. rewrite He, (IH Ht H2). apply orb_true_r.
Qed.

Lemma precedes_app_seen (t1 t2 : list Event) :
  precedes A B t1 = true -> existsb A t1 = true -> precedes A B (t1 ++ t2) = true.
Proof.
  induction t1 as [|e t1 IH]; simpl; [discriminate 2|].
  destruct (A e); [reflexivity|]. simpl.
  intros H Hex. apply andb_true_iff in H. destruct H as [He Ht].
  rewrite He, (IH Ht Hex). reflexivity.
Qed.

Lemma precedes_app_r (t1 t2 : list Event) :
  precedes A B t1 = true -> forallb (free_of B) t2 = true ->
  precedes A B (t1 ++ t2) = true.
Proof.
  induction t1 as [|e t1 IH]; simpl; [intros _; apply precedes_clean|].
  destruct (A e); [reflexivity|]. simpl.
  intros H H2. apply andb_true_iff in H. destruct H as [He Ht].
  rewrite He, (IH Ht H2). reflexivity.
Qed.

Lemma guarded_clean {X : Type} (m : Run X) :
  all_events (free_of B) m -> guarded A B m.
Proof. apply precedes_clean. Qed.

Lemma guarded_bind {X Y : Type} (m : Run X) (k : X -> Run Y) :
  all_events (free_of B) m -> (forall a, guarded A B (k a)) -> guarded A B (bind m k).
Proof.
  unfold all_events, guarded, bind. destruct m as [t [a|e|c]]; simpl; intros Hm Hk.
  - specialize (Hk a). destruct (k a) as [t' o]. simpl in *.
    apply precedes_app_clean; assumption.
  - apply precedes_clean, Hm.
  - apply precedes_clean, Hm.
Qed.

Lemma guarded_bind_lift {X Y : Type} (r : Result X) (k : X -> Run Y) :
  (forall a, guarded A B (k a)) -> guarded A B (bind (lift r) k).
Proof.
  intros Hk. apply guarded_bind; [|exact Hk]. destruct r; reflexivity.
Qed.

Lemma guarded_from {X : Type} (e : Event) (k : unit -> Run X) :
  A e = true -> guarded A B (bind (emit e) k).
Proof.
  intros He. unfold guarded, bind, emit. destruct (k tt) as [t o]. simpl.
  rewrite He. reflexivity.
Qed.

Lemma guarded_bind_seen {X Y : Type} (m : Run X) (k : X -> Run Y) :
  guarded A B m ->
  (forall t a, m = (t, Return a) -> existsb A t = true) ->
  guarded A B (bind m k).
Proof.
  unfold guarded, bind. destruct m as [t [a|e|c]]; simpl; intros Hm Hs; auto.
  destruct (k a) as [t' o]. simpl.
  apply precedes_app_seen; [exact Hm | apply (Hs t a eq_refl)].
Qed.

Lemma guarded_try_catch {X : Type} (m : Run X) (h : JsError -> Run X) :
  guarded A B m -> (forall e, all_events (free_of B) (h e)) ->
  guarded A B (try_catch m h).
Proof.
  unfold guarded, all_events, try_catch. destruct m as [t [a|e|c]]; simpl; intros Hm Hh; auto.
  specialize (Hh e). destruct (h e) as [t' o]. simpl in *.
  apply precedes_app_r; assumption.
Qed.

Lemma guarded_top_level (m : Run unit) :
  (forall e, B (Console (LError e)) = false) ->
  guarded A B m -> guarded A B (top_level m).
Proof.
  intros HB. unfold guarded, top_level, try_catch.
  destruct m as [t [[]|e|c]]; simpl; auto.
  intros H. apply precedes_app_r; [exact H|]. simpl. unfold free_of. rewrite HB. reflexivity.
Qed.
End Precedence.

(** Walks through a run up to the event that opens the gate; [gate]
    closes the step that brings it when that step is a call of its own. *)
Ltac up_to_gate_with gate :=
  repeat first
    [ gate
    | apply guarded_from; reflexivity
    | apply guarded_bind_lift; intros ?
    | apply guarded_bind; [solve [run_events] | intros ?]
    | match goal with
      | |- guarded _ _ (if ?c then _ else _) => destruct c eqn:?
      | |- guarded _ _ (match ?x with _ => _ end) => destruct x eqn:?
      end ];
  try solve [apply guarded_clean; run_events].

Ltac up_to_gate := up_to_gate_with fail.

(** X4.  In every run of each of the three scripts, with or without the
    execute flag, no state-changing call (transaction, order
    submission, app-data registration) comes before the swap summary is
    printed: whatever is executed has been quoted, checked against the
    balance and shown first. *)
Theorem summary_precedes_state_changes :
  (forall (w : World) (args : ClawWallet.Args),
      precedes is_summary state_changing (trace (ClawWallet.run w args)) = true) /\
  (forall registry aliases rejected (w : World) (args : Clawlett.Args),
      precedes is_summary state_changing
               (trace (Clawlett.run registry aliases rejected w args)) = true) /\
  (forall (w : World) (sv : Cow.Services) (args : Cow.Args),
      precedes is_summary state_changing (trace (Cow.run w sv args)) = true).
Proof.
  split; [|split].
  - intros w args. apply guarded_top_level; [reflexivity|].
    unfold ClawWallet.main, ClawWallet.proceed, ClawWallet.getQuote.
    up_to_gate.
  - intros registry aliases rejected w args. apply guarded_top_level; [reflexivity|].
    unfold Clawlett.main, Clawlett.getQuote.
    up_to_gate.
  - intros w sv args. apply guarded_top_level; [reflexivity|].
    unfold Cow.main, Cow.trade, Cow.getCowQuote.
    up_to_gate.
Qed.

(** ** The steps of a CoW trade *)

Lemma submitCowOrder_posts (w : World) (sv : Cow.Services) (q : Cow.CowQuote)
      (safeAddress : string) (timeoutSeconds : option Z)
      (t : list Event) (a : string * CowOrder) :
  try_catch (Cow.submitCowOrder w sv q safeAddress timeoutSeconds)
            (fun e => bind (log (LError e)) (fun _ => exit 1)) = (t, Return a) ->
  existsb is_app_data_put t = true /\ existsb is_order_post t = true /\
  Cow.sv_orders sv (snd a) = Some (true, fst a).
Proof.
  unfold Cow.submitCowOrder, Cow.buildAppData.
  destruct (Cow.buySlippage q) as [slip|e]; cbn; [|discriminate].
  destruct (BigInt.div (slip * 10000) (Cow.q_buyAmount q)) as [bips|e]; cbn; [|discriminate].
  destruct (Cow.sv_orders sv _) as [[ok uid]|] eqn:Ho; cbn; [|discriminate].
  destruct ok; cbn; [|discriminate].
  intros H. inversion H. subst. cbn. repeat split. exact Ho.
Qed.

Lemma submitCowOrder_registers_first (w : World) (sv : Cow.Services) (q : Cow.CowQuote)
      (safeAddress : string) (timeoutSeconds : option Z) :
  guarded is_app_data_put is_order_post
          (Cow.submitCowOrder w sv q safeAddress timeoutSeconds).
Proof.
  unfold guarded, Cow.submitCowOrder, Cow.buildAppData.
  destruct (Cow.buySlippage q) as [slip|e]; cbn; [|reflexivity].
  destruct (BigInt.div (slip * 10000) (Cow.q_buyAmount q)) as [bips|e]; cbn; [|reflexivity].
  destruct (Cow.sv_orders sv _) as [[ok uid]|]; cbn; [destruct ok|]; reflexivity.
Qed.

Lemma execute_all_sends (w : World) (cfg : Config) (txs : list (string * CallData))
      (t : list Event) (a : unit) :
  Cow.execute_all w cfg txs = (t, Return a) -> txs <> [] ->
  existsb is_transaction t = true.
Proof.
  destruct txs as [|[target data] txs]; [intros _ H; contradiction H; reflexivity|].
  intros H _. cbn [Cow.execute_all] in H. unfold send, await in H.
  destruct (w_chain w _) as [status|]; [|discriminate].
  unfold bind in H. destruct (if negb (status =? 1) then _ else _) as [t' o].
  inversion H. reflexivity.
Qed.

Lemma execute_all_events (P : Event -> bool) (w : World) (cfg : Config)
      (txs : list (string * CallData)) :
  (forall t, P (Transact t) = true) -> (forall l, P (Console l) = true) ->
  all_events P (Cow.execute_all w cfg txs).
Proof.
  intros Ht Hc. induction txs as [|[target data] txs IH]; [reflexivity|].
  cbn [Cow.execute_all]. apply all_events_bind.
  - apply all_events_await, Ht.
  - intros status. destruct (negb (status =? 1)); [|exact IH].
    apply all_events_bind; [apply all_events_log, Hc | intros; apply all_events_exit].
Qed.

Ltac cow_steps :=
  run_events_with
    ltac:(first
            [ apply pollOrderStatus_events; [reflexivity | intros; reflexivity | reflexivity]
            | apply execute_all_events; intros; reflexivity
            | known_reads ]).

Ltac cow_up_to_gate_with gate :=
  repeat first
    [ gate
    | apply guarded_from; reflexivity
    | apply guarded_bind_lift; intros ?
    | apply guarded_bind; [solve [cow_steps] | intros ?]
    | match goal with
      | |- guarded _ _ (if ?c then _ else _) => destruct c eqn:?
      | |- guarded _ _ (match ?x with _ => _ end) => destruct x eqn:?
      end ];
  try solve [apply guarded_clean; cow_steps].

(** X5.  The CoW script works in a fixed order: the app data is
    registered before an order is posted, an order is posted before any
    transaction is sent, and a transaction is sent before the status of
    the order is asked for.  In every run: no order post before the
    first app-data registration, no transaction before the first order
    post, no status query before the first transaction. *)
Theorem cow_steps_in_order (w : World) (sv : Cow.Services) (args : Cow.Args) :
  precedes is_app_data_put is_order_post (trace (Cow.run w sv args)) = true /\
  precedes is_order_post is_transaction (trace (Cow.run w sv args)) = true /\
  precedes is_transaction is_status_query (trace (Cow.run w sv args)) = true.
Proof.
  split; [|split].
  - apply guarded_top_level; [reflexivity|].
    unfold Cow.main, Cow.trade, Cow.getCowQuote.
    cow_up_to_gate_with
      ltac:(idtac; match goal with
            | |- guarded _ _ (bind (try_catch (Cow.submitCowOrder _ _ _ _ _) _) _) =>
                apply guarded_bind_seen;
                [ apply guarded_try_catch;
                  [ apply submitCowOrder_registers_first | intros ?; cow_steps ]
                | intros ? ? Hret; apply submitCowOrder_posts in Hret; apply Hret ]
            end).
  - apply guarded_top_level; [reflexivity|].
    unfold Cow.main, Cow.trade, Cow.getCowQuote.
    cow_up_to_gate_with
      ltac:(idtac; match goal with
            | |- guarded _ _ (bind (try_catch (Cow.submitCowOrder _ _ _ _ _) _) _) =>
                apply guarded_bind_seen;
                [ apply guarded_clean;
                  unfold Cow.submitCowOrder, Cow.buildAppData; cow_steps
                | intros ? ? Hret; apply submitCowOrder_posts in Hret; apply Hret ]
            end).
  - apply guarded_top_level; [reflexivity|].
    unfold Cow.main, Cow.trade, Cow.getCowQuote, Cow.submitCowOrder, Cow.buildAppData.
    cow_up_to_gate_with
      ltac:(idtac; match goal with
            | |- guarded _ _ (bind (Cow.execute_all _ _ _) _) =>
                apply guarded_bind_seen;
                [ apply guarded_clean; cow_steps
                | intros ? ? Hret; apply (execute_all_sends _ _ _ _ _ Hret);
                  match goal with
                  | |- context [if ?c then _ else _] => destruct c; discriminate
                  end ]
            end).
Qed.

(** ** What the scripts send *)

Lemma ClawWallet_prepare_cfg (w : World) (args : ClawWallet.Args) (t : list Event)
      (c : ClawWallet.Checked) :
  ClawWallet.prepare w args = (t, Return c) -> w_config w = Some (ClawWallet.c_cfg c).
Proof.
  unfold ClawWallet.prepare.
  destruct (_ || _); [discriminate|].
  destruct (w_config w) as [cfg|]; [|discriminate].
  intros H. bind_returns H. inversion H. reflexivity.
Qed.

Lemma Cow_prepare_cfg (w : World) (sv : Cow.Services) (args : Cow.Args) (t : list Event)
      (p : Cow.Prepared) :
  Cow.prepare w sv args = (t, Return p) -> w_config w = Some (Cow.p_cfg p).
Proof.
  unfold Cow.prepare.
  destruct (_ || _); [discriminate|].
  destruct (w_config w) as [cfg|]; [|discriminate].
  intros H. bind_returns H.
  destruct (Cow.substitute _) as [tokenIn subIn].
  destruct (Cow.substitute _) as [tokenOut subOut].
  bind_returns H. inversion H. reflexivity.
Qed.

(** X6.  Every event of every run of the first script is a console
    line, a read, a quote request or a transaction of one of two kinds:
    an approval of MaxUint256 by delegatecall to the approval helper,
    without ETH; or a call of the Aerodrome router that is one of the
    three swap functions, pays out to the vault and carries a deadline
    of 1200 s from now, with ETH attached only to
    [swapExactETHForTokens].  Every transaction goes through the roles
    contract under the configured role key with [shouldRevert] set. *)
Theorem wallet_sends_only_approvals_and_swaps (w : World) (args : ClawWallet.Args) :
  all_events (wallet_transaction w) (ClawWallet.run w args).
Proof.
  apply all_events_top_level; [reflexivity|].
  unfold ClawWallet.main. apply all_events_bind_ret.
  - apply ClawWallet_prepare_reads; reflexivity.
  - intros t c Hc. apply ClawWallet_prepare_cfg in Hc.
    unfold ClawWallet.proceed, ClawWallet.getQuote, ClawWallet.handle_approval,
      ClawWallet.swap_data, send.
    run_events_with fail.
    all: apply all_events_await; unfold wallet_transaction; rewrite Hc; cbn.
    all: rewrite ?String.eqb_refl, ?Z.eqb_refl; try reflexivity.
    all: repeat match goal with
         | |- context [if ?c then _ else _] => destruct c
         end; cbn; rewrite ?String.eqb_refl, ?Z.eqb_refl; reflexivity.
Qed.



Lemma execute_all_calls (w : World) (cfg : Config) (helper : string)
      (txs : list (string * CallData)) :
  w_config w = Some cfg -> zodiacHelpers cfg = Some helper ->
  forallb (fun td => String.eqb (fst td) helper &&
                     match snd td with
                     | WrapETH amount => 0 <? amount
                     | CowPreSign _ _ => true
                     | _ => false
                     end) txs = true ->
  all_events (cow_call w) (Cow.execute_all w cfg txs).
Proof.
  intros Hc Hh. induction txs as [|[target data] txs IH]; [reflexivity|].
  intros H. cbn [forallb fst snd] in H. apply andb_true_iff in H. destruct H as [Htd Ht].
  apply andb_true_iff in Htd. destruct Htd as [Hto Hd].
  cbn [Cow.execute_all]. apply all_events_bind.
  - apply all_events_await. unfold cow_call. rewrite Hc, Hh. cbn.
    rewrite Hto, String.eqb_refl. cbn. exact Hd.
  - intros status. destruct (negb (status =? 1)); [reflexivity | apply IH, Ht].
Qed.

(** X8.  Every transaction of every run of the CoW script is a
    delegatecall without ETH to the ZodiacHelpers address of the
    configuration, under the configured role key with [shouldRevert]
    set, and it either wraps a positive amount of ETH or presigns an
    order; every order document it posts is placed from the vault,
    signed by the vault's address under the presign scheme. *)
Theorem cow_sends_only_wraps_and_presignatures (w : World) (sv : Cow.Services)
        (args : Cow.Args) :
  all_events (cow_call w) (Cow.run w sv args).
Proof.
  apply all_events_top_level; [reflexivity|].
  unfold Cow.main. apply all_events_bind_ret.
  - apply Cow_prepare_reads; reflexivity.
  - intros t p Hp. apply Cow_prepare_cfg in Hp.
    apply all_events_bind; [apply Cow_check_balance_reads; reflexivity|]. intros bw.
    unfold Cow.trade, Cow.getCowQuote, Cow.submitCowOrder, Cow.buildAppData.
    run_events_with
      ltac:(first
              [ apply all_events_bind_lift; intros ? ?
              | apply pollOrderStatus_events; [reflexivity | intros; reflexivity | reflexivity]
              | match goal with
                | |- all_events _ (Cow.execute_all _ _ _) =>
                    eapply execute_all_calls; [exact Hp | eassumption |]
                end ]).
    + apply all_events_await. unfold cow_call. rewrite Hp. cbn.
      rewrite !String.eqb_refl. reflexivity.
    + rewrite forallb_app. cbn [forallb fst snd]. rewrite ?String.eqb_refl.
      match goal with
      | |- context [if ?c then _ else _] => destruct c eqn:Hw
      end; cbn [forallb fst snd andb]; rewrite ?String.eqb_refl, ?Hw; reflexivity.
Qed.

(** ** What exit code 0 stands for *)

Section Endings.
Context {X : Type}.

Lemma no_exit0_ret (a : X) : no_exit0 (ret a).
Proof. discriminate. Qed.

Lemma no_exit0_throw (e : JsError) : no_exit0 (@throw X e).
Proof. discriminate. Qed.

Lemma no_exit0_exit1 : no_exit0 (@exit X 1).
Proof. discriminate. Qed.

Lemma no_exit0_lift (r : Result X) : no_exit0 (lift r).
Proof. destruct r; discriminate. Qed.

Lemma no_exit0_await (ev : Event) (reply : option X) (e : JsError) :
  no_exit0 (await ev reply e).
Proof. destruct reply; discriminate. Qed.

Lemma no_exit0_try_catch (m : Run X) (h : JsError -> Run X) :
  no_exit0 m -> (forall e, no_exit0 (h e)) -> no_exit0 (try_catch m h).
Proof.
  unfold no_exit0, try_catch, outcome.
  destruct m as [t [a|e|c]]; simpl; intros Hm Hh.
  - discriminate.
  - specialize (Hh e). destruct (h e) as [t' o]. exact Hh.
  - exact Hm.
Qed.
End Endings.

Lemma no_exit0_emit (e : Event) : no_exit0 (emit e).
Proof. discriminate. Qed.

Lemma no_exit0_log (l : LogLine) : no_exit0 (log l).
Proof. discriminate. Qed.

Lemma no_exit0_bind {X Y : Type} (m : Run X) (k : X -> Run Y) :
  no_exit0 m -> (forall a, no_exit0 (k a)) -> no_exit0 (bind m k).
Proof.
  unfold no_exit0, bind, outcome.
  destruct m as [t [a|e|c]]; simpl; intros Hm Hk.
  - specialize (Hk a). destruct (k a) as [t' o]. exact Hk.
  - discriminate.
  - intros H. apply Hm. inversion H. reflexivity.
Qed.

(** Walks through a run that has no [process.exit(0)]. *)
Ltac exit_steps_with known :=
  repeat first
    [ known
    | apply no_exit0_ret
    | apply no_exit0_throw
    | apply no_exit0_exit1
    | apply no_exit0_lift
    | apply no_exit0_log
    | apply no_exit0_emit
    | apply no_exit0_await
    | apply no_exit0_bind; [|intros ?]
    | apply no_exit0_try_catch; [|intros ?]
    | match goal with
      | |- no_exit0 (if ?c then _ else _) => destruct c eqn:?
      | |- no_exit0 (match ?x with _ => _ end) => destruct x eqn:?
      end ].

Lemma ClawWallet_read_metadata_no_exit0 (w : World) (addr : string) :
  no_exit0 (ClawWallet.read_metadata w addr).
Proof.
  unfold ClawWallet.read_metadata, no_exit0, outcome. cbn.
  destruct (erc20_symbol _ _); [destruct (erc20_decimals _ _)|]; discriminate.
Qed.

Lemma Clawlett_read_metadata_no_exit0 (w : World) (addr : string) :
  no_exit0 (Clawlett.read_metadata w addr).
Proof.
  unfold Clawlett.read_metadata, no_exit0, outcome. cbn.
  destruct (erc20_symbol _ _); [destruct (erc20_decimals _ _)|]; discriminate.
Qed.

Lemma ClawWallet_prepare_no_exit0 (w : World) (args : ClawWallet.Args) :
  no_exit0 (ClawWallet.prepare w args).
Proof.
  unfold ClawWallet.prepare, ClawWallet.resolve_or_exit, ClawWallet.read_balance,
    ClawWallet.resolveToken, ClawWallet.resolveByAddress.
  exit_steps_with ltac:(apply ClawWallet_read_metadata_no_exit0).
Qed.

Lemma Clawlett_resolveToken_no_exit0 registry aliases (w : World) (token : string) :
  no_exit0 (Clawlett.resolveToken registry aliases w token).
Proof.
  unfold Clawlett.resolveToken, Clawlett.resolveByAddress.
  exit_steps_with ltac:(apply Clawlett_read_metadata_no_exit0).
Qed.

Lemma Clawlett_preflight_no_exit0 (w : World) (cfg : Config) (safeAddress : string) :
  no_exit0 (Clawlett.preflight w cfg safeAddress).
Proof. unfold Clawlett.preflight. exit_steps_with fail. Qed.

Lemma Cow_prepare_no_exit0 (w : World) (sv : Cow.Services) (args : Cow.Args) :
  no_exit0 (Cow.prepare w sv args).
Proof. unfold Cow.prepare, Cow.resolve_or_exit. exit_steps_with fail. Qed.

Lemma Cow_check_balance_no_exit0 (w : World) safeAddress tokenIn ethSubstituted amountIn :
  no_exit0 (Cow.check_balance w safeAddress tokenIn ethSubstituted amountIn).
Proof. unfold Cow.check_balance. exit_steps_with fail. Qed.

Lemma execute_all_no_exit0 (w : World) (cfg : Config) (txs : list (string * CallData)) :
  no_exit0 (Cow.execute_all w cfg txs).
Proof.
  induction txs as [|[target data] txs IH]; [discriminate|].
  cbn [Cow.execute_all]. exit_steps_with ltac:(exact IH).
Qed.

Section Success.
Variable Q : Event -> bool.

Lemma on_success_bind {X Y : Type} (m : Run X) (k : X -> Run Y) :
  no_exit0 m -> (forall a, on_success Q (k a)) -> on_success Q (bind m k).
Proof.
  unfold no_exit0, on_success, bind, outcome, trace.
  destruct m as [t [a|e|c]]; simpl; intros Hm Hk.
  - specialize (Hk a). destruct (k a) as [t' o]. simpl in *.
    destruct o as [b|e|[|c|c]]; try exact I; rewrite existsb_app, Hk; apply orb_true_r.
  - exact I.
  - destruct c; [contradiction Hm; reflexivity | exact I | exact I].
Qed.

Lemma on_success_bind_hit {X Y : Type} (m : Run X) (k : X -> Run Y) :
  no_exit0 m -> (forall t a, m = (t, Return a) -> existsb Q t = true) ->
  on_success Q (bind m k).
Proof.
  unfold no_exit0, on_success, bind, outcome, trace.
  destruct m as [t [a|e|c]]; simpl; intros Hm Hk.
  - specialize (Hk t a eq_refl). destruct (k a) as [t' o]. simpl.
    destruct o as [b|e|[|c|c]]; try exact I; rewrite existsb_app, Hk; reflexivity.
  - exact I.
  - destruct c; [contradiction Hm; reflexivity | exact I | exact I].
Qed.

Lemma on_success_top_level (m : Run unit) :
  on_success Q m -> on_success Q (top_level m).
Proof.
  unfold on_success, top_level, try_catch, outcome, trace.
  destruct m as [t [[]|e|c]]; simpl; auto.
Qed.
End Success.

Lemma on_success_send {Y : Type} (w : World) (sel : RoleTx -> bool) (tx : RoleTx)
      (k : Z -> Run Y) :
  sel tx = true ->
  (forall status, status <> 1 -> on_success (mined w sel) (k status)) ->
  on_success (mined w sel) (bind (send (w_chain w) tx) k).
Proof.
  intros Hsel Hk. unfold send, await.
  destruct (w_chain w tx) as [status|] eqn:Hc; [|exact I].
  unfold on_success, bind, outcome, trace.
  destruct (Z.eq_dec status 1) as [->|Hne].
  - destruct (k 1) as [t' o]. simpl. rewrite Hsel, Hc. simpl.
    destruct o as [b|e|[|c|c]]; exact I || reflexivity.
  - specialize (Hk status Hne). unfold on_success, outcome, trace in Hk.
    destruct (k status) as [t' o]. simpl in *.
    destruct o as [b|e|[|c|c]]; try exact I; rewrite Hk; apply orb_true_r.
Qed.

(** Walks through a run up to the transaction that decides it. *)
Ltac success_steps_with special known :=
  repeat first
    [ special
    | apply on_success_send;
      [ reflexivity
      | let status := fresh "status" in let Hne := fresh "Hne" in
        intros status Hne; apply Z.eqb_neq in Hne; rewrite Hne; cbn [negb]; exact I ]
    | apply on_success_bind; [solve [exit_steps_with known] | intros ?]
    | match goal with
      | |- on_success _ (if ?c then _ else _) => destruct c eqn:?
      | |- on_success _ (match ?x with _ => _ end) => destruct x eqn:?
      end
    | exact I ].

Lemma wallet_success (w : World) (args : ClawWallet.Args) :
  ClawWallet.execute args = true ->
  on_success (mined w to_router) (ClawWallet.run w args).
Proof.
  intros He. apply on_success_top_level.
  unfold ClawWallet.main, ClawWallet.proceed. rewrite He. cbn [negb].
  unfold ClawWallet.getQuote, ClawWallet.handle_approval.
  success_steps_with fail ltac:(apply ClawWallet_prepare_no_exit0).
Qed.

Lemma clawlett_success registry aliases rejected (w : World) (args : Clawlett.Args) :
  Clawlett.execute args = true ->
  on_success (mined w is_raw_call) (Clawlett.run registry aliases rejected w args).
Proof.
  intros He. apply on_success_top_level.
  unfold Clawlett.main. rewrite He. cbn [negb].
  unfold Clawlett.getQuote, Clawlett.maybeApprove, Clawlett.simulateExecution.
  success_steps_with fail
    ltac:(first [ apply Clawlett_resolveToken_no_exit0
                | apply Clawlett_preflight_no_exit0 ]).
Qed.

(** X9.  Exit code 0 after a run with the execute flag means that the
    swap went through: the first script has then sent a transaction to
    the Aerodrome router, and the reworked script a transaction with the
    quoted call data, that was mined with status 1. *)
Theorem exit_0_means_swap_mined :
  (forall (w : World) (args : ClawWallet.Args),
      ClawWallet.execute args = true ->
      outcome (ClawWallet.run w args) = Exit 0 ->
      existsb (mined w to_router) (trace (ClawWallet.run w args)) = true) /\
  (forall registry aliases rejected (w : World) (args : Clawlett.Args),
      Clawlett.execute args = true ->
      outcome (Clawlett.run registry aliases rejected w args) = Exit 0 ->
      existsb (mined w is_raw_call)
              (trace (Clawlett.run registry aliases rejected w args)) = true).
Proof.
  split.
  - intros w args He Hout. pose proof (wallet_success w args He) as H.
    unfold on_success in H. rewrite Hout in H. exact H.
  - intros registry aliases rejected w args He Hout.
    pose proof (clawlett_success registry aliases rejected w args He) as H.
    unfold on_success in H. rewrite Hout in H. exact H.
Qed.

(** ** Polling *)

Lemma terminal_poll_result (status : string) :
  Cow.terminal status = true -> poll_result status = true.
Proof.
  unfold Cow.terminal, poll_result. intros H. rewrite H. reflexivity.
Qed.

Lemma poll_loop_outcome (pw : Cow.PollWorld) (orderUid : string) (timeoutMs : Z) :
  forall (fuel : nat) (elapsed : Z) (k : nat) (r : Run string),
    Cow.poll_loop fuel pw orderUid timeoutMs elapsed k = Some r ->
    poll_outcome (outcome r) = true.
Proof.
  induction fuel as [|fuel IH]; intros elapsed k r; cbn [Cow.poll_loop].
  - destruct (elapsed <? timeoutMs); [discriminate|].
    intros H. inversion H. reflexivity.
  - destruct (elapsed <? timeoutMs); [|intros H; inversion H; reflexivity].
    destruct (Cow.pw_reply pw k) as [| |status].
    + intros H. inversion H. reflexivity.
    + destruct (Cow.poll_loop fuel pw orderUid timeoutMs _ (S k)) as [rest|] eqn:Hrest;
        [|discriminate].
      intros H. inversion H. apply (IH _ _ _ Hrest).
    + destruct (Cow.terminal status) eqn:Ht.
      * intros H. inversion H. apply terminal_poll_result, Ht.
      * destruct (Cow.poll_loop fuel pw orderUid timeoutMs _ (S k)) as [rest|] eqn:Hrest;
          [|discriminate].
        intros H. inversion H. apply (IH _ _ _ Hrest).
Qed.

Lemma pollOrderStatus_outcome_shape (pw : Cow.PollWorld) (orderUid : string)
      (timeoutMs : option Z) :
  poll_outcome (outcome (Cow.pollOrderStatus pw orderUid timeoutMs)) = true.
Proof.
  unfold Cow.pollOrderStatus. destruct timeoutMs as [t|]; [|reflexivity].
  destruct (Cow.poll_loop _ pw orderUid t 0 0) as [r|] eqn:Hr; [|reflexivity].
  apply (poll_loop_outcome _ _ _ _ _ _ _ Hr).
Qed.

(** X10.  Whatever the auction service answers and however long it
    takes, [pollOrderStatus] ends in one of five ways: it returns
    'fulfilled', 'expired', 'cancelled' or 'timeout', or a status request
    rejects and the rejection is passed on.  It never returns another
    status (an unknown status is polled again) and it never ends the
    process itself; a status it returns other than 'timeout' is one the
    service gave. *)
Theorem polling_ends_in_one_of_four_statuses (pw : Cow.PollWorld) (orderUid : string)
        (timeoutMs : option Z) :
  poll_outcome (outcome (Cow.pollOrderStatus pw orderUid timeoutMs)) = true /\
  (forall status,
      outcome (Cow.pollOrderStatus pw orderUid timeoutMs) = Return status ->
      status <> "timeout" ->
      exists k, Cow.pw_reply pw k = Cow.Status status).
Proof.
  split; [apply pollOrderStatus_outcome_shape|].
  intros status. unfold Cow.pollOrderStatus.
  destruct timeoutMs as [t|]; [|intros H Hne; inversion H; subst; contradiction Hne; reflexivity].
  destruct (Cow.poll_loop _ pw orderUid t 0 0) as [r|] eqn:Hr;
    [|intros H Hne; inversion H; subst; contradiction Hne; reflexivity].
  revert Hr. generalize (Cow.poll_fuel t) 0 0%nat. clear. intros fuel. revert r.
  induction fuel as [|fuel IH]; intros r elapsed k; cbn [Cow.poll_loop].
  - destruct (elapsed <? t); [discriminate|].
    intros H Ho Hne. inversion H. subst r. inversion Ho. subst. contradiction Hne. reflexivity.
  - destruct (elapsed <? t);
      [|intros H Ho Hne; inversion H; subst r; inversion Ho; subst;
        contradiction Hne; reflexivity].
    destruct (Cow.pw_reply pw k) as [| |reply] eqn:Hreply.
    + intros H Ho. inversion H. subst r. discriminate Ho.
    + destruct (Cow.poll_loop fuel pw orderUid t _ (S k)) as [rest|] eqn:Hrest;
        [|discriminate].
      intros H Ho Hne. inversion H. subst r. apply (IH _ _ _ Hrest Ho Hne).
    + destruct (Cow.terminal reply).
      * intros H Ho _. inversion H. subst r. inversion Ho. subst. exists k. exact Hreply.
      * destruct (Cow.poll_loop fuel pw orderUid t _ (S k)) as [rest|] eqn:Hrest;
          [|discriminate].
        intros H Ho Hne. inversion H. subst r. apply (IH _ _ _ Hrest Ho Hne).
Qed.

Lemma poll_loop_query_bound (pw : Cow.PollWorld) (orderUid : string) (timeoutMs : Z) :
  forall (fuel : nat) (elapsed : Z) (k : nat) (r : Run string),
    Cow.poll_loop fuel pw orderUid timeoutMs elapsed k = Some r ->
    status_queries (trace r) = 0%nat \/
    elapsed + Cow.pollInterval * (Z.of_nat (status_queries (trace r)) - 1) < timeoutMs.
Proof.
  unfold Cow.pollInterval.
  induction fuel as [|fuel IH]; intros elapsed k r; cbn [Cow.poll_loop].
  - destruct (elapsed <? timeoutMs); [discriminate|].
    intros H. inversion H. left. reflexivity.
  - destruct (elapsed <? timeoutMs) eqn:Hlt; [|intros H; inversion H; left; reflexivity].
    apply Z.ltb_lt in Hlt.
    destruct (Cow.pw_reply pw k) as [| |status].
    + intros H. inversion H. right. unfold status_queries, trace.
      cbn [fst filter is_status_query List.length]. lia.
    + destruct (Cow.poll_loop fuel pw orderUid timeoutMs _ (S k)) as [rest|] eqn:Hrest;
        [|discriminate].
      intros H. inversion H. right. unfold after, status_queries, trace.
      cbn [fst app filter is_status_query List.length]. rewrite Nat2Z.inj_succ.
      destruct (IH _ _ _ Hrest) as [H0|Hb];
          unfold status_queries, trace, Cow.pollInterval in *.
      * rewrite H0. lia.
      * lia.
    + destruct (Cow.terminal status).
      * intros H. inversion H. right. unfold status_queries, trace.
        cbn [fst filter is_status_query List.length]. lia.
      * destruct (Cow.poll_loop fuel pw orderUid timeoutMs _ (S k)) as [rest|] eqn:Hrest;
          [|discriminate].
        intros H. inversion H. right. unfold after, status_queries, trace.
        cbn [fst app filter is_status_query List.length]. rewrite Nat2Z.inj_succ.
        destruct (IH _ _ _ Hrest) as [H0|Hb];
          unfold status_queries, trace, Cow.pollInterval in *.
        -- rewrite H0. lia.
        -- lia.
Qed.

(** X11.  [pollOrderStatus] asks for the status at most once per poll
    interval of the timeout: the n-th status query is made only if
    5000 * (n - 1) ms lie within the timeout, so at most
    ceil(timeoutMs / 5000) queries are made, whatever the service
    answers; none is made when the timeout is zero, negative or NaN. *)
Theorem polling_queries_are_bounded (pw : Cow.PollWorld) (orderUid : string)
        (timeoutMs : option Z) :
  let n := status_queries (trace (Cow.pollOrderStatus pw orderUid timeoutMs)) in
  match timeoutMs with
  | Some t => n = 0%nat \/ Cow.pollInterval * (Z.of_nat n - 1) < t
  | None => n = 0%nat
  end.
Proof.
  unfold Cow.pollOrderStatus. destruct timeoutMs as [t|]; [|reflexivity].
  destruct (Cow.poll_loop _ pw orderUid t 0 0) as [r|] eqn:Hr; [|left; reflexivity].
  destruct (poll_loop_query_bound _ _ _ _ _ _ _ Hr) as [H|H]; [left; exact H | right; lia].
Qed.

Lemma execute_all_mined (w : World) (cfg : Config) (txs : list (string * CallData))
      (t : list Event) (a : unit) :
  Cow.execute_all w cfg txs = (t, Return a) ->
  existsb (fun td => match snd td with CowPreSign _ _ => true | _ => false end) txs = true ->
  existsb (mined w is_presign) t = true.
Proof.
  intros Hret.
  assert (Ho : outcome (Cow.execute_all w cfg txs) = Return a) by (rewrite Hret; reflexivity).
  replace t with (trace (Cow.execute_all w cfg txs)) by (rewrite Hret; reflexivity).
  clear Hret. revert Ho.
  induction txs as [|[target data] txs IH]; intros Ho Hex; [discriminate Hex|].
  cbn [Cow.execute_all] in *. unfold send, await in *.
  destruct (w_chain w _) as [status|] eqn:Hc; [|discriminate Ho].
  cbn [bind] in *. destruct (status =? 1) eqn:Hs; cbn [negb] in *; [|discriminate Ho].
  apply Z.eqb_eq in Hs. subst status.
  destruct (Cow.execute_all w cfg txs) as [t' o].
  cbn [outcome trace fst snd app existsb mined] in *.
  cbn [existsb snd] in Hex. apply orb_true_iff in Hex. destruct Hex as [Hd|Hex].
  - rewrite Hc. unfold is_presign. cbn [tx_data]. destruct data; try discriminate Hd.
    reflexivity.
  - rewrite (IH Ho Hex). apply orb_true_r.
Qed.

Lemma poll_loop_queried (pw : Cow.PollWorld) (orderUid : string) (timeoutMs : Z) :
  forall (fuel : nat) (elapsed : Z) (k : nat) (t : list Event) (status : string),
    Cow.poll_loop fuel pw orderUid timeoutMs elapsed k = Some (t, Return status) ->
    status <> "timeout" -> In (OrderStatusGet orderUid) t.
Proof.
  induction fuel as [|fuel IH]; intros elapsed k t status; cbn [Cow.poll_loop].
  - destruct (elapsed <? timeoutMs); [discriminate|].
    intros H Hne. inversion H. subst. contradiction Hne. reflexivity.
  - destruct (elapsed <? timeoutMs);
      [|intros H Hne; inversion H; subst; contradiction Hne; reflexivity].
    destruct (Cow.pw_reply pw k) as [| |reply]; [discriminate| |].
    + destruct (Cow.poll_loop fuel pw orderUid timeoutMs _ (S k)) as [[t' o]|]; [|discriminate].
      intros H _. inversion H. left. reflexivity.
    + destruct (Cow.terminal reply).
      * intros H _. inversion H. left. reflexivity.
      * destruct (Cow.poll_loop fuel pw orderUid timeoutMs _ (S k)) as [[t' o]|];
          [|discriminate].
        intros H _. inversion H. left. reflexivity.
Qed.

Lemma on_success_poll {Y : Type} (pw : Cow.PollWorld) (orderUid : string)
      (timeoutMs : option Z) (k : string -> Run Y) :
  (forall status, status <> "fulfilled" ->
                  on_success (reported_fulfilled pw timeoutMs) (k status)) ->
  on_success (reported_fulfilled pw timeoutMs)
             (bind (Cow.pollOrderStatus pw orderUid timeoutMs) k).
Proof.
  intros Hk.
  destruct (Cow.pollOrderStatus pw orderUid timeoutMs) as [t [status|e|c]] eqn:Hp;
    [|exact I|].
  - destruct (String.eqb_spec status "fulfilled") as [->|Hne].
    + assert (Hin : In (OrderStatusGet orderUid) t).
      { unfold Cow.pollOrderStatus in Hp. destruct timeoutMs as [ms|]; [|discriminate Hp].
        destruct (Cow.poll_loop _ pw orderUid ms 0 0) as [r|] eqn:Hl; [|discriminate Hp].
        subst r. apply (poll_loop_queried _ _ _ _ _ _ _ _ Hl). discriminate. }
      assert (Hex : existsb (reported_fulfilled pw timeoutMs) t = true).
      { apply existsb_exists. exists (OrderStatusGet orderUid). split; [exact Hin|].
        unfold reported_fulfilled. rewrite Hp. reflexivity. }
      unfold on_success, bind, outcome, trace. destruct (k "fulfilled") as [t' o]. simpl.
      rewrite existsb_app, Hex. destruct o as [b|e|[|c|c]]; exact I || reflexivity.
    + specialize (Hk status Hne). unfold on_success, bind, outcome, trace in *.
      destruct (k status) as [t' o]. simpl in *.
      destruct o as [b|e|[|c|c]]; try exact I; rewrite existsb_app, Hk; apply orb_true_r.
  - unfold on_success, bind, outcome, trace. simpl. destruct c; try exact I.
    exfalso. pose proof (pollOrderStatus_outcome_shape pw orderUid timeoutMs) as Hs.
    rewrite Hp in Hs. discriminate Hs.
Qed.

Lemma cow_presign_mined (w : World) (sv : Cow.Services) (args : Cow.Args) :
  Cow.execute args = true ->
  on_success (mined w is_presign) (Cow.run w sv args).
Proof.
  intros He. apply on_success_top_level.
  unfold Cow.main, Cow.trade. rewrite He. cbn [negb].
  unfold Cow.getCowQuote, Cow.submitCowOrder, Cow.buildAppData.
  success_steps_with
    ltac:(idtac; match goal with
          | |- on_success _ (bind (Cow.execute_all _ _ _) _) =>
              apply on_success_bind_hit;
              [ apply execute_all_no_exit0
              | intros ? ? Hret; apply (execute_all_mined _ _ _ _ _ Hret);
                rewrite existsb_app; apply orb_true_r ]
          end)
    ltac:(first [ apply Cow_prepare_no_exit0 | apply Cow_check_balance_no_exit0 ]).
Qed.

Lemma cow_fulfilled (w : World) (sv : Cow.Services) (args : Cow.Args) :
  Cow.execute args = true ->
  on_success (reported_fulfilled (Cow.sv_poll sv) (option_map (Z.mul 1000) (Cow.timeout args)))
             (Cow.run w sv args).
Proof.
  intros He. apply on_success_top_level.
  unfold Cow.main, Cow.trade. rewrite He. cbn [negb].
  unfold Cow.getCowQuote, Cow.submitCowOrder, Cow.buildAppData.
  success_steps_with
    ltac:(idtac; match goal with
          | |- on_success _ (bind (Cow.pollOrderStatus _ _ _) _) =>
              apply on_success_poll;
              let status := fresh "status" in let Hne := fresh "Hne" in
              intros status Hne; apply String.eqb_neq in Hne; rewrite Hne
          end)
    ltac:(first [ apply Cow_prepare_no_exit0 | apply Cow_check_balance_no_exit0
                | apply execute_all_no_exit0 ]).
Qed.

(** X12.  Exit code 0 after a run of the CoW script with the execute
    flag means that the order was placed and filled: a presignature was
    sent and mined with status 1, and polling the order the run asked
    about ended with the status 'fulfilled'. *)
Theorem cow_exit_0_means_order_filled (w : World) (sv : Cow.Services) (args : Cow.Args) :
  Cow.execute args = true ->
  outcome (Cow.run w sv args) = Exit 0 ->
  existsb (mined w is_presign) (trace (Cow.run w sv args)) = true /\
  existsb (reported_fulfilled (Cow.sv_poll sv) (option_map (Z.mul 1000) (Cow.timeout args)))
          (trace (Cow.run w sv args)) = true.
Proof.
  intros He Hout. split.
  - pose proof (cow_presign_mined w sv args He) as H.
    unfold on_success in H. rewrite Hout in H. exact H.
  - pose proof (cow_fulfilled w sv args He) as H.
    unfold on_success in H. rewrite Hout in H. exact H.
Qed.

(** ** The balance check and the smart slippage of the CoW script *)

(** X13.  When the balance check of the CoW script lets the run go on,
    the balance it reports covers the amount, and the amount to wrap is
    either zero or, ETH having been substituted by WETH, exactly what
    the WETH balance lacks: positive, and not more than the native
    balance of the vault. *)
Theorem wrap_covers_the_shortfall (w : World) (safeAddress : string)
        (tokenIn : Cow.TokenDescriptor) (ethSubstituted : bool) (amountIn : Z)
        (t : list Event) (balance wrapAmount : Z) :
  Cow.check_balance w safeAddress tokenIn ethSubstituted amountIn
  = (t, Return (balance, wrapAmount)) ->
  amountIn <= balance /\
  (wrapAmount = 0 \/
   (ethSubstituted = true /\ 0 < wrapAmount /\
    exists wethBalance ethBalance,
      erc20_balanceOf (w_provider w) Cow.WETH_ADDRESS safeAddress = Some wethBalance /\
      getBalance (w_provider w) safeAddress = Some ethBalance /\
      wrapAmount = amountIn - wethBalance /\ wrapAmount <= ethBalance)).
Proof.
  unfold Cow.check_balance.
  destruct ethSubstituted; cbn [andb].
  - destruct (String.eqb _ _).
    + destruct (erc20_balanceOf _ _ _) as [wethBalance|] eqn:Hw; cbn; [|discriminate].
      destruct (getBalance _ _) as [ethBalance|] eqn:He; cbn; [|discriminate].
      destruct (amountIn <=? wethBalance) eqn:H1; cbn.
      * intros H. inversion H. subst. apply Z.leb_le in H1. split; [exact H1 | left; reflexivity].
      * destruct (amountIn <=? wethBalance + ethBalance) eqn:H2; cbn; [|discriminate].
        intros H. inversion H. subst. apply Z.leb_gt in H1. apply Z.leb_le in H2.
        split; [lia|]. right. split; [reflexivity|]. split; [lia|].
        exists wethBalance, ethBalance. repeat split; lia.
    + destruct (erc20_balanceOf _ _ _) as [b|]; cbn; [|discriminate].
      destruct (b <? amountIn) eqn:Hb; cbn; [discriminate|].
      intros H. inversion H. subst. apply Z.ltb_ge in Hb. split; [exact Hb | left; reflexivity].
  - destruct (erc20_balanceOf _ _ _) as [b|]; cbn; [|discriminate].
    destruct (b <? amountIn) eqn:Hb; cbn; [discriminate|].
    intros H. inversion H. subst. apply Z.ltb_ge in Hb. split; [exact Hb | left; reflexivity].
Qed.

(** X14.  For a quote with a positive sell amount and a fee and a buy
    amount that are not negative, the smart slippage is not negative
    and not below the share of the buy amount that 0.5% of the sell
    amount stands for, so the order never asks for more than the quote
    offers; and it does not exceed the buy amount as long as 1.5 times
    the fee plus 0.5% of the sell amount do not exceed the sell amount.
    With a zero sell amount the slippage lies between 0 and the buy
    amount. *)
Theorem smart_slippage_bounds (q : Cow.CowQuote) :
  0 <= Cow.q_sellAmount q -> 0 <= Cow.q_feeAmount q -> 0 <= Cow.q_buyAmount q ->
  exists slip,
    Cow.buySlippage q = Ok slip /\
    0 <= slip /\
    (0 < Cow.q_sellAmount q ->
     Z.quot (Z.quot (Cow.q_sellAmount q * 5) 1000 * Cow.q_buyAmount q) (Cow.q_sellAmount q)
     <= slip) /\
    (Z.quot (Cow.q_feeAmount q * 3) 2 + Z.quot (Cow.q_sellAmount q * 5) 1000
     <= Cow.q_sellAmount q ->
     slip <= Cow.q_buyAmount q).
Proof.
  intros Hs Hf Hb. unfold Cow.buySlippage, BigInt.div. cbn [rbind Z.eqb].
  set (s := Cow.q_sellAmount q) in *. set (f := Cow.q_feeAmount q) in *.
  set (b := Cow.q_buyAmount q) in *.
  assert (Hf' : 0 <= Z.quot (f * 3) 2) by (apply Z.quot_pos; lia).
  assert (Hv' : 0 <= Z.quot (s * 5) 1000) by (apply Z.quot_pos; lia).
  destruct (0 <? s) eqn:Hpos.
  - apply Z.ltb_lt in Hpos.
    replace (s =? 0) with false by (symmetry; apply Z.eqb_neq; lia).
    eexists. split; [reflexivity|]. split; [|split].
    + apply Z.quot_pos; nia.
    + intros _. apply Z.quot_le_mono; nia.
    + intros Hle.
      replace b with (Z.quot (s * b) s) at 2 by (rewrite Z.mul_comm; apply Z.quot_mul; lia).
      apply Z.quot_le_mono; nia.
  - apply Z.ltb_ge in Hpos. assert (s = 0) by lia.
    eexists. split; [reflexivity|]. split; [|split].
    + apply Z.quot_pos; lia.
    + intros Hlt. lia.
    + intros _. rewrite Z.quot_div_nonneg by lia.
      apply Z.div_le_upper_bound; lia.
Qed.

(** X15.  A quote whose buy amount is zero ends the trade before
    anything is placed: computing the slippage percentage for the
    summary divides by the buy amount, which throws a RangeError, so no
    app data is registered, no order is posted and no transaction is
    sent. *)
Theorem zero_buy_amount_stops_the_trade (w : World) (sv : Cow.Services) (args : Cow.Args)
        (p : Cow.Prepared) (wrapAmount : Z) (q : Cow.CowQuote) :
  Cow.sv_quote sv (Cow.address (Cow.p_tokenIn p)) (Cow.address (Cow.p_tokenOut p))
               (safe (Cow.p_cfg p)) (Cow.p_amountIn p) = Some (true, q) ->
  Cow.q_buyAmount q = 0 ->
  outcome (Cow.trade w sv args p wrapAmount) = Throw RangeError /\
  forallb harmless (trace (Cow.trade w sv args p wrapAmount)) = true.
Proof.
  intros Hq Hb.
  assert (H : Cow.trade w sv args p wrapAmount
              = ([ Console (LInfo "Getting CoW Protocol quote...");
                   QuoteRequest (Cow.address (Cow.p_tokenIn p))
                                (Cow.address (Cow.p_tokenOut p)) (Cow.p_amountIn p) ],
                 Throw RangeError)).
  { unfold Cow.trade, Cow.getCowQuote. rewrite Hq.
    cbn [await bind try_catch log emit ret negb app].
    rewrite Hb.
    unfold Cow.displayBuySlippage, BigInt.div. cbn [rbind Z.eqb].
    destruct (0 <? Cow.q_sellAmount q) eqn:Hs.
    - apply Z.ltb_lt in Hs.
      replace (Cow.q_sellAmount q =? 0) with false by (symmetry; apply Z.eqb_neq; lia).
      reflexivity.
    - reflexivity. }
  rewrite H. split; reflexivity.
Qed.

(** X16.  The struct that is presigned on chain repeats the order
    document that was posted: built from the document of a quote, the
    struct exists exactly when the kind of the quote is 'sell' or 'buy'
    and its two balance kinds are 'erc20' or not given, and it then has
    the tokens, the receiver, the amounts, the validity and the app data
    of the document, and the 32-byte codes of its kind and balance
    kinds.  Otherwise building it throws the unknown-kind or the
    unknown-balance error. *)
Theorem presigned_struct_repeats_the_order (q : Cow.CowQuote) (safeAddress : string)
        (discountedBuyAmount validTo : Z) (appData : string) :
  let order := Cow.order_document q safeAddress discountedBuyAmount validTo appData in
  match Cow.order_struct order safeAddress with
  | Ok st =>
      (Cow.q_kind q = "sell" \/ Cow.q_kind q = "buy") /\
      JsString.or_else (Cow.q_sellTokenBalance q) "erc20" = "erc20" /\
      JsString.or_else (Cow.q_buyTokenBalance q) "erc20" = "erc20" /\
      s_sellToken st = o_sellToken order /\ s_buyToken st = o_buyToken order /\
      s_receiver st = o_receiver order /\
      s_sellAmount st = o_sellAmount order /\ s_buyAmount st = discountedBuyAmount /\
      s_validTo st = validTo /\ s_appData st = appData /\
      s_partiallyFillable st = o_partiallyFillable order /\
      s_kind st = (if String.eqb (Cow.q_kind q) "sell" then Cow.KIND_SELL else Cow.KIND_BUY) /\
      s_sellTokenBalance st = Cow.BALANCE_ERC20 /\
      s_buyTokenBalance st = Cow.BALANCE_ERC20
  | Raise e =>
      (Cow.q_kind q <> "sell" /\ Cow.q_kind q <> "buy" /\
       e = Error (MUnknownKind (Cow.q_kind q))) \/
      (exists b, b <> "erc20" /\ e = Error (MUnknownBalance b) /\
                 (JsString.or_else (Cow.q_sellTokenBalance q) "erc20" = b \/
                  JsString.or_else (Cow.q_buyTokenBalance q) "erc20" = b))
  end.
Proof.
  intros order. unfold Cow.order_struct, Cow.kindToBytes32, Cow.balanceToBytes32.
  subst order. cbn [Cow.order_document o_kind o_sellTokenBalance o_buyTokenBalance
                    o_receiver o_sellToken o_buyToken o_sellAmount o_buyAmount o_validTo
                    o_appData o_partiallyFillable].
  set (sb := JsString.or_else (Cow.q_sellTokenBalance q) "erc20").
  set (bb := JsString.or_else (Cow.q_buyTokenBalance q) "erc20").
  assert (Hor : forall x, x <> "" -> JsString.or_else (Some x) "erc20" = x)
    by (intros [|c x] Hx; [contradiction Hx; reflexivity | reflexivity]).
  assert (Hsb : sb <> "") by (unfold sb; destruct (Cow.q_sellTokenBalance q) as [[|]|]; discriminate).
  assert (Hbb : bb <> "") by (unfold bb; destruct (Cow.q_buyTokenBalance q) as [[|]|]; discriminate).
  rewrite (Hor sb Hsb), (Hor bb Hbb).
  assert (Hrecv : JsString.or_else (Some (JsString.or_else (Cow.q_receiver q) safeAddress))
                                   safeAddress
                  = JsString.or_else (Cow.q_receiver q) safeAddress).
  { destruct (Cow.q_receiver q) as [[|c r]|]; cbn; try reflexivity;
      destruct safeAddress; reflexivity. }
  destruct (String.eqb_spec (Cow.q_kind q) "sell") as [Hk|Hk]; cbn [rbind].
  - destruct (String.eqb_spec sb "erc20") as [Hs|Hs]; cbn [rbind].
    + destruct (String.eqb_spec bb "erc20") as [Hb|Hb]; cbn [rbind].
      * cbn [s_sellToken s_buyToken s_receiver s_sellAmount s_buyAmount s_validTo
                  s_appData s_partiallyFillable s_kind s_sellTokenBalance
                  s_buyTokenBalance].
        rewrite Hrecv. repeat split; auto.
      * right. exists bb. auto.
    + right. exists sb. auto.
  - destruct (String.eqb_spec (Cow.q_kind q) "buy") as [Hk'|Hk']; cbn [rbind].
    + destruct (String.eqb_spec sb "erc20") as [Hs|Hs]; cbn [rbind].
      * destruct (String.eqb_spec bb "erc20") as [Hb|Hb]; cbn [rbind].
        -- cbn [s_sellToken s_buyToken s_receiver s_sellAmount s_buyAmount s_validTo
                   s_appData s_partiallyFillable s_kind s_sellTokenBalance
                   s_buyTokenBalance].
           rewrite Hrecv. repeat split; auto.
        -- right. exists bb. auto.
      * right. exists sb. auto.
    + left. auto.
Qed.

(** ** The pre-flight checks of the reworked script *)

(** X17.  [preflight] lets the run go on exactly when the provider is on
    chain 8453 and there is code at each of the four addresses: the
    vault, the roles contract, the router and ZodiacHelpers.  Otherwise
    it throws, and nothing that follows it in [main] is reached. *)
Theorem preflight_passes_iff (w : World) (cfg : Config) (safeAddress : string) :
  (outcome (Clawlett.preflight w cfg safeAddress) = Return tt <->
   chainId (w_provider w) = Clawlett.CHAIN_ID /\
   forallb (has_code w)
           [safeAddress; roles cfg; Clawlett.AeroUniversalRouter; Clawlett.ZodiacHelpers]
   = true) /\
  (outcome (Clawlett.preflight w cfg safeAddress) <> Return tt ->
   exists e, outcome (Clawlett.preflight w cfg safeAddress) = Throw e).
Proof.
  assert (Hshape : outcome (Clawlett.preflight w cfg safeAddress)
            = if negb (chainId (w_provider w) =? Clawlett.CHAIN_ID)
              then Throw (Error (MWrongChain (chainId (w_provider w))))
              else if has_code w safeAddress then
                if has_code w (roles cfg) then
                  if has_code w Clawlett.AeroUniversalRouter then
                    if has_code w Clawlett.ZodiacHelpers then Return tt
                    else match getCode (w_provider w) Clawlett.ZodiacHelpers with
                         | Some _ => Throw (Error (MMissingBytecode "ZodiacHelpers"))
                         | None => Throw RpcFailure
                         end
                  else match getCode (w_provider w) Clawlett.AeroUniversalRouter with
                       | Some _ => Throw (Error (MMissingBytecode "AeroUniversalRouter"))
                       | None => Throw RpcFailure
                       end
                else match getCode (w_provider w) (roles cfg) with
                     | Some _ => Throw (Error (MMissingBytecode "Roles"))
                     | None => Throw RpcFailure
                     end
              else match getCode (w_provider w) safeAddress with
                   | Some _ => Throw (Error (MMissingBytecode "Safe"))
                   | None => Throw RpcFailure
                   end).
  { unfold Clawlett.preflight, has_code.
    destruct (negb (chainId (w_provider w) =? Clawlett.CHAIN_ID)); [reflexivity|].
    cbn [bind emit outcome snd].
    repeat match goal with
    | |- context [getCode (w_provider w) ?a] =>
        destruct (getCode (w_provider w) a) as [?code|] eqn:?; cbn;
        [destruct (String.eqb _ "" || String.eqb _ "0x"); cbn|]
    end; reflexivity. }
  rewrite Hshape. clear Hshape. cbn [forallb].
  destruct (chainId (w_provider w) =? Clawlett.CHAIN_ID) eqn:Hc; cbn [negb].
  - apply Z.eqb_eq in Hc.
    destruct (has_code w safeAddress); destruct (has_code w (roles cfg));
      destruct (has_code w Clawlett.AeroUniversalRouter);
      destruct (has_code w Clawlett.ZodiacHelpers); cbn [andb].
    all: split; [split; [intros H; first [discriminate H | split; [exact Hc | reflexivity]
                                         | destruct (getCode _ _); discriminate H]
                        | intros [_ H]; first [reflexivity | discriminate H]]
                | intros H; first [contradiction H; reflexivity
                                  | destruct (getCode _ _); eexists; reflexivity]].
  - apply Z.eqb_neq in Hc. split.
    + split; [discriminate | intros [H _]; contradiction].
    + intros _. eexists. reflexivity.
Qed.

Lemma wrong_chain_main registry aliases rejected (w : World) (args : Clawlett.Args) :
  chainId (w_provider w) <> Clawlett.CHAIN_ID ->
  all_events before_chain_test (Clawlett.main registry aliases rejected w args) /\
  exists e, outcome (Clawlett.main registry aliases rejected w args) = Throw e.
Proof.
  intros Hc. apply Z.eqb_neq in Hc. unfold Clawlett.main, Clawlett.preflight.
  rewrite Hc. cbn [negb].
  destruct (_ || _); [split; [reflexivity | eexists; reflexivity]|].
  destruct (Clawlett.parseSlippageBps _); cbn [lift bind ret throw];
    [|split; [reflexivity | eexists; reflexivity]].
  destruct (w_config w); cbn [of_option lift bind ret throw emit];
    split; first [reflexivity | eexists; reflexivity].
Qed.

(** X18.  On a provider that is not on chain 8453 the reworked script
    does nothing: whatever the arguments, the run consists of console
    lines and at most the one network read, it resolves no token, reads
    no balance, asks for no quote and sends nothing, and it ends with
    exit code 1. *)
Theorem wrong_chain_stops_the_run registry aliases rejected (w : World)
        (args : Clawlett.Args) :
  chainId (w_provider w) <> Clawlett.CHAIN_ID ->
  all_events before_chain_test (Clawlett.run registry aliases rejected w args) /\
  outcome (Clawlett.run registry aliases rejected w args) = Exit 1.
Proof.
  intros Hc.
  destruct (wrong_chain_main registry aliases rejected w args Hc) as [Hev [e He]].
  unfold Clawlett.run. split.
  - apply all_events_top_level; [reflexivity | exact Hev].
  - unfold top_level, try_catch, outcome in *.
    destruct (Clawlett.main registry aliases rejected w args) as [t o].
    cbn in He. subst o. reflexivity.
Qed.

(** ** The call data of the swap *)

Lemma prefix_split (p s : string) :
  String.prefix p s = true -> s = (p ++ JsString.slice_from (String.length p) s)%string.
Proof.
  revert s. induction p as [|a p IH]; intros s; [reflexivity|].
  destruct s as [|b s]; cbn [String.prefix]; [discriminate|].
  destruct (ascii_dec a b) as [->|]; [|discriminate].
  intros H. cbn [String.length JsString.slice_from String.append]. f_equal. apply IH, H.
Qed.

(** Rewriting the selector keeps well-formed call data well-formed. *)
Lemma swapCalldata_well_formed (data : option string) (label label' : string) :
  Clawlett.requireHexData data label = Ok tt ->
  Clawlett.requireHexData
    (Some (if JsString.startsWith (JsString.or_else data "") "0x3593564c"
           then ("0xf23674e8" ++ JsString.slice_from 10 (JsString.or_else data ""))%string
           else JsString.or_else data ""))
    label' = Ok tt.
Proof.
  unfold Clawlett.requireHexData. destruct data as [d|]; [|discriminate].
  destruct (JsString.startsWith d "0x") eqn:H0x; cbn [negb orb]; [|discriminate].
  destruct (Nat.eqb (Nat.modulo (String.length d) 2) 0) eqn:Heven; cbn [negb]; [|discriminate].
  intros _.
  assert (Hd : JsString.or_else (Some d) "" = d).
  { destruct d; [discriminate H0x | reflexivity]. }
  rewrite Hd.
  destruct (JsString.startsWith d "0x3593564c") eqn:Hsel.
  - unfold JsString.startsWith in Hsel. apply prefix_split in Hsel.
    change (String.length "0x3593564c") with 10%nat in Hsel.
    set (rest := JsString.slice_from 10 d) in *.
    assert (Hlen : String.length ("0xf23674e8" ++ rest) = String.length d)
      by (rewrite Hsel; reflexivity).
    rewrite Hlen, Heven. reflexivity.
  - rewrite H0x, Heven. reflexivity.
Qed.

Section Avoiding.
Variable bad : JsError -> bool.

Lemma never_throws_ret {X : Type} (a : X) : never_throws bad (ret a).
Proof. exact I. Qed.

Lemma never_throws_exit {X : Type} (c : Z) : never_throws bad (@exit X c).
Proof. exact I. Qed.

Lemma never_throws_throw {X : Type} (e : JsError) : bad e = false -> never_throws bad (@throw X e).
Proof. intros H. exact H. Qed.

Lemma never_throws_emit (e : Event) : never_throws bad (emit e).
Proof. exact I. Qed.

Lemma never_throws_log (l : LogLine) : never_throws bad (log l).
Proof. exact I. Qed.

Lemma never_throws_await {X : Type} (ev : Event) (reply : option X) (e : JsError) :
  bad e = false -> never_throws bad (await ev reply e).
Proof. intros H. destruct reply; [exact I | exact H]. Qed.

Lemma never_throws_bind {X Y : Type} (m : Run X) (k : X -> Run Y) :
  never_throws bad m -> (forall a, never_throws bad (k a)) -> never_throws bad (bind m k).
Proof.
  unfold never_throws, bind, outcome. destruct m as [t [a|e|c]]; simpl; intros Hm Hk;
    [|exact Hm | exact I].
  specialize (Hk a). destruct (k a) as [t' o]. exact Hk.
Qed.

Lemma never_throws_bind_lift {X Y : Type} (r : Result X) (k : X -> Run Y) :
  result_avoids bad r -> (forall a, r = Ok a -> never_throws bad (k a)) ->
  never_throws bad (bind (lift r) k).
Proof.
  destruct r as [a|e]; intros Hr Hk; [|exact Hr].
  specialize (Hk a eq_refl). unfold never_throws, bind, lift, ret, outcome in *.
  destruct (k a) as [t o]. exact Hk.
Qed.

Lemma never_throws_try_catch {X : Type} (m : Run X) (h : JsError -> Run X) :
  (forall e, never_throws bad (h e)) -> never_throws bad (try_catch m h).
Proof.
  unfold never_throws, try_catch, outcome. destruct m as [t [a|e|c]]; simpl; intros Hh;
    [exact I | | exact I].
  specialize (Hh e). destruct (h e) as [t' o]. exact Hh.
Qed.
End Avoiding.

(** Walks through a run whose errors are all told apart from [bad] by
    computation. *)
Ltac avoid_steps_with known :=
  repeat
    lazymatch goal with
    | |- never_throws _ _ =>
        first
          [ exact I
          | known
          | apply never_throws_throw; reflexivity
          | apply never_throws_await; reflexivity
          | apply never_throws_try_catch; intros ?
          | apply never_throws_bind_lift; [|intros ? ?]
          | apply never_throws_bind; [|intros ?]
          | match goal with
            | |- never_throws _ (if ?c then _ else _) => destruct c eqn:?
            | |- never_throws _ (match ?x with _ => _ end) => destruct x eqn:?
            end ]
    end.

Ltac result_cases :=
  repeat match goal with
         | |- result_avoids _ (if ?c then _ else _) => destruct c
         | |- result_avoids _ (match ?x with _ => _ end) => destruct x
         | |- result_avoids _ (rbind ?r _) => destruct r; cbn [rbind]
         end;
  first [exact I | reflexivity].

Lemma Clawlett_read_metadata_avoids (bad : JsError -> bool) (w : World) (addr : string) :
  bad RpcFailure = false -> never_throws bad (Clawlett.read_metadata w addr).
Proof.
  intros H. unfold Clawlett.read_metadata, never_throws, outcome. cbn.
  destruct (erc20_symbol _ _); [destruct (erc20_decimals _ _)|]; exact I || exact H.
Qed.

(** X19.  In the reworked script the second check of the call data,
    made after the selector has been rewritten, never fires: the call
    data of a validated quote is still well-formed hex data once
    0x3593564c has been replaced by 0xf23674e8, so no run of [main] ends
    with the error that 'swapCalldata must be valid hex data'. *)
Theorem rewritten_call_data_is_well_formed :
  (forall (data : option string) (label label' : string),
      Clawlett.requireHexData data label = Ok tt ->
      Clawlett.requireHexData
        (Some (if JsString.startsWith (JsString.or_else data "") "0x3593564c"
               then ("0xf23674e8"
                       ++ JsString.slice_from 10 (JsString.or_else data ""))%string
               else JsString.or_else data ""))
        label' = Ok tt) /\
  (forall registry aliases rejected (w : World) (args : Clawlett.Args),
      never_throws is_swapCalldata_error (Clawlett.main registry aliases rejected w args)).
Proof.
  split; [apply swapCalldata_well_formed|].
  intros registry aliases rejected w args.
  unfold Clawlett.main, Clawlett.getQuote, Clawlett.maybeApprove, Clawlett.revokeAllowance,
    Clawlett.simulateExecution, Clawlett.preflight, Clawlett.resolveToken,
    Clawlett.resolveByAddress, send.
  avoid_steps_with ltac:(apply Clawlett_read_metadata_avoids; reflexivity).
  all: try solve [unfold Clawlett.parseSlippageBps, of_option; result_cases].
  - unfold Clawlett.validateQuotePayload, Clawlett.requireHexData. cbn [Clawlett.p_quote].
    destruct (Clawlett.calldata _) as [d|];
      [destruct (negb (JsString.startsWith d "0x") || _)|]; cbn [rbind];
      try reflexivity.
    cbn zeta. result_cases.
  - unfold Clawlett.minAmountOut_of, BigInt.of_Number, BigInt.div.
    destruct (JsNumber.to_integer _); cbn [rbind Z.eqb]; result_cases.
  - match goal with
    | H : Clawlett.validateQuotePayload _ _ = Ok _ |- _ =>
        unfold Clawlett.validateQuotePayload in H; cbn [Clawlett.p_quote] in H;
        match type of H with
        | rbind ?r _ = _ => destruct r as [[]|] eqn:Hhex; [|discriminate H]
        end
    end.
    rewrite (swapCalldata_well_formed _ _ "swapCalldata" Hhex). exact I.
Qed.

(** ** Bounds of the minimum output *)

(** X20.  The slippage can only lower the minimum output, and only so
    far.  In the first script, for an amount that is not negative and a
    whole percentage p in [0, 100], the minimum output lies between 0
    and the quoted amount, equals the quoted amount at p = 0, and does
    not grow with p.  In the reworked script, for every slippage
    fraction it accepts and a quote that brings no minimum of its own,
    the minimum output lies between half the quoted amount and the
    quoted amount. *)
Theorem minimum_output_bounds :
  (forall amountOut p : Z,
      0 <= amountOut -> 0 <= p <= 100 ->
      exists m,
        ClawWallet.minAmountOut_of amountOut (JsNumber.of_Z p) = Ok m /\
        0 <= m <= amountOut /\
        (p = 0 -> m = amountOut) /\
        (forall p', p <= p' <= 100 ->
                    exists m', ClawWallet.minAmountOut_of amountOut (JsNumber.of_Z p') = Ok m' /\
                               m' <= m)) /\
  (forall (s : JsNumber.Number) (quote : Clawlett.Quote),
      JsNumber.valid s = true -> slippage_in_range s = true ->
      BigInt.or_else (Clawlett.minAmountOut quote) 0 = 0 ->
      0 <= Clawlett.amountOut quote ->
      exists bps m,
        Clawlett.parseSlippageBps s = Ok bps /\
        Clawlett.minAmountOut_of quote bps = Ok m /\
        Z.quot (Clawlett.amountOut quote) 2 <= m <= Clawlett.amountOut quote).
Proof.
  assert (Hpercent : forall a p, 0 <= p <= 100 ->
            ClawWallet.minAmountOut_of a (JsNumber.of_Z p) = Ok (Z.quot (a * (100 - p)) 100)).
  { intros a p Hp. unfold ClawWallet.minAmountOut_of, BigInt.of_Number.
    rewrite (NumberFacts.percent_exact p Hp). reflexivity. }
  split.
  - intros a p Ha Hp. exists (Z.quot (a * (100 - p)) 100).
    split; [apply Hpercent, Hp|]. split; [|split].
    + rewrite Z.quot_div_nonneg by nia. split.
      * apply Z.div_pos; nia.
      * apply Z.div_le_upper_bound; nia.
    + intros ->. rewrite Z.sub_0_r. apply Z.quot_mul. lia.
    + intros p' Hp'. exists (Z.quot (a * (100 - p')) 100).
      split; [apply Hpercent; lia|]. apply Z.quot_le_mono; nia.
  - intros s quote Hv Hr Hown Ha.
    destruct (NumberFacts.nearest_int_bound s Hv Hr) as [_ Hb].
    destruct (NumberFacts.bps_exact _ Hb) as [_ Hsub].
    set (r := JsNumber.nearest_int (JsNumber.mul s JsNumber.n10000)) in *.
    exists (JsNumber.of_Z r), (Z.quot (Clawlett.amountOut quote * (10000 - r)) 10000).
    split; [apply parseSlippageBps_accepts; assumption|]. split.
    + unfold Clawlett.minAmountOut_of, BigInt.of_Number. rewrite Hsub.
      destruct (Clawlett.minAmountOut quote) as [[|v|v]|]; try reflexivity;
        discriminate Hown.
    + set (a := Clawlett.amountOut quote) in *.
      rewrite !Z.quot_div_nonneg by nia. split.
      * replace (a / 2) with ((a * 5000) / (2 * 5000))
          by (apply Z.div_mul_cancel_r; lia).
        apply Z.div_le_mono; nia.
      * apply Z.div_le_upper_bound; nia.
Qed.

(** ** Resolving a symbol in the first script *)

Lemma protected_is_listed (s : string) :
  ClawWallet.protected s = true ->
  exists c a, lookup s ClawWallet.VERIFIED_TOKENS = Some (String c a).
Proof.
  unfold ClawWallet.protected, ClawWallet.PROTECTED_SYMBOLS. cbn [existsb].
  repeat match goal with
         | |- context [String.eqb s ?x] => destruct (String.eqb_spec s x) as [->|]
         end;
    cbn [orb]; try discriminate; intros _; do 2 eexists; reflexivity.
Qed.

(** X21.  A reference that is not address-shaped (after trimming: no
    '0x' prefix, or not 42 characters) is resolved through the registry
    only.  If [resolveToken] returns, the descriptor is verified, has no
    warning, its address is a registry address, and exactly the symbol
    and the decimals of that address were read; otherwise a read
    failed, or the symbol is unknown and the not-found error is thrown
    before anything is read.  The error for a protected symbol without
    a verified address is never thrown: every protected symbol has an
    entry. *)
Theorem wallet_symbol_resolves_through_registry (w : World) (token : string) :
  address_shaped (JsString.trim token) = false ->
  match outcome (ClawWallet.resolveToken w token) with
  | Return d =>
      ClawWallet.verified d = true /\ ClawWallet.warning d = None /\
      (exists S, In (S, ClawWallet.address d) ClawWallet.VERIFIED_TOKENS) /\
      trace (ClawWallet.resolveToken w token)
      = [RpcRead "symbol" (ClawWallet.address d); RpcRead "decimals" (ClawWallet.address d)]
  | Throw e =>
      e = RpcFailure \/
      (e = Error (MTokenNotFound
                    (JsString.strip_sigil (JsString.toUpperCase (JsString.trim token)))) /\
       trace (ClawWallet.resolveToken w token) = [])
  | Exit _ => False
  end.
Proof.
  intros Hshape. unfold ClawWallet.resolveToken. unfold address_shaped in Hshape.
  rewrite Hshape.
  set (symbol := JsString.strip_sigil (JsString.toUpperCase (JsString.trim token))).
  set (aliased := JsString.or_else (lookup symbol ClawWallet.TOKEN_ALIASES) symbol).
  destruct (lookup aliased ClawWallet.VERIFIED_TOKENS) as [[|c a]|] eqn:Hl.
  - destruct (ClawWallet.protected aliased) eqn:Hp.
    + destruct (protected_is_listed _ Hp) as (c & a & H). congruence.
    + right. split; reflexivity.
  - pose proof (lookup_In _ _ _ Hl) as Hin.
    unfold ClawWallet.read_metadata.
    destruct (erc20_symbol _ _); [destruct (erc20_decimals _ _)|];
      cbn [bind ret outcome trace fst snd app ClawWallet.verified ClawWallet.warning
           ClawWallet.address];
      try (left; reflexivity).
    split; [reflexivity|]. split; [reflexivity|]. split; [|reflexivity].
    exists aliased. exact Hin.
  - destruct (ClawWallet.protected aliased) eqn:Hp.
    + destruct (protected_is_listed _ Hp) as (c & a & H). congruence.
    + right. split; reflexivity.
Qed.

(** ** What is executed is what was shown *)

Lemma executed_as_shown_app (t1 t2 : list Event) :
  forallb not_summary t1 = true ->
  executed_as_shown (t1 ++ t2) = executed_as_shown t2.
Proof.
  induction t1 as [|e t1 IH]; simpl; [reflexivity|].
  intros H. apply andb_true_iff in H. destruct H as [He Ht].
  destruct e as [[]| | | | | | | |]; try discriminate He; apply IH; exact Ht.
Qed.

Lemma executed_as_shown_clean (t : list Event) :
  forallb not_summary t = true -> executed_as_shown t = true.
Proof.
  intros H. rewrite <- (app_nil_r t). rewrite executed_as_shown_app by exact H. reflexivity.
Qed.

Lemma shown_bind {X Y : Type} (m : Run X) (k : X -> Run Y) :
  all_events not_summary m -> (forall t a, m = (t, Return a) -> shown_run (k a)) ->
  shown_run (bind m k).
Proof.
  unfold all_events, shown_run, bind, trace. destruct m as [t [a|e|c]]; simpl; intros Hm Hk.
  - specialize (Hk t a eq_refl). destruct (k a) as [t' o]. simpl in *.
    rewrite executed_as_shown_app by exact Hm. exact Hk.
  - apply executed_as_shown_clean, Hm.
  - apply executed_as_shown_clean, Hm.
Qed.

Lemma shown_bind_lift {X Y : Type} (r : Result X) (k : X -> Run Y) :
  (forall a, r = Ok a -> shown_run (k a)) -> shown_run (bind (lift r) k).
Proof.
  intros Hk. apply shown_bind; [destruct r; reflexivity|].
  intros t a H. apply Hk. destruct r; inversion H. reflexivity.
Qed.

Lemma shown_from_summary {X : Type} (pay receive minReceive : Z) (k : unit -> Run X) :
  all_events (as_shown pay minReceive) (k tt) ->
  shown_run (bind (log (LSummary pay receive minReceive)) k).
Proof.
  unfold all_events, shown_run, bind, log, emit, trace. destruct (k tt) as [t o]. simpl.
  intros H. exact H.
Qed.

Lemma shown_top_level (m : Run unit) : shown_run m -> shown_run (top_level m).
Proof.
  unfold shown_run, top_level, try_catch, trace. destruct m as [t [[]|e|c]]; simpl; auto.
  intros H. clear - H. induction t as [|ev t IH]; [reflexivity|].
  destruct ev as [[]| | | | | | | |]; simpl in *; auto.
  rewrite forallb_app, H. reflexivity.
Qed.

Lemma execute_all_each (P : Event -> bool) (w : World) (cfg : Config)
      (txs : list (string * CallData)) :
  P (Console (LFailure "Operation failed!")) = true ->
  forallb (fun td => P (Transact {| tx_to := fst td; tx_value := 0; tx_data := snd td;
                                    tx_operation := 1; tx_roleKey := roleKey cfg;
                                    tx_shouldRevert := true |})) txs = true ->
  all_events P (Cow.execute_all w cfg txs).
Proof.
  intros Hc. induction txs as [|[target data] txs IH]; [reflexivity|].
  intros H. cbn [forallb fst snd] in H. apply andb_true_iff in H. destruct H as [Htd Ht].
  cbn [Cow.execute_all]. apply all_events_bind.
  - apply all_events_await. exact Htd.
  - intros status. destruct (negb (status =? 1)).
    + unfold all_events. cbn. rewrite Hc. reflexivity.
    + apply IH, Ht.
Qed.

(** Steps of a run up to the summary. *)
Ltac up_to_summary :=
  repeat first
    [ apply shown_from_summary
    | apply shown_bind_lift; intros ? ?
    | apply shown_bind; [solve [run_events] | intros ? ? ?]
    | match goal with
      | |- shown_run (if ?c then _ else _) => destruct c eqn:?
      | |- shown_run (match ?x with _ => _ end) => destruct x eqn:?
      end ];
  try solve [apply executed_as_shown_clean; run_events].

Lemma wallet_as_shown (w : World) (args : ClawWallet.Args) :
  shown_run (ClawWallet.run w args).
Proof.
  apply shown_top_level.
  unfold ClawWallet.main, ClawWallet.proceed, ClawWallet.getQuote.
  up_to_summary.
  unfold ClawWallet.handle_approval, ClawWallet.swap_data, send.
  run_events_with fail.
  all: apply all_events_await; cbn [as_shown tx_data tx_value]; try reflexivity.
  all: repeat match goal with
       | |- context [if ?c then _ else _] => destruct c
       end; cbn [as_shown tx_data tx_value]; rewrite ?Z.eqb_refl; reflexivity.
Qed.

Lemma clawlett_as_shown registry aliases rejected (w : World) (args : Clawlett.Args) :
  shown_run (Clawlett.run registry aliases rejected w args).
Proof.
  apply shown_top_level.
  unfold Clawlett.main, Clawlett.getQuote.
  up_to_summary.
  unfold Clawlett.maybeApprove, Clawlett.revokeAllowance, Clawlett.simulateExecution, send.
  run_events_with fail.
  all: apply all_events_await; cbn [as_shown tx_data tx_value]; try reflexivity.
  all: repeat match goal with
       | |- context [if ?c then _ else _] => destruct c
       end; rewrite ?Z.eqb_refl, ?orb_true_r; reflexivity.
Qed.

Lemma submitCowOrder_as_shown (w : World) (sv : Cow.Services) (q : Cow.CowQuote)
      (safeAddress : string) (timeoutSeconds : option Z) (pay slip : Z) :
  Cow.buySlippage q = Ok slip ->
  all_events (as_shown pay (Cow.q_buyAmount q - slip))
             (Cow.submitCowOrder w sv q safeAddress timeoutSeconds).
Proof.
  intros Hs. unfold Cow.submitCowOrder, Cow.buildAppData. rewrite Hs.
  cbn [lift bind ret throw emit app].
  destruct (BigInt.div (slip * 10000) (Cow.q_buyAmount q)) as [bips|e];
    cbn [lift bind ret throw emit app]; [|reflexivity].
  destruct (Cow.sv_orders sv _) as [[ok uid]|]; [destruct ok|];
    unfold all_events; cbn [await bind negb throw ret trace fst app forallb as_shown
                            Cow.order_document o_buyAmount];
    rewrite Z.eqb_refl; reflexivity.
Qed.

Lemma submitCowOrder_returns (w : World) (sv : Cow.Services) (q : Cow.CowQuote)
      (safeAddress : string) (timeoutSeconds : option Z)
      (t : list Event) (orderUid : string) (order : CowOrder) :
  try_catch (Cow.submitCowOrder w sv q safeAddress timeoutSeconds)
            (fun e => bind (log (LError e)) (fun _ => exit 1)) = (t, Return (orderUid, order)) ->
  exists slip, Cow.buySlippage q = Ok slip /\
               o_buyAmount order = Cow.q_buyAmount q - slip.
Proof.
  unfold Cow.submitCowOrder, Cow.buildAppData.
  destruct (Cow.buySlippage q) as [slip|e]; cbn [lift bind ret throw emit app try_catch log];
    [|discriminate].
  destruct (BigInt.div (slip * 10000) (Cow.q_buyAmount q)) as [bips|e];
    cbn [lift bind ret throw emit app try_catch log exit]; [|discriminate].
  destruct (Cow.sv_orders sv _) as [[ok uid]|];
    cbn [await bind negb throw ret app try_catch log emit exit]; [|discriminate].
  destruct ok; cbn [await bind negb throw ret app try_catch log emit exit]; [|discriminate].
  intros H. inversion H. exists slip. split; reflexivity.
Qed.

Lemma cow_as_shown (w : World) (sv : Cow.Services) (args : Cow.Args) :
  shown_run (Cow.run w sv args).
Proof.
  apply shown_top_level.
  unfold Cow.main, Cow.trade, Cow.getCowQuote.
  up_to_summary.
  match goal with
  | Hd : Cow.displayBuySlippage _ _ _ = Ok ?s |- context [Cow.submitCowOrder _ _ ?q _ _] =>
      change (Cow.buySlippage q = Ok s) in Hd; rename Hd into Hslip
  end.
  run_events_with
    ltac:(first
            [ match goal with
              | |- all_events _ (bind (try_catch (Cow.submitCowOrder _ _ _ _ _) _) _) =>
                  apply all_events_bind_ret;
                  [ apply all_events_try_catch;
                    [ apply submitCowOrder_as_shown; exact Hslip | intros ? ]
                  | intros ? [? ?] Hsub; apply submitCowOrder_returns in Hsub;
                    destruct Hsub as (slip' & Hslip' & Hbuy');
                    rewrite Hslip in Hslip'; inversion Hslip'; subst slip' ]
              end
            | apply all_events_bind_lift; intros ? ?
            | apply pollOrderStatus_events; [reflexivity | intros; reflexivity | reflexivity]
            | known_reads ]).
  apply execute_all_each; [reflexivity|].
  match goal with
  | H : Cow.order_struct _ _ = Ok ?st |- _ =>
      destruct (order_struct_fields _ _ _ H) as (_ & Hbuy & _)
  end.
  rewrite forallb_app. cbn [forallb as_shown tx_data snd].
  rewrite Hbuy, Hbuy', Z.eqb_refl.
  match goal with
  | |- context [if ?c then _ else _] => destruct c; reflexivity
  end.
Qed.

(** X22.  What is executed is what was shown.  In every run of each of
    the three scripts, everything that follows the swap summary agrees
    with it: a router swap of the first script pays the amount shown and
    sets its minimum output to the minimum shown; the transaction of the
    reworked script carries no ETH or the amount shown; the order the
    CoW script posts, and the struct it presigns, buy exactly the
    minimum shown; and no second summary follows. *)
Theorem executed_as_the_summary_shows :
  (forall (w : World) (args : ClawWallet.Args),
      executed_as_shown (trace (ClawWallet.run w args)) = true) /\
  (forall registry aliases rejected (w : World) (args : Clawlett.Args),
      executed_as_shown (trace (Clawlett.run registry aliases rejected w args)) = true) /\
  (forall (w : World) (sv : Cow.Services) (args : Cow.Args),
      executed_as_shown (trace (Cow.run w sv args)) = true).
Proof.
  split; [|split].
  - apply wallet_as_shown.
  - apply clawlett_as_shown.
  - apply cow_as_shown.
Qed.

(** ** The tokens of a CoW quote *)

Lemma substitute_not_native (t : Cow.TokenDescriptor) :
  String.eqb (JsString.toLowerCase (Cow.address (fst (Cow.substitute t)))) Cow.NATIVE_ETH
  = false.
Proof.
  unfold Cow.substitute.
  destruct (String.eqb (JsString.toLowerCase (Cow.address t)) Cow.NATIVE_ETH) eqn:H;
    [reflexivity | exact H].
Qed.

Lemma Cow_prepare_tokens (w : World) (sv : Cow.Services) (args : Cow.Args) (t : list Event)
      (p : Cow.Prepared) :
  Cow.prepare w sv args = (t, Return p) ->
  String.eqb (JsString.toLowerCase (Cow.address (Cow.p_tokenIn p))) Cow.NATIVE_ETH = false /\
  String.eqb (JsString.toLowerCase (Cow.address (Cow.p_tokenOut p))) Cow.NATIVE_ETH = false.
Proof.
  unfold Cow.prepare.
  destruct (_ || _); [discriminate|].
  destruct (w_config w) as [cfg|]; [|discriminate].
  intros H. bind_returns H.
  pose proof (substitute_not_native a) as Hin.
  pose proof (substitute_not_native a0) as Hout.
  destruct (Cow.substitute a) as [tokenIn subIn].
  destruct (Cow.substitute a0) as [tokenOut subOut].
  bind_returns H. inversion H. split; [exact Hin | exact Hout].
Qed.

(** X23.  The CoW script never asks for a quote in native ETH: in every
    run, neither the token sold nor the token bought of a quote request
    is the zero address, in whatever case its letters: ETH has been
    replaced by WETH before. *)
Theorem cow_quotes_name_no_native_eth (w : World) (sv : Cow.Services) (args : Cow.Args) :
  all_events quotes_erc20 (Cow.run w sv args).
Proof.
  apply all_events_top_level; [reflexivity|].
  unfold Cow.main. apply all_events_bind_ret.
  - apply Cow_prepare_reads; reflexivity.
  - intros t p Hp. apply Cow_prepare_tokens in Hp. destruct Hp as [Hin Hout].
    apply all_events_bind; [apply Cow_check_balance_reads; reflexivity|]. intros bw.
    unfold Cow.trade, Cow.getCowQuote, Cow.submitCowOrder, Cow.buildAppData.
    run_events_with
      ltac:(first
              [ apply pollOrderStatus_events; [reflexivity | intros; reflexivity | reflexivity]
              | apply execute_all_events; intros; reflexivity ]).
    apply all_events_await. cbn [quotes_erc20]. rewrite Hin, Hout. reflexivity.
Qed.

(** ** Symbols are read without regard to case *)

Lemma is_space_upper (c : ascii) :
  JsString.is_space (JsString.upper_ascii c) = JsString.is_space c.
Proof. destruct c as [[] [] [] [] [] [] [] []]; reflexivity. Qed.

Lemma trimStart_upper (s : string) :
  JsString.trimStart (JsString.toUpperCase s) = JsString.toUpperCase (JsString.trimStart s).
Proof.
  unfold JsString.toUpperCase. induction s as [|c s IH]; [reflexivity|].
  cbn [JsString.map_string JsString.trimStart]. rewrite is_space_upper.
  destruct (JsString.is_space c); [exact IH | reflexivity].
Qed.

Lemma rev_string_upper (acc s : string) :
  JsString.rev_string (JsString.toUpperCase acc) (JsString.toUpperCase s)
  = JsString.toUpperCase (JsString.rev_string acc s).
Proof.
  unfold JsString.toUpperCase. revert acc. induction s as [|c s IH]; intros acc; [reflexivity|].
  cbn [JsString.map_string JsString.rev_string].
  apply (IH (String c acc)).
Qed.

Lemma trim_upper (s : string) :
  JsString.trim (JsString.toUpperCase s) = JsString.toUpperCase (JsString.trim s).
Proof.
  unfold JsString.trim, JsString.trimEnd.
  rewrite trimStart_upper.
  change EmptyString with (JsString.toUpperCase EmptyString) at 1 2.
  rewrite rev_string_upper, trimStart_upper, rev_string_upper. reflexivity.
Qed.

(** X24.  Symbols are read without regard to case.  Two references
    that differ only in the case of their letters, neither of them
    address-shaped once trimmed, are resolved in the same way, event
    for event and with the same result: by the first script, and by the
    reworked script for any registry and alias table.  (This is why a
    registry key with lower-case letters can never be found.) *)
Theorem symbols_are_read_without_regard_to_case :
  (forall (w : World) (token token' : string),
      JsString.toUpperCase token = JsString.toUpperCase token' ->
      address_shaped (JsString.trim token) = false ->
      address_shaped (JsString.trim token') = false ->
      ClawWallet.resolveToken w token = ClawWallet.resolveToken w token') /\
  (forall registry aliases (w : World) (token token' : string),
      JsString.toUpperCase token = JsString.toUpperCase token' ->
      address_shaped (JsString.trim token) = false ->
      address_shaped (JsString.trim token') = false ->
      Clawlett.resolveToken registry aliases w token
      = Clawlett.resolveToken registry aliases w token').
Proof.
  split.
  - intros w token token' Hup Hs Hs'. unfold ClawWallet.resolveToken.
    unfold address_shaped in Hs, Hs'. rewrite Hs, Hs'.
    rewrite <- !trim_upper, Hup. reflexivity.
  - intros registry aliases w token token' Hup Hs Hs'.
    unfold Clawlett.resolveToken, Clawlett.normalizeSymbol.
    unfold address_shaped in Hs, Hs'. rewrite Hs, Hs'.
    rewrite <- !trim_upper, Hup. reflexivity.
Qed.

(** ** The further properties at sample inputs *)

Lemma execution_requires_the_flag_witness :
  (~ In "--execute" sample_argv /\ ~ In "-x" sample_argv /\
   quote_only_run (wallet_script sample_argv)) /\
  (~ In "--execute" sample_argv /\ ~ In "-x" sample_argv /\
   quote_only_run (cow_script sample_argv)).
Proof.
  assert (H1 : ~ In "--execute" sample_argv) by (simpl; intuition discriminate).
  assert (H2 : ~ In "-x" sample_argv) by (simpl; intuition discriminate).
  split; (split; [exact H1|]; split; [exact H2|]).
  - exact (proj1 execution_requires_the_flag _ _ _ _ _ sample_argv H1 H2).
  - exact (proj2 execution_requires_the_flag _ _ _ _ _ _ _ sample_argv H1 H2).
Defined.

Lemma missing_option_reaches_nothing_witness :
  lacks_required argv_without_from /\
  all_events console_only (wallet_script argv_without_from) /\
  (outcome (wallet_script argv_without_from) = Exit 1 \/
   wallet_script argv_without_from = ([Console (LInfo ClawWallet.usage)], Exit 0)) /\
  all_events console_only (cow_script argv_without_from) /\
  (outcome (cow_script argv_without_from) = Exit 1 \/
   cow_script argv_without_from = ([Console (LInfo Cow.usage)], Exit 0)).
Proof.
  assert (H : lacks_required argv_without_from)
    by (left; split; simpl; intuition discriminate).
  split; [exact H|].
  destruct (proj1 missing_option_reaches_nothing
                  (fun _ => JsNumber.n1) None None "config" (fun _ _ => world_usdc)
                  argv_without_from H) as [Ha Hb].
  destruct (proj2 missing_option_reaches_nothing
                  (fun _ => JsNumber.n0_05) (fun _ => Some 1800) None None "config"
                  (fun _ _ => world_usdc) sample_services argv_without_from H) as [Hc Hd].
  split; [exact Ha|]. split; [exact Hb|]. split; [exact Hc | exact Hd].
Defined.

Lemma exit_0_means_swap_mined_witness :
  (ClawWallet.execute (wallet_args true) = true /\
   outcome (ClawWallet.run world_usdc (wallet_args true)) = Exit 0 /\
   existsb (mined world_usdc to_router)
           (trace (ClawWallet.run world_usdc (wallet_args true))) = true) /\
  (Clawlett.execute (clawlett_args true "exact") = true /\
   outcome (Clawlett.run Clawlett.TOKEN_REGISTRY_rows Clawlett.TOKEN_ALIASES_rows
                         (fun _ _ => false) world_usdc (clawlett_args true "exact"))
   = Exit 0 /\
   existsb (mined world_usdc is_raw_call)
           (trace (Clawlett.run Clawlett.TOKEN_REGISTRY_rows Clawlett.TOKEN_ALIASES_rows
                                (fun _ _ => false) world_usdc (clawlett_args true "exact")))
   = true).
Proof.
  assert (H1 : outcome (ClawWallet.run world_usdc (wallet_args true)) = Exit 0)
    by (vm_compute; reflexivity).
  assert (H2 : outcome (Clawlett.run Clawlett.TOKEN_REGISTRY_rows Clawlett.TOKEN_ALIASES_rows
                                     (fun _ _ => false) world_usdc
                                     (clawlett_args true "exact")) = Exit 0)
    by (vm_compute; reflexivity).
  split; (split; [reflexivity|]).
  - split; [exact H1|]. exact (proj1 exit_0_means_swap_mined world_usdc (wallet_args true) eq_refl H1).
  - split; [exact H2|]. exact (proj2 exit_0_means_swap_mined Clawlett.TOKEN_REGISTRY_rows
                 Clawlett.TOKEN_ALIASES_rows (fun _ _ => false) world_usdc
                 (clawlett_args true "exact") eq_refl H2).
Defined.

Lemma polling_ends_in_one_of_four_statuses_witness :
  outcome (Cow.pollOrderStatus open_open_fulfilled "0x0rder" (Some 1800000))
  = Return "fulfilled" /\
  "fulfilled" <> "timeout" /\
  exists k, Cow.pw_reply open_open_fulfilled k = Cow.Status "fulfilled".
Proof.
  assert (H1 : outcome (Cow.pollOrderStatus open_open_fulfilled "0x0rder" (Some 1800000))
               = Return "fulfilled") by (vm_compute; reflexivity).
  assert (H2 : "fulfilled" <> "timeout") by discriminate.
  split; [exact H1|]. split; [exact H2|].
  exact (proj2 (polling_ends_in_one_of_four_statuses open_open_fulfilled "0x0rder"
                                                     (Some 1800000))
               "fulfilled" H1 H2).
Defined.

Lemma cow_exit_0_means_order_filled_witness :
  Cow.execute (cow_args "ETH" true) = true /\
  outcome (Cow.run world_usdc sample_services (cow_args "ETH" true)) = Exit 0 /\
  existsb (mined world_usdc is_presign)
          (trace (Cow.run world_usdc sample_services (cow_args "ETH" true))) = true /\
  existsb (reported_fulfilled open_open_fulfilled (Some 1800000))
          (trace (Cow.run world_usdc sample_services (cow_args "ETH" true))) = true.
Proof.
  assert (H : outcome (Cow.run world_usdc sample_services (cow_args "ETH" true)) = Exit 0)
    by (vm_compute; reflexivity).
  split; [reflexivity|]. split; [exact H|].
  exact (cow_exit_0_means_order_filled world_usdc sample_services (cow_args "ETH" true)
                                       eq_refl H).
Defined.

Lemma wrap_covers_the_shortfall_witness :
  outcome (Cow.check_balance world_split (safe sample_config)
                             (cow_token Cow.WETH_ADDRESS "WETH") true 5)
  = Return (5, 2) /\
  5 <= 5 /\
  (2 = 0 \/
   (true = true /\ 0 < 2 /\
    exists wethBalance ethBalance,
      erc20_balanceOf (w_provider world_split) Cow.WETH_ADDRESS (safe sample_config)
      = Some wethBalance /\
      getBalance (w_provider world_split) (safe sample_config) = Some ethBalance /\
      2 = 5 - wethBalance /\ 2 <= ethBalance)).
Proof.
  split; [reflexivity|].
  exact (wrap_covers_the_shortfall
           world_split (safe sample_config) (cow_token Cow.WETH_ADDRESS "WETH") true 5
           (trace (Cow.check_balance world_split (safe sample_config)
                                     (cow_token Cow.WETH_ADDRESS "WETH") true 5))
           5 2 eq_refl).
Defined.

Lemma smart_slippage_bounds_witness :
  0 <= 1000000 /\ 0 <= 4000 /\ 0 <= 3500000 /\
  exists slip,
    Cow.buySlippage (sample_cow_quote 4000) = Ok slip /\
    0 <= slip /\
    (0 < 1000000 -> Z.quot (Z.quot (1000000 * 5) 1000 * 3500000) 1000000 <= slip) /\
    (Z.quot (4000 * 3) 2 + Z.quot (1000000 * 5) 1000 <= 1000000 -> slip <= 3500000).
Proof.
  assert (H1 : 0 <= 1000000) by lia.
  assert (H2 : 0 <= 4000) by lia.
  assert (H3 : 0 <= 3500000) by lia.
  split; [exact H1|]. split; [exact H2|]. split; [exact H3|].
  exact (smart_slippage_bounds (sample_cow_quote 4000) H1 H2 H3).
Defined.

Lemma zero_buy_amount_stops_the_trade_witness :
  Cow.sv_quote empty_quote_services Cow.WETH_ADDRESS USDC_address (safe sample_config) 5
  = Some (true, empty_quote) /\
  Cow.q_buyAmount empty_quote = 0 /\
  outcome (Cow.trade world_usdc empty_quote_services (cow_args "ETH" true) eth_prepared 0)
  = Throw RangeError /\
  forallb harmless
          (trace (Cow.trade world_usdc empty_quote_services (cow_args "ETH" true)
                            eth_prepared 0)) = true.
Proof.
  split; [reflexivity|]. split; [reflexivity|].
  exact (zero_buy_amount_stops_the_trade world_usdc empty_quote_services (cow_args "ETH" true)
                                        eth_prepared 0 empty_quote eq_refl eq_refl).
Defined.

Lemma preflight_passes_iff_witness :
  outcome (Clawlett.preflight world_usdc sample_config (safe sample_config)) = Return tt /\
  chainId (w_provider world_usdc) = Clawlett.CHAIN_ID /\
  forallb (has_code world_usdc)
          [safe sample_config; roles sample_config; Clawlett.AeroUniversalRouter;
           Clawlett.ZodiacHelpers] = true.
Proof.
  assert (H : outcome (Clawlett.preflight world_usdc sample_config (safe sample_config))
              = Return tt) by reflexivity.
  split; [exact H|].
  exact (proj1 (proj1 (preflight_passes_iff world_usdc sample_config (safe sample_config)))
               H).
Defined.

Lemma wrong_chain_stops_the_run_witness :
  chainId (w_provider world_mainnet) <> Clawlett.CHAIN_ID /\
  all_events before_chain_test
             (Clawlett.run Clawlett.TOKEN_REGISTRY_rows Clawlett.TOKEN_ALIASES_rows
                           (fun _ _ => false) world_mainnet (clawlett_args true "exact")) /\
  outcome (Clawlett.run Clawlett.TOKEN_REGISTRY_rows Clawlett.TOKEN_ALIASES_rows
                        (fun _ _ => false) world_mainnet (clawlett_args true "exact"))
  = Exit 1.
Proof.
  assert (H : chainId (w_provider world_mainnet) <> Clawlett.CHAIN_ID) by discriminate.
  split; [exact H|].
  exact (wrong_chain_stops_the_run _ _ _ world_mainnet (clawlett_args true "exact") H).
Defined.

Lemma rewritten_call_data_is_well_formed_witness :
  Clawlett.requireHexData (Some "0x3593564c00") "quote.calldata" = Ok tt /\
  Clawlett.requireHexData (Some "0xf23674e800") "swapCalldata" = Ok tt.
Proof.
  assert (H : Clawlett.requireHexData (Some "0x3593564c00") "quote.calldata" = Ok tt)
    by reflexivity.
  split; [exact H|].
  exact (proj1 rewritten_call_data_is_well_formed (Some "0x3593564c00") "quote.calldata"
               "swapCalldata" H).
Defined.

Lemma minimum_output_bounds_witness :
  (0 <= 1000 /\ 0 <= 1 <= 100 /\
   exists m,
     ClawWallet.minAmountOut_of 1000 (JsNumber.of_Z 1) = Ok m /\ 0 <= m <= 1000) /\
  (JsNumber.valid JsNumber.n0_05 = true /\ slippage_in_range JsNumber.n0_05 = true /\
   BigInt.or_else (Clawlett.minAmountOut (quote_1000 None)) 0 = 0 /\
   0 <= Clawlett.amountOut (quote_1000 None) /\
   exists bps m,
     Clawlett.parseSlippageBps JsNumber.n0_05 = Ok bps /\
     Clawlett.minAmountOut_of (quote_1000 None) bps = Ok m /\
     Z.quot (Clawlett.amountOut (quote_1000 None)) 2 <= m
     <= Clawlett.amountOut (quote_1000 None)).
Proof.
  assert (H1 : 0 <= 1000) by lia.
  assert (H2 : 0 <= 1 <= 100) by lia.
  assert (H3 : 0 <= Clawlett.amountOut (quote_1000 None)) by (cbn; lia).
  split.
  - split; [exact H1|]. split; [exact H2|].
    destruct (proj1 minimum_output_bounds 1000 1 H1 H2) as (m & Hm & Hb & _).
    exists m. split; [exact Hm | exact Hb].
  - split; [reflexivity|]. split; [reflexivity|]. split; [reflexivity|]. split; [exact H3|].
    exact (proj2 minimum_output_bounds JsNumber.n0_05 (quote_1000 None)
                 eq_refl eq_refl eq_refl H3).
Defined.

Lemma wallet_symbol_resolves_through_registry_witness :
  address_shaped (JsString.trim " $usdc ") = false /\
  match outcome (ClawWallet.resolveToken world_usdc " $usdc ") with
  | Return d =>
      ClawWallet.verified d = true /\ ClawWallet.warning d = None /\
      (exists S, In (S, ClawWallet.address d) ClawWallet.VERIFIED_TOKENS) /\
      trace (ClawWallet.resolveToken world_usdc " $usdc ")
      = [RpcRead "symbol" (ClawWallet.address d); RpcRead "decimals" (ClawWallet.address d)]
  | Throw e =>
      e = RpcFailure \/
      (e = Error (MTokenNotFound
                    (JsString.strip_sigil (JsString.toUpperCase (JsString.trim " $usdc ")))) /\
       trace (ClawWallet.resolveToken world_usdc " $usdc ") = [])
  | Exit _ => False
  end.
Proof.
  split; [reflexivity|].
  exact (wallet_symbol_resolves_through_registry world_usdc " $usdc " eq_refl).
Defined.

Lemma symbols_are_read_without_regard_to_case_witness :
  JsString.toUpperCase "usdc" = JsString.toUpperCase "USDC" /\
  address_shaped (JsString.trim "usdc") = false /\
  address_shaped (JsString.trim "USDC") = false /\
  ClawWallet.resolveToken world_usdc "usdc" = ClawWallet.resolveToken world_usdc "USDC" /\
  Clawlett.resolveToken Clawlett.TOKEN_REGISTRY_rows Clawlett.TOKEN_ALIASES_rows
                        world_usdc "usdc"
  = Clawlett.resolveToken Clawlett.TOKEN_REGISTRY_rows Clawlett.TOKEN_ALIASES_rows
                          world_usdc "USDC".
Proof.
  split; [reflexivity|]. split; [reflexivity|]. split; [reflexivity|]. split.
  - exact (proj1 symbols_are_read_without_regard_to_case world_usdc "usdc" "USDC"
                 eq_refl eq_refl eq_refl).
  - exact (proj2 symbols_are_read_without_regard_to_case _ _ world_usdc "usdc" "USDC"
                 eq_refl eq_refl eq_refl).
Defined.
